(** * Dian: device composition and symbolic substitution

    A shallow embedding of [dian/devices/devicebase.py] and
    [dian/devices/pvgen.py].

    A device is a Python object: a class name and an instance attribute
    dictionary ([self.__dict__]).  Every method of [DeviceBase] reads and
    writes that dictionary by name, so the embedding keeps the dictionary
    as it is instead of a typed record; Python's dynamic failures
    ([KeyError], [AttributeError], [TypeError], ...) are results of the
    error monad [result].

    SymPy and NumPy are libraries outside the repository.  Expressions are
    syntax trees (a head applied to its arguments), [subs] is tree
    substitution, and SymPy's automatic canonicalisation of a rebuilt
    expression is not modelled.  A Python [float] is a binary64 number.
    [sympify], the iteration order of a Python [set] and the case mapping
    of [str.lower], which is Unicode's, are parameters of the
    development. *)

From Stdlib Require Import ZArith String Ascii List Lia Permutation.
From Stdlib Require Import Floats.PrimFloat.
From Stdlib Require Floats.SpecFloat Floats.FloatOps.
From stdpp Require Import base strings gmap list pretty.

Set Warnings "-register-all".
Set Warnings "-inexact-float".

Local Open Scope list_scope.
Local Open Scope Z_scope.

(** ** SymPy expressions *)

(** A SymPy [Symbol]: equality is by name and assumptions, [str] gives the
    name only. *)
Record symbol := Symbol { name : string; commutative : bool }.

#[global] Instance symbol_eq_dec : EqDecision symbol.
Proof. solve_decision. Defined.

(** [Basic] objects: atoms, and nodes of a head applied to arguments
    ([Add], [Mul], [Pow], [Array], ...). *)
Inductive expr :=
| Sym (s : symbol)
| Num (z : Z)
| App (head : string) (args : list expr).

(** [str(symbol)] *)
Definition str (s : symbol) : string := name s.

(** All symbol leaves, left to right. *)
Fixpoint symbols_of (e : expr) : list symbol :=
  match e with
  | Sym s => [s]
  | Num _ => []
  | App _ args => flat_map symbols_of args
  end.

(** [expr.free_symbols], as the duplicate-free list of its members. *)
Definition free_symbols (e : expr) : list symbol := remove_dups (symbols_of e).

(** [expr._subs(old, new)] for a symbol [old]. *)
Fixpoint subst1 (old : symbol) (new : expr) (e : expr) : expr :=
  match e with
  | Sym s => if decide (s = old) then new else e
  | Num _ => e
  | App h args => App h (map (subst1 old new) args)
  end.

(** [expr.subs(sequence)] on a list of pairs: one replacement after the
    other, in the order of the list. *)
Definition subs (e : expr) (sequence : list (symbol * expr)) : expr :=
  fold_left (fun rv p => subst1 (fst p) (snd p) rv) sequence e.

(** The replacement a list of pairs holds for a symbol. *)
Fixpoint rep_lookup (reps : list (symbol * expr)) (s : symbol) : option expr :=
  match reps with
  | [] => None
  | (old, new) :: rest => if decide (old = s) then Some new else rep_lookup rest s
  end.

(** [expr.subs(sequence, simultaneous=True)]: every [old] is replaced in
    one pass over the original expression; a replacement is not visited
    again. *)
Fixpoint subs_simultaneous (e : expr) (reps : list (symbol * expr)) : expr :=
  match e with
  | Sym s => match rep_lookup reps s with Some new => new | None => e end
  | Num _ => e
  | App h args => App h (map (fun a => subs_simultaneous a reps) args)
  end.

(** What a list of pairs binds a symbol to: its replacement, or the
    symbol itself. *)
Definition bindings (reps : list (symbol * expr)) (s : symbol) : expr :=
  match rep_lookup reps s with
  | Some new => new
  | None => Sym s
  end.

(** Simultaneous substitution as the specification words it: each free
    symbol is replaced by its own binding, read off the original
    template. *)
Fixpoint substitute (sigma : symbol -> expr) (e : expr) : expr :=
  match e with
  | Sym s => sigma s
  | Num _ => e
  | App h args => App h (map (substitute sigma) args)
  end.

(** [a == b] on expressions: they are equal when they are the same
    tree. *)
Fixpoint expr_eqb (a b : expr) : bool :=
  match a, b with
  | Sym s, Sym t => bool_decide (s = t)
  | Num x, Num y => x =? y
  | App h xs, App g ys =>
      bool_decide (h = g) &&
      (fix go (xs ys : list expr) : bool :=
         match xs, ys with
         | [], [] => true
         | x :: xs', y :: ys' => expr_eqb x y && go xs' ys'
         | _, _ => false
         end) xs ys
  | _, _ => false
  end.

(** ** Python values *)

(** Keys of the dictionaries the devices hold: names and external idx. *)
Inductive key := KInt (z : Z) | KStr (s : string).

#[global] Instance key_eq_dec : EqDecision key.
Proof. solve_decision. Defined.

#[global] Instance key_countable : Countable key.
Proof.
  refine (inj_countable'
            (fun k => match k with KInt z => inl z | KStr s => inr s end)
            (fun x => match x with inl z => KInt z | inr s => KStr s end) _).
  intros []; reflexivity.
Defined.

(** Lists, SymPy arrays and NumPy arrays are all [PList]; [dict] and
    [OrderedDict] are [PDict], in insertion order. *)
Inductive pyval :=
| PNone
| PBool (b : bool)
| PInt (z : Z)
| PFloat (f : float)
| PStr (s : string)
| PExpr (e : expr)
| PList (items : list pyval)
| PDict (entries : list (key * pyval))
| PObject (cls : string).

(** [type(v).__name__] *)
Definition type_name (v : pyval) : string :=
  match v with
  | PNone => "NoneType"
  | PBool _ => "bool"
  | PInt _ => "int"
  | PFloat _ => "float"
  | PStr _ => "str"
  | PExpr (Sym _) => "Symbol"
  | PExpr (Num _) => "Integer"
  | PExpr (App h _) => h
  | PList _ => "list"
  | PDict _ => "dict"
  | PObject c => c
  end.

(** Exceptions.  [KeyError] carries the key that was looked up,
    [AttributeError] the class and the attribute, [AssertionError] the
    message of the [assert]. *)
Inductive exc :=
| AttributeError (cls attr : string)
| KeyError (k : pyval)
| IndexError
| TypeError
| ValueError
| AssertionError (msg : string)
| NotImplementedError
| SympifyError.

(** ** The error monad *)

Inductive result (A : Type) :=
| Ok (a : A)
| Raise (e : exc).

Arguments Ok {A} a.
Arguments Raise {A} e.

Definition bind {A B : Type} (c : result A) (k : A -> result B) : result B :=
  match c with
  | Ok a => k a
  | Raise e => Raise e
  end.

Notation "'let*' x ':=' c 'in' k" := (bind c (fun x => k))
  (at level 10, x name, c at level 100, k at level 200).

(** A list comprehension whose body may raise. *)
Fixpoint traverse {A B : Type} (f : A -> result B) (l : list A) : result (list B) :=
  match l with
  | [] => Ok []
  | x :: rest =>
      let* y := f x in
      let* ys := traverse f rest in
      Ok (y :: ys)
  end.

(** A [for] loop over [l] that threads the state [s]. *)
Fixpoint for_each {A S : Type} (body : S -> A -> result S) (l : list A) (s : S) : result S :=
  match l with
  | [] => Ok s
  | x :: rest =>
      let* s' := body s x in
      for_each body rest s'
  end.

(** ** Operations of the Python data model *)

Definition dict_lookup (entries : list (key * pyval)) (k : key) : option pyval :=
  snd <$> find (fun p => bool_decide (fst p = k)) entries.

(** [d[k] = v]: an existing key keeps its place, a new one goes last. *)
Fixpoint dict_set (entries : list (key * pyval)) (k : key) (v : pyval) : list (key * pyval) :=
  match entries with
  | [] => [(k, v)]
  | (k', v') :: rest =>
      if decide (k' = k) then (k', v) :: rest else (k', v') :: dict_set rest k v
  end.

(** [d.pop(k)] without the returned value. *)
Fixpoint dict_remove (entries : list (key * pyval)) (k : key) : list (key * pyval) :=
  match entries with
  | [] => []
  | (k', v') :: rest =>
      if decide (k' = k) then rest else (k', v') :: dict_remove rest k
  end.

(** The integer a float is equal to, when it is equal to one. *)
Definition float_integer (f : float) : option Z :=
  match FloatOps.Prim2SF f with
  | SpecFloat.S754_zero _ => Some 0
  | SpecFloat.S754_finite s m e =>
      let v := if s then Z.neg m else Z.pos m in
      if 0 <=? e then Some (v * 2 ^ e)
      else if v mod 2 ^ (- e) =? 0 then Some (v / 2 ^ (- e))
      else None
  | _ => None
  end.

(** The key a hashable value is in a dictionary of names and integers.
    Numbers that are equal hash alike and are the same key, whatever
    their type: [True], [1], [1.0] and SymPy's [Integer(1)].  A number
    that is no integer, and any other value, is no key of such a
    dictionary. *)
Definition as_key (v : pyval) : option key :=
  match v with
  | PInt z => Some (KInt z)
  | PBool b => Some (KInt (if b then 1 else 0))
  | PFloat f => KInt <$> float_integer f
  | PExpr (Num z) => Some (KInt z)
  | PStr s => Some (KStr s)
  | _ => None
  end.

Definition of_key (k : key) : pyval :=
  match k with
  | KInt z => PInt z
  | KStr s => PStr s
  end.

(** [a is b or a == b], the comparison [in] makes of an item and a
    value.  Numbers are compared by value and names by their text, lists
    item by item, dictionaries entry by entry in any order, expressions
    as trees; a value is the same object as itself. *)
Fixpoint py_eq (a b : pyval) : bool :=
  match a with
  | PNone => match b with PNone => true | _ => false end
  | PObject c => match b with PObject c' => bool_decide (c = c') | _ => false end
  | PList l =>
      match b with
      | PList l' =>
          (fix go (l l' : list pyval) : bool :=
             match l, l' with
             | [], [] => true
             | x :: r, y :: r' => py_eq x y && go r r'
             | _, _ => false
             end) l l'
      | _ => false
      end
  | PDict d =>
      match b with
      | PDict d' =>
          (length d =? length d')%nat &&
          (fix go (d : list (key * pyval)) : bool :=
             match d with
             | [] => true
             | (k, v) :: r =>
                 match dict_lookup d' k with
                 | Some v' => py_eq v v'
                 | None => false
                 end && go r
             end) d
      | _ => false
      end
  | _ =>
      match as_key a, as_key b with
      | Some k, Some k' => bool_decide (k = k')
      | None, None =>
          match a, b with
          | PFloat f, PFloat g => PrimFloat.eqb f g || PrimFloat.Leibniz.eqb f g
          | PExpr e, PExpr e' => expr_eqb e e'
          | _, _ => false
          end
      | _, _ => false
      end
  end.

(** Lists and dictionaries cannot be hashed. *)
Definition hashable (v : pyval) : bool :=
  match v with
  | PList _ | PDict _ => false
  | _ => true
  end.

(** [len(v)] *)
Definition py_len (v : pyval) : result nat :=
  match v with
  | PList items => Ok (length items)
  | PDict entries => Ok (length entries)
  | PStr s => Ok (String.length s)
  | _ => Raise TypeError
  end.

(** Position [z] of a sequence of length [n], counting from the end when
    negative. *)
Definition seq_index (n : nat) (z : Z) : option nat :=
  if (0 <=? z) && (z <? Z.of_nat n) then Some (Z.to_nat z)
  else if (- Z.of_nat n <=? z) && (z <? 0) then Some (Z.to_nat (Z.of_nat n + z))
  else None.

Definition list_item (items : list pyval) (z : Z) : result pyval :=
  match seq_index (length items) z with
  | Some i => match items !! i with Some x => Ok x | None => Raise IndexError end
  | None => Raise IndexError
  end.

Definition str_item (s : string) (z : Z) : result pyval :=
  match seq_index (String.length s) z with
  | Some i => match String.get i s with
              | Some c => Ok (PStr (String c EmptyString))
              | None => Raise IndexError
              end
  | None => Raise IndexError
  end.

(** [v[i]].  A sequence takes an integer as index, also [True] and
    [False] and SymPy's [Integer]. *)
Definition py_getitem (v i : pyval) : result pyval :=
  match v with
  | PList items =>
      match i with
      | PInt z => list_item items z
      | PBool b => list_item items (if b then 1 else 0)
      | PExpr (Num z) => list_item items z
      | _ => Raise TypeError
      end
  | PStr s =>
      match i with
      | PInt z => str_item s z
      | PBool b => str_item s (if b then 1 else 0)
      | PExpr (Num z) => str_item s z
      | _ => Raise TypeError
      end
  | PDict entries =>
      match as_key i with
      | Some k => match dict_lookup entries k with
                  | Some x => Ok x
                  | None => Raise (KeyError i)
                  end
      | None => if hashable i then Raise (KeyError i) else Raise TypeError
      end
  | _ => Raise TypeError
  end.

(** [x in v] *)
Definition py_contains (v x : pyval) : result bool :=
  match v with
  | PList items => Ok (existsb (fun it => py_eq it x) items)
  | PDict entries =>
      match as_key x with
      | Some k => Ok (bool_decide (is_Some (dict_lookup entries k)))
      | None => if hashable x then Ok false else Raise TypeError
      end
  | PStr s =>
      match x with
      | PStr t => Ok (bool_decide (is_Some (String.index 0 t s)))
      | _ => Raise TypeError
      end
  | _ => Raise TypeError
  end.

Definition list_setitem (items : list pyval) (z : Z) (x : pyval) : result pyval :=
  match seq_index (length items) z with
  | Some n => Ok (PList (<[n := x]> items))
  | None => Raise IndexError
  end.

(** [v[i] = x].  The dictionaries of the model hold names and integers
    as keys; storing under any other key is outside the model and raises
    [TypeError] here. *)
Definition py_setitem (v i x : pyval) : result pyval :=
  match v with
  | PList items =>
      match i with
      | PInt z => list_setitem items z x
      | PBool b => list_setitem items (if b then 1 else 0) x
      | PExpr (Num z) => list_setitem items z x
      | _ => Raise TypeError
      end
  | PDict entries =>
      match as_key i with
      | Some k => Ok (PDict (dict_set entries k x))
      | None => Raise TypeError
      end
  | _ => Raise TypeError
  end.

(** [v.items()] *)
Definition py_items (v : pyval) : result (list (key * pyval)) :=
  match v with
  | PDict entries => Ok entries
  | _ => Raise (AttributeError (type_name v) "items")
  end.

Definition chars (s : string) : list pyval :=
  map (fun c => PStr (String c EmptyString)) (list_ascii_of_string s).

(** [iter(v)], as the list of what it yields. *)
Definition py_iter (v : pyval) : result (list pyval) :=
  match v with
  | PList items => Ok items
  | PDict entries => Ok (map (fun p => of_key (fst p)) entries)
  | PStr s => Ok (chars s)
  | _ => Raise TypeError
  end.

(** [min(l)] of a list of lengths. *)
Definition py_min (l : list nat) : result nat :=
  match l with
  | [] => Raise ValueError
  | x :: rest => Ok (fold_left Nat.min rest x)
  end.


(** [v is False] *)
Definition py_is_False (v : pyval) : bool :=
  match v with
  | PBool false => true
  | _ => false
  end.

(** [f'{v}'] of a name.  Names are strings; formatting anything else is
    outside the model and raises [TypeError] here. *)
Definition py_fstring (v : pyval) : result string :=
  match v with
  | PStr s => Ok s
  | _ => Raise TypeError
  end.

(** [a, b = v] *)
Definition unpack2 (v : pyval) : result (pyval * pyval) :=
  let* items := py_iter v in
  match items with
  | [a; b] => Ok (a, b)
  | _ => Raise ValueError
  end.

(** [list(v)] *)
Definition builtin_list (v : pyval) : result pyval :=
  let* items := py_iter v in
  Ok (PList items).

(** [smp.Array(v)] of a flat list. *)
Definition smp_Array (v : pyval) : result pyval :=
  match v with
  | PList items => Ok (PList items)
  | _ => Raise TypeError
  end.

(** [smp.symbols(v)] of one plain name. *)
Definition smp_symbols (v : pyval) : result pyval :=
  match v with
  | PStr s => Ok (PExpr (Sym (Symbol s true)))
  | _ => Raise TypeError
  end.

(** [np.array(l)] of a list. *)
Definition np_array (l : list pyval) : pyval := PList l.

(** [a[keys]] for a NumPy array [a] and an index array [keys].  The array
    of an empty list has a float dtype, which NumPy refuses as an index;
    so it does any entry that is not an integer. *)
Definition np_take (a keys : pyval) : result pyval :=
  match a, keys with
  | PList items, PList ks =>
      match ks with
      | [] => Raise IndexError
      | _ =>
          let* sel := traverse (fun k => match k with
                                         | PInt z => list_item items z
                                         | _ => Raise IndexError
                                         end) ks in
          Ok (PList sel)
      end
  | _, _ => Raise TypeError
  end.

(** The value of the [return_as] and [output_type] arguments: [None],
    the builtin [list], or another callable. *)
Inductive return_type :=
| AsNone
| AsList
| AsCall (f : pyval -> result pyval).

(** ** Devices *)

(** An instance: its class name and its [__dict__]. *)
Record Device := mkDevice { cls : string; attrs : gmap key pyval }.

(** A fresh instance of class [c], before [__init__] runs. *)
Definition new (c : string) : Device := {| cls := c; attrs := ∅ |}.

(** [self.__dict__[k]] *)
Definition dict_getitem (self : Device) (k : pyval) : result pyval :=
  match as_key k with
  | Some k' => match attrs self !! k' with
               | Some v => Ok v
               | None => Raise (KeyError k)
               end
  | None => if hashable k then Raise (KeyError k) else Raise TypeError
  end.

(** [self.__dict__[k] = v] *)
Definition dict_setitem (self : Device) (k : key) (v : pyval) : Device :=
  {| cls := cls self; attrs := <[k := v]> (attrs self) |}.

(** What the classes define: the methods of [DeviceBase] (the subclasses
    add [__init__] only) and the attributes every object has. *)
Definition class_attributes : list string :=
  [ "__init__"; "make_gcall_ext_symbolic"; "make_gcall_int_symbolic";
    "delayed_symbol_sub"; "delayed_symbol_sub_all"; "_subs_all_vectorized";
    "_subs_all_singleton"; "_init_data"; "get_algeb_ext"; "_get_int_of_element";
    "get_list_of_symbols_from_ext"; "idx2int"; "create_n_default_elements";
    "_init_equation"; "_check_number_of_algeb_equations"; "metadata_check";
    "_compute_param_int"; "_compute_variable"; "_compute_variable_custom";
    "_compute_param_custom"; "get_var_address"; "is_state"; "is_algeb";
    "__class__"; "__delattr__"; "__dict__"; "__dir__"; "__doc__"; "__eq__";
    "__format__"; "__ge__"; "__getattribute__"; "__gt__"; "__hash__";
    "__init_subclass__"; "__le__"; "__lt__"; "__module__"; "__ne__"; "__new__";
    "__reduce__"; "__reduce_ex__"; "__repr__"; "__setattr__"; "__sizeof__";
    "__str__"; "__subclasshook__"; "__weakref__" ].

(** The property [n]: [len(self.idx)] *)
Definition n (self : Device) : result nat :=
  match attrs self !! KStr "idx" with
  | Some idx => py_len idx
  | None => Raise (AttributeError (cls self) "idx")
  end.

(** [self.attr]: the property [n] first, then the instance dictionary,
    then the class; otherwise [AttributeError]. *)
Definition getattr (self : Device) (attr : string) : result pyval :=
  if decide (attr = "n") then
    let* k := n self in Ok (PInt (Z.of_nat k))
  else
    match attrs self !! KStr attr with
    | Some v => Ok v
    | None =>
        if decide (attr ∈ class_attributes) then Ok (PObject "method")
        else Raise (AttributeError (cls self) attr)
    end.

(** [len(self.attr)] *)
Definition attr_len (self : Device) (attr : string) : result nat :=
  let* v := getattr self attr in
  py_len v.

(** [self.attr = v] *)
Definition setattr (self : Device) (attr : string) (v : pyval) : Device :=
  dict_setitem self (KStr attr) v.

(** [self.attr.extend(more)] *)
Definition attr_extend (self : Device) (attr : string) (more : list pyval) : result Device :=
  let* v := getattr self attr in
  match v with
  | PList items => Ok (setattr self attr (PList (items ++ more)))
  | _ => Raise (AttributeError (type_name v) "extend")
  end.

(** [self.attr.update(more)] *)
Definition attr_update (self : Device) (attr : string) (more : list (key * pyval)) : result Device :=
  let* v := getattr self attr in
  match v with
  | PDict entries =>
      Ok (setattr self attr (PDict (fold_left (fun d p => dict_set d (fst p) (snd p)) more entries)))
  | _ => Raise (AttributeError (type_name v) "update")
  end.

(** [l.remove(x)] for a name [x]: the first equal item goes. *)
Fixpoint list_remove (items : list pyval) (x : key) : option (list pyval) :=
  match items with
  | [] => None
  | it :: rest =>
      if decide (as_key it = Some x) then Some rest
      else cons it <$> list_remove rest x
  end.

(** [self.attr.remove(x)] *)
Definition attr_remove (self : Device) (attr : string) (x : key) : result Device :=
  let* v := getattr self attr in
  match v with
  | PList items =>
      match list_remove items x with
      | Some items' => Ok (setattr self attr (PList items'))
      | None => Raise ValueError
      end
  | _ => Raise (AttributeError (type_name v) "remove")
  end.

(** [self.attr.pop(k)] *)
Definition attr_pop (self : Device) (attr : string) (k : key) : result Device :=
  let* v := getattr self attr in
  match v with
  | PDict entries =>
      match dict_lookup entries k with
      | Some _ => Ok (setattr self attr (PDict (dict_remove entries k)))
      | None => Raise (KeyError (of_key k))
      end
  | PList _ => Raise TypeError
  | _ => Raise (AttributeError (type_name v) "pop")
  end.

(** ** The constructors *)

Module DeviceBase.

(** [DeviceBase.__init__(self, system)] *)
Definition __init__ (self : Device) (system : pyval) : result Device :=
  let self := setattr self "system" system in
  let self := setattr self "idx" (PList []) in
  let self := setattr self "_options" (PDict []) in
  let self := setattr self "_param_data" (PDict []) in
  let self := setattr self "_param_int" (PList [PStr "name"; PStr "u"]) in
  let self := setattr self "_param_int_default"
                (PDict [(KStr "name", PStr ""); (KStr "u", PInt 1)]) in
  let self := setattr self "_param_int_non_computational" (PList [PStr "name"]) in
  let self := setattr self "_param_int_computed" (PDict []) in
  let self := setattr self "_param_int_custom" (PList []) in
  let self := setattr self "_param_ext" (PList []) in
  let self := setattr self "_param_ext_computed" (PList []) in
  let self := setattr self "_int" (PDict []) in
  let self := setattr self "_foreign_keys" (PDict []) in
  let self := setattr self "_algeb_int" (PList []) in
  let self := setattr self "_algeb_intf" (PList []) in
  let self := setattr self "_algeb_ext" (PDict []) in
  let self := setattr self "_var_int_computed" (PDict []) in
  let self := setattr self "_var_int_custom" (PDict []) in
  let self := setattr self "_state_int" (PList []) in
  let self := setattr self "_state_intf" (PList []) in
  let self := setattr self "_state_ext" (PList []) in
  let self := setattr self "_workflow" PNone in
  let self := setattr self "_gcall_ext" (PDict []) in
  let self := setattr self "_gcall_ext_symbolic_singleton" (PDict []) in
  let self := setattr self "_gcall_ext_symbolic" (PDict []) in
  let self := setattr self "_symbol_singleton" (PDict []) in
  let self := setattr self "_gcall_int" (PDict []) in
  let self := setattr self "_gcall_int_symbolic_singleton" (PDict []) in
  let self := setattr self "_gcall_int_symbolic" (PDict []) in
  let self := setattr self "_special_flags"
                (PDict [(KStr "no_algeb_ext_check", PBool false);
                        (KStr "state_group_by_element", PBool true);
                        (KStr "algeb_group_by_element", PBool true)]) in
  let self := setattr self "_var_int_non_commutative" (PDict []) in
  let self := setattr self "_dae_address" (PDict []) in
  Ok self.

End DeviceBase.

Module PV.

(** [PV.__init__(self, system)] *)
Definition __init__ (self : Device) (system : pyval) : result Device :=
  let* self := DeviceBase.__init__ self system in
  let* self := attr_extend self "_param_int"
                 [PStr "bus"; PStr "p0"; PStr "v0"; PStr "Sn"; PStr "Vn";
                  PStr "vmax"; PStr "vmin"; PStr "qmax"; PStr "qmin"] in
  let* self := attr_extend self "_param_int_non_computational" [PStr "bus"] in
  let* self := attr_extend self "_param_int_mandatory" [PStr "bus"] in
  let* self := attr_update self "_param_int_default"
                 [(KStr "p0", PInt 0); (KStr "v0", PInt 1); (KStr "Sn", PInt 100);
                  (KStr "Vn", PInt 110); (KStr "vmax", PFloat 1.1);
                  (KStr "vmin", PFloat 0.9); (KStr "qmax", PInt 999);
                  (KStr "qmin", PInt (-999))] in
  let* self := attr_update self "_foreign_keys" [(KStr "bus", PStr "Bus")] in
  let* self := attr_update self "_algeb_ext"
                 [(KStr "a", PList [PStr "bus"; PStr "a"]);
                  (KStr "v", PList [PStr "bus"; PStr "v"])] in
  let* self := attr_extend self "_algeb_int" [PStr "q"] in
  let* self := attr_update self "_gcall_int" [(KStr "q", PStr "v - v0")] in
  attr_update self "_gcall_ext" [(KStr "a", PStr "-p0"); (KStr "v", PStr "-q")].

End PV.

Module Slack.

(** [Slack.__init__(self, system)] *)
Definition __init__ (self : Device) (system : pyval) : result Device :=
  let* self := PV.__init__ self system in
  let* self := attr_remove self "_param_int" (KStr "p0") in
  let* self := attr_pop self "_param_int_default" (KStr "p0") in
  let* self := attr_extend self "_param_int" [PStr "a0"] in
  let* self := attr_update self "_param_int_default" [(KStr "a0", PInt 0)] in
  let* self := attr_extend self "_algeb_int" [PStr "p"] in
  let* self := attr_update self "_gcall_int" [(KStr "p", PStr "a - a0")] in
  attr_update self "_gcall_ext" [(KStr "a", PStr "-p")].

End Slack.

(** [PV(system)] and [Slack(system)]: allocate, then initialise. *)
Definition construct_PV (system : pyval) : result Device :=
  PV.__init__ (new "PV") system.

Definition construct_Slack (system : pyval) : result Device :=
  Slack.__init__ (new "Slack") system.


(** An instance of class [c] that was allocated and given a list
    [_param_int_mandatory], and nothing else, before [__init__] runs. *)
Definition with_mandatory (c : string) (mandatory : list pyval) : Device :=
  setattr (new c) "_param_int_mandatory" (PList mandatory).
(** ** Sample data

    Stand-ins for the library parameters and small devices, on which the
    model is run. *)

(** A set iterated in the order its members were first met. *)
Definition set_iter_first (l : list symbol) : list symbol := l.

(** The lower-case letter of an ASCII letter: [A] to [Z] go to [a] to
    [z]. *)
Definition lower_ascii_char (c : ascii) : ascii :=
  let n := nat_of_ascii c in
  if (65 <=? n)%nat && (n <=? 90)%nat then ascii_of_nat (n + 32) else c.

(** [str.lower] on ASCII text, which is what the device names of the
    samples are. *)
Fixpoint lower_ascii (s : string) : string :=
  match s with
  | EmptyString => EmptyString
  | String c rest => String (lower_ascii_char c) (lower_ascii rest)
  end.

(** A set iterated in the opposite order. *)
Definition set_iter_last (l : list symbol) : list symbol := rev l.

(** [sympify] on expressions and integers, and on the strings a table
    gives a parse for. *)
Definition sympify_table (table : list (string * expr)) (v : pyval) : result expr :=
  match v with
  | PExpr e => Ok e
  | PInt z => Ok (Num z)
  | PStr s =>
      match find (fun p => bool_decide (fst p = s)) table with
      | Some p => Ok (snd p)
      | None => Raise SympifyError
      end
  | _ => Raise SympifyError
  end.

(** A [DeviceBase] instance of class [c], as [__init__] leaves it. *)
Definition base_device (c : string) : Device :=
  match DeviceBase.__init__ (new c) (PObject "System") with
  | Ok d => d
  | Raise _ => new c
  end.

(** A load that imports the angle [a] of its bus and declares no
    equation for it. *)
Definition load_without_equation : Device :=
  setattr (base_device "Load") "_algeb_ext" (PDict [(KStr "a", PList [PStr "bus"; PStr "a"])]).

(** The commutative symbol of a name, and the expression it is. *)
Definition symbol_named (s : string) : symbol := Symbol s true.

Definition sym (s : string) : expr := Sym (symbol_named s).

(** Two buses with idx [0] and [1], their symbols and their addresses, as
    [create_n_default_elements], [_init_data] and [get_var_address] leave
    them. *)
Definition two_buses : Device :=
  let d := setattr (base_device "Bus") "idx" (PList [PInt 0; PInt 1]) in
  let d := setattr d "_int" (PDict [(KInt 0, PInt 0); (KInt 1, PInt 1)]) in
  let d := setattr d "a" (PList [PExpr (sym "Bus_a_0"); PExpr (sym "Bus_a_1")]) in
  let d := setattr d "v" (PList [PExpr (sym "Bus_v_0"); PExpr (sym "Bus_v_1")]) in
  setattr d "_dae_address"
    (PDict [(KStr "a", PList [PInt 0; PInt 1]); (KStr "v", PList [PInt 2; PInt 3])]).

(** The template [a + v]. *)
Definition a_plus_v : expr := App "Add" [sym "a"; sym "v"].


(** A bus whose [a] is the number [3] instead of an array. *)
Definition bus_scalar_a : Device := setattr (base_device "Bus") "a" (PInt 3).

(** A device that imports the angle of every bus through the device name
    [Bus], which is no parameter of it. *)
Definition monitor : Device :=
  setattr (base_device "Monitor") "_algeb_ext" (PDict [(KStr "a", PList [PStr "Bus"; PStr "a"])]).

Definition sample_system : gmap string Device := {[ "bus" := two_buses ]}.

(** A generator of two elements whose set point [v0] was left empty, and
    its equation [v - v0]. *)
Definition gen_empty_v0 : Device :=
  let d := setattr (base_device "Gen") "idx" (PList [PInt 0; PInt 1]) in
  let d := setattr d "v" (PList [PExpr (sym "Gen_v_0"); PExpr (sym "Gen_v_1")]) in
  setattr d "v0" (PList []).

Definition v_minus_v0 : expr := App "Add" [sym "v"; App "Mul" [Num (-1); sym "v0"]].

(** The same generator with both quantities filled, the equation in
    [_gcall_int_symbolic_singleton] and nothing expanded yet. *)
Definition gen_two : Device :=
  let d := setattr (base_device "Gen") "idx" (PList [PInt 0; PInt 1]) in
  let d := setattr d "v" (PList [PExpr (sym "Gen_v_0"); PExpr (sym "Gen_v_1")]) in
  let d := setattr d "v0" (PList [PExpr (sym "Gen_v0_0"); PExpr (sym "Gen_v0_1")]) in
  setattr d "_gcall_int_symbolic_singleton" (PDict [(KStr "q", PExpr v_minus_v0)]).

(** A device whose quantities [x] and [y] each hold the other's symbol,
    and the template [x + y]. *)
Definition crossed : Device :=
  let d := setattr (base_device "Crossed") "x" (PExpr (sym "y")) in
  setattr d "y" (PExpr (sym "x")).

Definition x_plus_y : expr := App "Add" [sym "x"; sym "y"].

(** A line of two elements with the resistance [r] and two derived
    parameters, [x = r] and then [y = x], still holding their
    placeholders. *)
Definition line_derived : Device :=
  let d := setattr (base_device "Line") "idx" (PList [PInt 0; PInt 1]) in
  let d := setattr d "r" (PList [PExpr (sym "Line_r_0"); PExpr (sym "Line_r_1")]) in
  let d := setattr d "x" (PList [PExpr (sym "Line_x_0"); PExpr (sym "Line_x_1")]) in
  let d := setattr d "y" (PList [PExpr (sym "Line_y_0"); PExpr (sym "Line_y_1")]) in
  setattr d "_param_int_computed" (PDict [(KStr "x", PStr "r"); (KStr "y", PStr "x")]).

Definition line_table : list (string * expr) := [("r"%string, sym "r"); ("x"%string, sym "x")].

(** What an exception carries as text, and whether a text occurs in it. *)
Definition exc_texts (e : exc) : list string :=
  match e with
  | AttributeError c a => [c; a]
  | KeyError (PStr s) => [s]
  | AssertionError msg => [msg]
  | _ => []
  end.

Definition mentions (e : exc) (text : string) : bool :=
  existsb (fun t => bool_decide (is_Some (String.index 0 text t))) (exc_texts e).

(** The entry a device stores for a symbol at a position, read as an
    expression. *)
Definition stored_at (self : Device) (s : symbol) (i : nat) : expr :=
  match attrs self !! KStr (str s) with
  | Some (PList items) =>
      match items !! i with
      | Some (PExpr x) => x
      | _ => Num 0
      end
  | _ => Num 0
  end.

(** The expression a device stores whole for a symbol. *)
Definition stored (self : Device) (s : symbol) : expr :=
  match attrs self !! KStr (str s) with
  | Some (PExpr x) => x
  | _ => Num 0
  end.


(** Three generators at the buses [1], [0] and [1]: their parameter [bus]
    is a foreign key into [Bus], and the angle of the bus is imported as
    [a]. *)
Definition gens_at_buses : Device :=
  let d := setattr (base_device "Gen") "idx" (PList [PInt 0; PInt 1; PInt 2]) in
  let d := setattr d "_param_int" (PList [PStr "name"; PStr "u"; PStr "bus"]) in
  let d := setattr d "_foreign_keys" (PDict [(KStr "bus", PStr "Bus")]) in
  let d := setattr d "bus" (PList [PInt 1; PInt 0; PInt 1]) in
  setattr d "_algeb_ext" (PDict [(KStr "a", PList [PStr "bus"; PStr "a"])]).

(** Two generators, the second at a bus [7] that does not exist. *)
Definition gens_at_unknown_bus : Device :=
  setattr gens_at_buses "bus" (PList [PInt 0; PInt 7]).

(** Generators whose parameter [bus] was never declared a foreign key. *)
Definition gens_undeclared_key : Device :=
  setattr gens_at_buses "_foreign_keys" (PDict []).

(** A generator of two elements whose set point [v0] has one entry
    only. *)
Definition gen_short_v0 : Device :=
  let d := setattr (base_device "Gen") "idx" (PList [PInt 0; PInt 1]) in
  let d := setattr d "v" (PList [PExpr (sym "Gen_v_0"); PExpr (sym "Gen_v_1")]) in
  setattr d "v0" (PList [PExpr (sym "Gen_v0_0")]).

(** The generator [gen_two] holding a stale expansion of its equation. *)
Definition gen_two_stale : Device :=
  setattr gen_two "_gcall_int_symbolic" (PDict [(KStr "q", PStr "stale")]).

(** The template [-q]. *)
Definition minus_q : expr := App "Mul" [Num (-1); sym "q"].

(** A generator of two elements with its variable [q] and its equations
    as declared, none of them parsed yet. *)
Definition gen_declared : Device :=
  let d := setattr (base_device "Gen") "idx" (PList [PInt 0; PInt 1]) in
  let d := setattr d "v" (PList [PExpr (sym "Gen_v_0"); PExpr (sym "Gen_v_1")]) in
  let d := setattr d "v0" (PList [PExpr (sym "Gen_v0_0"); PExpr (sym "Gen_v0_1")]) in
  let d := setattr d "q" (PList [PExpr (sym "Gen_q_0"); PExpr (sym "Gen_q_1")]) in
  let d := setattr d "_algeb_int" (PList [PStr "q"]) in
  let d := setattr d "_gcall_int" (PDict [(KStr "q", PStr "v - v0")]) in
  setattr d "_gcall_ext" (PDict [(KStr "v", PStr "-q")]).

Definition gen_table : list (string * expr) :=
  [("v - v0"%string, v_minus_v0); ("-q"%string, minus_q)].

(** A line that declares the computed variable [w] by a bare equation
    string instead of a list. *)
Definition line_bare_computed : Device :=
  setattr (base_device "Line") "_var_int_computed" (PDict [(KStr "w", PStr "v")]).

(** A callable that refuses every argument. *)
Definition not_callable (f x : pyval) : result pyval := Raise TypeError.

(** A set of names iterated in the order its members were first met. *)
Definition name_set_iter_first (l : list key) : list key := l.

(** A generator of two elements before [_init_data]: the parameters
    [name], [u] and [v0], the variable [v] and the computed variable
    [w]. *)
Definition gen_bare : Device :=
  let d := setattr (base_device "Gen") "idx" (PList [PInt 0; PInt 1]) in
  let d := setattr d "_param_int" (PList [PStr "name"; PStr "u"; PStr "v0"]) in
  let d := setattr d "_algeb_int" (PList [PStr "v"]) in
  setattr d "_var_int_computed" (PDict [(KStr "w", PList [PStr "v"])]).
(** ** The methods of [DeviceBase] *)

Section Methods.

(** The order in which Python iterates over a set of symbols. *)
Variable set_iter : list symbol -> list symbol.

(** [smp.sympify], on the strings of the metadata and on the values handed
    to [subs]. *)
Variable sympify : pyval -> result expr.

(** [v.free_symbols], in the order the loops below visit it. *)
Definition py_free_symbols (v : pyval) : result (list symbol) :=
  match v with
  | PExpr e => Ok (set_iter (free_symbols e))
  | _ => Raise (AttributeError (type_name v) "free_symbols")
  end.

(** The pairs of a substitution, each new value sympified. *)
Definition sympify_pairs (sym_list : list (symbol * pyval)) : result (list (symbol * expr)) :=
  traverse (fun p => let* new := sympify (snd p) in Ok (fst p, new)) sym_list.

(** [v.subs(sym_list)] *)
Definition py_subs (v : pyval) (sym_list : list (symbol * pyval)) : result expr :=
  match v with
  | PExpr e =>
      let* sequence := sympify_pairs sym_list in
      Ok (subs e sequence)
  | _ => Raise (AttributeError (type_name v) "subs")
  end.

(** [v.subs(sym_list, simultaneous=True)] *)
Definition py_subs_simultaneous (v : pyval) (sym_list : list (symbol * pyval)) : result expr :=
  match v with
  | PExpr e =>
      let* sequence := sympify_pairs sym_list in
      Ok (subs_simultaneous e sequence)
  | _ => Raise (AttributeError (type_name v) "subs")
  end.

(** The lengths [_subs_all_vectorized] takes the minimum of. *)
Definition quantity_lengths (self : Device) (free_syms : list symbol) : result (list nat) :=
  traverse (fun x => let* q := dict_getitem self (PStr (str x)) in py_len q) free_syms.

(** The inner loop of [_subs_all_vectorized] for element [i]: the pairs
    [(symbol, self.__dict__[sym][i])], a quantity of length zero being
    skipped. *)
Fixpoint sym_list_at (self : Device) (i : nat) (free_syms : list symbol)
  : result (list (symbol * pyval)) :=
  match free_syms with
  | [] => Ok []
  | symbol :: rest =>
      let sym := str symbol in
      let* q := dict_getitem self (PStr sym) in
      let* len := py_len q in
      if (len =? 0)%nat then sym_list_at self i rest
      else
        let* q' := dict_getitem self (PStr sym) in
        let* item := py_getitem q' (PInt (Z.of_nat i)) in
        let* tail := sym_list_at self i rest in
        Ok ((symbol, item) :: tail)
  end.

(** [self._subs_all_vectorized(equation_singleton, return_as)] *)
Definition _subs_all_vectorized (self : Device) (equation_singleton : pyval)
    (return_as : return_type) : result pyval :=
  let* free_syms := py_free_symbols equation_singleton in
  let* lens := quantity_lengths self free_syms in
  let* n_element := py_min lens in
  let* ret := traverse (fun i =>
                let* sym_list := sym_list_at self i free_syms in
                py_subs equation_singleton sym_list) (seq 0 n_element) in
  let ret := PList (map PExpr ret) in
  match return_as with
  | AsNone => Ok ret
  | AsList => Ok ret
  | AsCall f => f ret
  end.

(** [self._subs_all_singleton(equation_singleton, return_as)] *)
Definition _subs_all_singleton (self : Device) (equation_singleton : pyval)
    (return_as : return_type) : result pyval :=
  let* free_syms := py_free_symbols equation_singleton in
  let* sym_list := traverse (fun symbol =>
                     let* q := dict_getitem self (PStr (str symbol)) in
                     Ok (symbol, q)) free_syms in
  let* ret := py_subs_simultaneous equation_singleton sym_list in
  match return_as with
  | AsNone => Ok (PExpr ret)
  | AsList => builtin_list (PExpr ret)
  | AsCall f => f (PExpr ret)
  end.

(** The body of the loop of [delayed_symbol_sub] for one item of the
    input dictionary. *)
Definition delayed_symbol_sub_item (out_dict_name : string) (subs_type : string)
    (output_type : return_type) (update : bool) (self : Device) (item : key * pyval)
  : result Device :=
  let var := fst item in
  let eq := snd item in
  let* present :=
    (if update then Ok false
     else let* out := dict_getitem self (PStr out_dict_name) in
          py_contains out (of_key var)) in
  if present then Ok self
  else
    let* value :=
      (if decide (subs_type = "vectorized")
       then _subs_all_vectorized self eq output_type
       else _subs_all_singleton self eq output_type) in
    let* out := dict_getitem self (PStr out_dict_name) in
    let* out' := py_setitem out (of_key var) value in
    Ok (dict_setitem self (KStr out_dict_name) out').

(** [self.delayed_symbol_sub(in_dict_name, out_dict_name, subs_type,
    output_type, update)] *)
Definition delayed_symbol_sub (self : Device) (in_dict_name out_dict_name : string)
    (subs_type : string) (output_type : return_type) (update : bool) : result Device :=
  if decide (subs_type ∈ ["vectorized"; "singleton"]) then
    let* singleton_dict := dict_getitem self (PStr in_dict_name) in
    let* items := py_items singleton_dict in
    for_each (delayed_symbol_sub_item out_dict_name subs_type output_type update) items self
  else Raise (AssertionError "").

(** [self.delayed_symbol_sub_all()] *)
Definition delayed_symbol_sub_all (self : Device) : result Device :=
  let* self := delayed_symbol_sub self "_gcall_ext_symbolic_singleton" "_gcall_ext_symbolic"
                 "vectorized" (AsCall smp_Array) false in
  delayed_symbol_sub self "_gcall_int_symbolic_singleton" "_gcall_int_symbolic"
    "vectorized" (AsCall smp_Array) false.

(** [self.idx2int(idx)] *)
Definition idx2int (self : Device) (idx : pyval) : result pyval :=
  let* ids := py_iter idx in
  let* rows := traverse (fun i =>
                 let* int := getattr self "_int" in
                 py_getitem int i) ids in
  Ok (np_array rows).

(** [self.create_n_default_elements(n)] *)
Definition create_n_default_elements (self : Device) (n : Z) : result Device :=
  if 0 <=? n then
    let ids := map Z.of_nat (seq 0 (Z.to_nat n)) in
    let self := setattr self "idx" (PList (map PInt ids)) in
    Ok (setattr self "_int" (PDict (map (fun i => (KInt i, PInt i)) ids)))
  else Raise (AssertionError "").

(** [self._check_number_of_algeb_equations()] *)
Definition _check_number_of_algeb_equations (self : Device) : result unit :=
  let* flags := getattr self "_special_flags" in
  let* flag := py_getitem flags (PStr "no_algeb_ext_check") in
  let* _ :=
    (if py_is_False flag then
       let* algeb_ext := getattr self "_algeb_ext" in
       let* n_ext := py_len algeb_ext in
       let* gcall_ext := getattr self "_gcall_ext" in
       let* n_gext := py_len gcall_ext in
       if (n_ext =? n_gext)%nat then Ok tt
       else Raise (AssertionError
                     (String.append (cls self) " Number of _algeb_ext does not equal _gcall_ext"))
     else Ok tt) in
  let* algeb_int := getattr self "_algeb_int" in
  let* n_int := py_len algeb_int in
  let* algeb_intf := getattr self "_algeb_intf" in
  let* n_intf := py_len algeb_intf in
  let* gcall_int := getattr self "_gcall_int" in
  let* n_gint := py_len gcall_int in
  if Z.of_nat n_int - Z.of_nat n_intf <=? Z.of_nat n_gint then Ok tt
  else Raise (AssertionError (String.append (cls self) " Too few gcall_int equations")).

(** [self.metadata_check()] *)
Definition metadata_check (self : Device) : result unit :=
  _check_number_of_algeb_equations self.

(** The body of the loop of [_compute_param_int] for one derived
    parameter. *)
Definition _compute_param_int_item (self : Device) (item : key * pyval) : result Device :=
  let var := fst item in
  let eq := snd item in
  let* equation_singleton := sympify eq in
  let* value := _subs_all_vectorized self (PExpr equation_singleton) AsList in
  Ok (dict_setitem self var value).

(** [self._compute_param_int()] *)
Definition _compute_param_int (self : Device) : result Device :=
  let* computed := getattr self "_param_int_computed" in
  let* len := py_len computed in
  if (0 <? len)%nat then
    let* computed := getattr self "_param_int_computed" in
    let* items := py_items computed in
    for_each _compute_param_int_item items self
  else Ok self.

(** *** Cross-device references

    [self.system.__dict__] is the registry [system], a map from lower-case
    device names to devices.  The device running a method is registered
    under [self_key]; what the method sees of the registry is [system]
    with the current state of [self] at that key. *)

(** [s.lower()] *)
Variable lower : string -> string.

(** [v.lower()] *)
Definition py_lower (v : pyval) : result string :=
  match v with
  | PStr s => Ok (lower s)
  | _ => Raise (AttributeError (type_name v) "lower")
  end.

Definition registry (system : gmap string Device) (self_key : string) (self : Device)
  : gmap string Device :=
  <[self_key := self]> system.

(** [self.system.__dict__[name]] *)
Definition system_getitem (system : gmap string Device) (self_key : string) (self : Device)
    (name : string) : result Device :=
  let* _ := getattr self "system" in
  match registry system self_key self !! name with
  | Some dev => Ok dev
  | None => Raise (KeyError (PStr name))
  end.

(** [x in d.values()] *)
Definition py_in_values (d x : pyval) : result bool :=
  match d with
  | PDict entries => Ok (existsb (fun p => py_eq (snd p) x) entries)
  | _ => Raise (AttributeError (type_name d) "values")
  end.

(** [self._get_int_of_element(dev, fkey)] *)
Definition _get_int_of_element (system : gmap string Device) (self_key : string)
    (self : Device) (dev fkey : pyval) : result pyval :=
  let* foreign_keys := getattr self "_foreign_keys" in
  let* known := py_in_values foreign_keys dev in
  if known then
    let* fkey_values := dict_getitem self fkey in
    let* dev_low := (let* _ := getattr self "system" in py_lower dev) in
    let* dev_ref := system_getitem system self_key self dev_low in
    idx2int dev_ref fkey_values
  else Raise (AssertionError "").

(** [self.get_list_of_symbols_from_ext(dev, var_name, int_idx)] *)
Definition get_list_of_symbols_from_ext (system : gmap string Device) (self_key : string)
    (self : Device) (dev var_name int_idx : pyval) : result (list pyval) :=
  let* dev := py_lower dev in
  let* int_idx := py_iter int_idx in
  traverse (fun i =>
    let* dev_ref := system_getitem system self_key self dev in
    let* q := dict_getitem dev_ref var_name in
    py_getitem q i) int_idx.

(** The body of the loop of [get_algeb_ext] for one import
    [dest: (fkey, var_name)]. *)
Definition get_algeb_ext_item (system : gmap string Device) (self_key : string)
    (self : Device) (item : key * pyval) : result Device :=
  let dest := fst item in
  let* pair := unpack2 (snd item) in
  let fkey := fst pair in
  let var_name := snd pair in
  let* param_int := getattr self "_param_int" in
  let* is_param := py_contains param_int fkey in
  let* link :=
    (if is_param then
       let* foreign_keys := getattr self "_foreign_keys" in
       let* dev := py_getitem foreign_keys fkey in
       let* int_keys := _get_int_of_element system self_key self dev fkey in
       Ok (dev, int_keys)
     else
       let dev := fkey in
       let* fkey_low := (let* _ := getattr self "system" in py_lower fkey) in
       let* fkey_ref := system_getitem system self_key self fkey_low in
       let* fkey_values := getattr fkey_ref "idx" in
       let* dev_low := (let* _ := getattr self "system" in py_lower dev) in
       let* dev_ref := system_getitem system self_key self dev_low in
       let* int_keys := idx2int dev_ref fkey_values in
       Ok (dev, int_keys)) in
  let dev := fst link in
  let int_keys := snd link in
  let* dev_low := (let* _ := getattr self "system" in py_lower dev) in
  let* dev_ref := system_getitem system self_key self dev_low in
  let* ref_address := getattr dev_ref "_dae_address" in
  let* var_label := py_fstring var_name in
  let* var_address := py_getitem ref_address (PStr var_label) in
  let* address := np_take var_address int_keys in
  let* own_address := getattr self "_dae_address" in
  let* dest_label := py_fstring (of_key dest) in
  let* own_address := py_setitem own_address (PStr dest_label) address in
  let self := setattr self "_dae_address" own_address in
  let* algeb_symbol_list :=
    get_list_of_symbols_from_ext system self_key self dev var_name int_keys in
  let* array := smp_Array (PList algeb_symbol_list) in
  let self := dict_setitem self dest array in
  let* singleton := smp_symbols var_name in
  let* own_singleton := getattr self "_symbol_singleton" in
  let* own_singleton := py_setitem own_singleton (of_key dest) singleton in
  Ok (setattr self "_symbol_singleton" own_singleton).

(** [self.get_algeb_ext()] *)
Definition get_algeb_ext (system : gmap string Device) (self_key : string) (self : Device)
  : result Device :=
  let* algeb_ext := getattr self "_algeb_ext" in
  let* len := py_len algeb_ext in
  if (0 <? len)%nat then
    let* algeb_ext := getattr self "_algeb_ext" in
    let* items := py_items algeb_ext in
    for_each (get_algeb_ext_item system self_key) items self
  else Ok self.


(** *** Symbolic equations *)

(** The body of the loops of [make_gcall_ext_symbolic] and
    [make_gcall_int_symbolic]: [self.<out>[var] = smp.sympify(eq)]. *)
Definition make_gcall_symbolic_item (out_name : string) (self : Device)
    (item : key * pyval) : result Device :=
  let var := fst item in
  let eq := snd item in
  let* equation_singleton := sympify eq in
  let* out := getattr self out_name in
  let* out := py_setitem out (of_key var) (PExpr equation_singleton) in
  Ok (setattr self out_name out).

(** [self.make_gcall_ext_symbolic()] *)
Definition make_gcall_ext_symbolic (self : Device) : result Device :=
  let* gcall := getattr self "_gcall_ext" in
  let* items := py_items gcall in
  for_each (make_gcall_symbolic_item "_gcall_ext_symbolic_singleton") items self.

(** [self.make_gcall_int_symbolic()] *)
Definition make_gcall_int_symbolic (self : Device) : result Device :=
  let* gcall := getattr self "_gcall_int" in
  let* items := py_items gcall in
  for_each (make_gcall_symbolic_item "_gcall_int_symbolic_singleton") items self.

(** *** Computed variables *)

(** [non_commutative_sympify] of [dian.utils], which is not among the
    sources: a parameter. *)
Variable non_commutative_sympify : pyval -> result expr.

(** [f(x)] for a Python object [f]. *)
Variable py_call : pyval -> pyval -> result pyval.

(** [v == s] for a string [s]. *)
Definition py_eq_str (v : pyval) (s : string) : bool :=
  match v with
  | PStr t => bool_decide (t = s)
  | _ => false
  end.

(** The equation, the compute type and the return type an entry of
    [_var_int_computed] declares.  [PList] is a Python list here. *)
Definition unpack_computed (eq : pyval) : result (pyval * pyval * pyval) :=
  match eq with
  | PList [eq; compute_type; return_type] => Ok (eq, compute_type, return_type)
  | PList [eq; compute_type] => Ok (eq, compute_type, PNone)
  | PList [eq] => Ok (eq, PStr "vectorized", PNone)
  | _ => Raise NotImplementedError
  end.

(** The body of the loop of [_compute_variable] for one variable. *)
Definition _compute_variable_item (self : Device) (item : key * pyval) : result Device :=
  let var := fst item in
  let* decl := unpack_computed (snd item) in
  let eq := fst (fst decl) in
  let compute_type := snd (fst decl) in
  let return_type := snd decl in
  let* equation_singleton := non_commutative_sympify eq in
  let* self :=
    (if py_eq_str compute_type "vectorized" then
       let* value := _subs_all_vectorized self (PExpr equation_singleton) (AsCall smp_Array) in
       Ok (dict_setitem self var value)
     else if py_eq_str compute_type "singleton" then
       let* value := _subs_all_singleton self (PExpr equation_singleton) AsNone in
       Ok (dict_setitem self var value)
     else Raise NotImplementedError) in
  match return_type with
  | PNone => Ok self
  | _ =>
      let* value := dict_getitem self (of_key var) in
      let* value := py_call return_type value in
      Ok (dict_setitem self var value)
  end.

(** [self._compute_variable()] *)
Definition _compute_variable (self : Device) : result Device :=
  let* computed := getattr self "_var_int_computed" in
  let* len := py_len computed in
  if (0 <? len)%nat then
    let* computed := getattr self "_var_int_computed" in
    let* items := py_items computed in
    for_each _compute_variable_item items self
  else Ok self.

(** [self._compute_variable_custom()] and [self._compute_param_custom()]:
    the hooks do nothing. *)
Definition _compute_variable_custom (self : Device) : result Device := Ok self.

Definition _compute_param_custom (self : Device) : result Device := Ok self.

(** *** Equation storage *)

(** [a + b] *)
Definition py_add (a b : pyval) : result pyval :=
  match a, b with
  | PList x, PList y => Ok (PList (x ++ y))
  | PStr x, PStr y => Ok (PStr (String.append x y))
  | PInt x, PInt y => Ok (PInt (x + y))
  | _, _ => Raise TypeError
  end.

(** [MutableDenseNDimArray([0] * n)]: the array keeps the integers it is
    given. *)
Definition zeros (n : Z) : pyval := PList (replicate (Z.to_nat n) (PInt 0)).

(** The body of the loop of [_init_equation]. *)
Definition _init_equation_item (self : Device) (item : pyval) : result Device :=
  let* label := py_fstring item in
  let eq_name := String.append "_" label in
  let* count := n self in
  Ok (dict_setitem self (KStr eq_name) (zeros (Z.of_nat count))).

(** [self._init_equation()] *)
Definition _init_equation (self : Device) : result Device :=
  let* algeb_int := getattr self "_algeb_int" in
  let* algeb_intf := getattr self "_algeb_intf" in
  let* both := py_add algeb_int algeb_intf in
  let* state_int := getattr self "_state_int" in
  let* all := py_add both state_int in
  let* items := py_iter all in
  for_each _init_equation_item items self.

(** *** Symbols of the elements *)

(** The order in which Python iterates over a set of names. *)
Variable name_set_iter : list key -> list key.

(** [set(v)] of names and integers, in the order of first occurrence.
    An unhashable item raises [TypeError]; the metadata holds names, and
    any other item is outside the model and raises [TypeError] here. *)
Definition py_set (v : pyval) : result (list key) :=
  let* items := py_iter v in
  let* keys := traverse (fun it => match as_key it with
                                   | Some k => Ok k
                                   | None => Raise TypeError
                                   end) items in
  Ok (remove_dups keys).

(** [v.keys()], as the list it yields. *)
Definition py_keys (v : pyval) : result (list pyval) :=
  match v with
  | PDict entries => Ok (map (fun p => of_key (fst p)) entries)
  | _ => Raise (AttributeError (type_name v) "keys")
  end.

(** [smp.symbols(v, commutative=c)] of one plain name. *)
Definition smp_symbols_commutative (c : bool) (v : pyval) : result pyval :=
  match v with
  | PStr s => Ok (PExpr (Sym (Symbol s c)))
  | _ => Raise TypeError
  end.

(** [MutableDenseNDimArray(smp.symbols(prefix + f'0:{count}'))]: the
    symbols [prefix0], [prefix1], ... up to [count], for [count >= 1]. *)
Definition symbol_array (prefix : string) (count : nat) : pyval :=
  PList (map (fun i => PExpr (Sym (Symbol (String.append prefix (pretty i)) true)))
           (seq 0 count)).

(** The body of the loops of [_init_data]: the array of element symbols
    and the singleton of [item]. *)
Definition _init_data_item (commutative : bool) (self : Device) (item : pyval)
  : result Device :=
  let* label := py_fstring item in
  let* count := n self in
  let array :=
    symbol_array (String.append (cls self) (String.append "_" (String.append label "_")))
      count in
  let self := dict_setitem self (KStr label) array in
  let* singleton := smp_symbols_commutative commutative item in
  let* own := getattr self "_symbol_singleton" in
  let* own := py_setitem own item singleton in
  Ok (setattr self "_symbol_singleton" own).

(** [set(self._param_int) - set(self._param_int_non_computational)], as
    the loop over it visits it. *)
Definition param_int_computational (self : Device) : result (list pyval) :=
  let* param_int := getattr self "_param_int" in
  let* a := py_set param_int in
  let* non_computational := getattr self "_param_int_non_computational" in
  let* b := py_set non_computational in
  Ok (map of_key (name_set_iter (filter (fun k => k ∉ b) a))).

(** One block of [_init_data]: [if len(self.attr): for item in ...]. *)
Definition _init_data_names (commutative : bool) (attr : string)
    (iter : pyval -> result (list pyval)) (self : Device) : result Device :=
  let* v := getattr self attr in
  let* len := py_len v in
  if (0 <? len)%nat then
    let* v := getattr self attr in
    let* items := iter v in
    for_each (_init_data_item commutative) items self
  else Ok self.

(** [self._init_data()], with the value it returns: [False] for a device
    without elements, [None] otherwise. *)
Definition _init_data (self : Device) : result (Device * pyval) :=
  let* count := n self in
  if (count =? 0)%nat then Ok (self, PBool false)
  else
    let* computational := param_int_computational self in
    let* self :=
      (if (0 <? length computational)%nat
       then for_each (_init_data_item true) computational self
       else Ok self) in
    let* self := _init_data_names true "_param_int_computed" py_keys self in
    let* self := _init_data_names true "_param_int_custom" py_iter self in
    let* self := _init_data_names true "_algeb_int" py_iter self in
    let* self := _init_data_names false "_var_int_computed" py_iter self in
    let* self := _init_data_names true "_state_int" py_iter self in
    Ok (self, PNone).

(** *** Statements about expansion *)

(** Every free symbol of the template [e] names a stored array of [m]
    entries, the [i]-th of which [sympify] reads as [val s i]. *)
Definition elementwise_quantities (self : Device) (e : expr) (m : nat)
    (val : symbol -> nat -> expr) : Prop :=
  forall s, s ∈ free_symbols e ->
    exists items,
      attrs self !! KStr (str s) = Some (PList items) /\
      length items = m /\
      forall i, (i < m)%nat ->
        exists it, items !! i = Some it /\ sympify it = Ok (val s i).

(** No per-element value mentions a symbol of the template. *)
Definition values_concrete (e : expr) (m : nat) (val : symbol -> nat -> expr) : Prop :=
  forall s t i, s ∈ free_symbols e -> t ∈ free_symbols e -> (i < m)%nat ->
    t ∉ symbols_of (val s i).

(** The row an external idx has in the mapping [int] of a device: the
    value under the key it is equal to. *)
Definition row_of (int : list (key * pyval)) (i r : pyval) : Prop :=
  exists k, as_key i = Some k /\ dict_lookup int k = Some r.

(** [self1] holds under [k] the value that the pass over [pre], started
    from [self], computed for [k]. *)
Definition freshly_computed (self : Device) (pre : list (key * pyval)) (k : key)
    (self1 : Device) : Prop :=
  exists before eqk after d e value,
    pre = before ++ (k, eqk) :: after /\
    for_each _compute_param_int_item before self = Ok d /\
    sympify eqk = Ok e /\
    _subs_all_vectorized d (PExpr e) AsList = Ok value /\
    attrs self1 !! k = Some value.


(** *** Statements about the symbols of the elements *)

(** The attributes [_init_data] reads. *)
Definition init_data_reads : list string :=
  [ "idx"; "_param_int"; "_param_int_non_computational"; "_param_int_computed";
    "_param_int_custom"; "_algeb_int"; "_var_int_computed"; "_state_int";
    "_symbol_singleton" ]%string.

(** The names [_init_data] gives symbols to, block by block. *)
Definition init_data_names (params noncomp computed custom algeb varcomp state : list string)
  : list string :=
  filter (fun x => x ∉ noncomp) params ++ computed ++ custom ++ algeb ++ varcomp ++ state.

(** The device holds under [x] the element symbols [C_x_0], [C_x_1], ...
    of class [C], and for [x] the singleton symbol [x], commutative or not
    as [c] says. *)
Definition element_symbols (self : Device) (C : string) (count : nat) (x : string) (c : bool)
  : Prop :=
  attrs self !! KStr x
  = Some (symbol_array (String.append C (String.append "_" (String.append x "_"))) count) /\
  exists sing,
    attrs self !! KStr "_symbol_singleton" = Some (PDict sing) /\
    dict_lookup sing (KStr x) = Some (PExpr (Sym (Symbol x c))).

(** The loops of [_init_data] laid end to end: each name with the
    commutativity of its block. *)
Definition _init_data_items (pairs : list (bool * string)) (self : Device) : result Device :=
  for_each (fun s p => _init_data_item (fst p) s (PStr (snd p))) pairs self.

(** The commutativity of the last block that names [x]. *)
Fixpoint last_commutative (pairs : list (bool * string)) (x : string) : option bool :=
  match pairs with
  | [] => None
  | (c, y) :: rest =>
      match last_commutative rest x with
      | Some c' => Some c'
      | None => if decide (y = x) then Some c else None
      end
  end.

(** The name a key is. *)
Definition key_name (k : key) : string :=
  match k with
  | KStr s => s
  | KInt _ => EmptyString
  end.
(** ** Properties *)

(** *** The error monad *)

Lemma bind_Ok {A B : Type} (c : result A) (k : A -> result B) (b : B) :
  bind c k = Ok b <-> exists a, c = Ok a /\ k a = Ok b.
Proof.
  destruct c as [a|e]; simpl; split.
  - intros H. exists a. split; [reflexivity | exact H].
  - intros (a' & Ha & Hk). injection Ha as ->. exact Hk.
  - discriminate.
  - intros (a' & Ha & _). discriminate.
Qed.

Lemma traverse_app {A B : Type} (f : A -> result B) (l1 l2 : list A) :
  traverse f (l1 ++ l2) =
  let* ys1 := traverse f l1 in
  let* ys2 := traverse f l2 in
  Ok (ys1 ++ ys2).
Proof.
  induction l1 as [|x l1 IH]; simpl.
  - destruct (traverse f l2); reflexivity.
  - destruct (f x) as [y|e]; simpl; [|reflexivity].
    rewrite IH. destruct (traverse f l1) as [ys1|e]; simpl; [|reflexivity].
    destruct (traverse f l2); reflexivity.
Qed.

Lemma traverse_Ok_Forall2 {A B : Type} (f : A -> result B) (l : list A) (ys : list B) :
  traverse f l = Ok ys <-> Forall2 (fun x y => f x = Ok y) l ys.
Proof.
  revert ys. induction l as [|x l IH]; intros ys; simpl.
  - split.
    + intros [= <-]. constructor.
    + intros H. inversion H. reflexivity.
  - split.
    + intros H. apply bind_Ok in H as (y & Hy & H).
      apply bind_Ok in H as (ys' & Hys & [= <-]).
      constructor; [exact Hy | apply IH, Hys].
    + intros H. inversion H as [|? y ? ys' Hy Hys]; subst.
      rewrite Hy. simpl. apply IH in Hys. rewrite Hys. reflexivity.
Qed.

(** The first element on which the body raises decides the exception of
    the comprehension. *)
Lemma traverse_Raise {A B : Type} (f : A -> result B) (pre post : list A) (x : A)
    (ys : list B) (e : exc) :
  traverse f pre = Ok ys ->
  f x = Raise e ->
  traverse f (pre ++ x :: post) = Raise e.
Proof.
  intros Hpre Hx. rewrite traverse_app, Hpre. simpl. rewrite Hx. reflexivity.
Qed.

(** *** Attribute access *)

Lemma getattr_instance (self : Device) (attr : string) (v : pyval) :
  attr <> "n"%string ->
  attrs self !! KStr attr = Some v ->
  getattr self attr = Ok v.
Proof.
  intros Hn Hv. unfold getattr.
  destruct (decide (attr = "n"%string)) as [Heq|_]; [contradiction|].
  rewrite Hv. reflexivity.
Qed.

Lemma getattr_missing (self : Device) (attr : string) :
  attr <> "n"%string ->
  attrs self !! KStr attr = None ->
  attr ∉ class_attributes ->
  getattr self attr = Raise (AttributeError (cls self) attr).
Proof.
  intros Hn Hv Hc. unfold getattr.
  destruct (decide (attr = "n"%string)) as [Heq|_]; [contradiction|].
  rewrite Hv.
  destruct (decide (attr ∈ class_attributes)) as [Hin|_]; [contradiction|].
  reflexivity.
Qed.

Lemma setattr_lookup_ne (self : Device) (a b : string) (v : pyval) :
  a <> b ->
  attrs (setattr self a v) !! KStr b = attrs self !! KStr b.
Proof.
  intros Hab. unfold setattr, dict_setitem. cbn [attrs].
  apply lookup_insert_ne. congruence.
Qed.

Lemma setattr_lookup_eq (self : Device) (a : string) (v : pyval) :
  attrs (setattr self a v) !! KStr a = Some v.
Proof.
  unfold setattr, dict_setitem. cbn [attrs]. apply lookup_insert_eq.
Qed.

Lemma attr_extend_list (self : Device) (attr : string) (items more : list pyval) :
  getattr self attr = Ok (PList items) ->
  attr_extend self attr more = Ok (setattr self attr (PList (items ++ more))).
Proof.
  intros H. unfold attr_extend. rewrite H. reflexivity.
Qed.

(** *** Construction of [PV] and [Slack] *)

(** What [DeviceBase.__init__] leaves in the instance dictionary. *)
Lemma DeviceBase_init_keys (self : Device) (system : pyval) :
  attrs self = ∅ ->
  exists self',
    DeviceBase.__init__ self system = Ok self' /\
    cls self' = cls self /\
    attrs self' !! KStr "_param_int_mandatory" = None /\
    attrs self' !! KStr "_param_int" = Some (PList [PStr "name"; PStr "u"]) /\
    attrs self' !! KStr "_param_int_non_computational" = Some (PList [PStr "name"]).
Proof.
  intros Hempty. eexists. split; [reflexivity|].
  cbn [cls attrs setattr dict_setitem]. rewrite Hempty.
  split; [reflexivity|].
  repeat split; vm_compute; reflexivity.
Qed.

Lemma mandatory_not_class_attribute :
  "_param_int_mandatory"%string ∉ class_attributes.
Proof.
  intros Hin. unfold class_attributes in Hin.
  repeat (apply elem_of_cons in Hin as [Hin|Hin]; [discriminate Hin|]).
  inversion Hin.
Qed.

(** [PV.__init__] on a fresh instance of any class stops at its third
    statement. *)
Lemma PV_init_raises (self : Device) (system : pyval) :
  attrs self = ∅ ->
  PV.__init__ self system = Raise (AttributeError (cls self) "_param_int_mandatory").
Proof.
  intros Hempty. unfold PV.__init__.
  destruct (DeviceBase_init_keys self system Hempty)
    as (self' & -> & Hcls & Hmand & Hpi & Hnc).
  cbn [bind].
  rewrite (attr_extend_list self' "_param_int" [PStr "name"; PStr "u"])
    by (apply getattr_instance; [discriminate | exact Hpi]).
  cbn [bind].
  rewrite (attr_extend_list _ "_param_int_non_computational" [PStr "name"])
    by (apply getattr_instance;
        [discriminate | rewrite setattr_lookup_ne by discriminate; exact Hnc]).
  cbn [bind].
  unfold attr_extend at 1.
  rewrite getattr_missing.
  - cbn [bind]. rewrite <- Hcls. reflexivity.
  - discriminate.
  - rewrite !setattr_lookup_ne by discriminate. exact Hmand.
  - exact mandatory_not_class_attribute.
Qed.

(** C9.  For every system argument, constructing a [PV] device, and so a
    [Slack] device, raises [AttributeError] on [_param_int_mandatory],
    which [DeviceBase.__init__] never creates: no construction returns an
    instance. *)
Theorem PV_Slack_construction_fails (system : pyval) :
  construct_PV system = Raise (AttributeError "PV" "_param_int_mandatory") /\
  construct_Slack system = Raise (AttributeError "Slack" "_param_int_mandatory") /\
  (forall d, construct_PV system <> Ok d) /\
  (forall d, construct_Slack system <> Ok d).
Proof.
  assert (HPV : construct_PV system = Raise (AttributeError "PV" "_param_int_mandatory")).
  { unfold construct_PV. rewrite PV_init_raises; reflexivity. }
  assert (HSl : construct_Slack system = Raise (AttributeError "Slack" "_param_int_mandatory")).
  { unfold construct_Slack, Slack.__init__. rewrite PV_init_raises; reflexivity. }
  split; [exact HPV|]. split; [exact HSl|]. split.
  - intros d Hd. rewrite HPV in Hd. discriminate Hd.
  - intros d Hd. rewrite HSl in Hd. discriminate Hd.
Qed.

(** *** The consistency check *)

Lemma attr_len_inv (self : Device) (attr : string) (k : nat) :
  attr_len self attr = Ok k ->
  exists v, getattr self attr = Ok v /\ py_len v = Ok k.
Proof. unfold attr_len. intros H. apply bind_Ok in H. exact H. Qed.

(** C3, as the code has it.  [metadata_check] succeeds exactly when both
    counts agree: unless [no_algeb_ext_check] exempts the device,
    [_algeb_ext] and [_gcall_ext] have the same length, and
    [len(_algeb_int) - len(_algeb_intf) <= len(_gcall_int)].  Otherwise the
    first failing [assert] raises [AssertionError] with a message made of
    the class name and a fixed text. *)
Theorem metadata_check_requires_both_counts (self : Device) (flags flag : pyval)
    (n_ext n_gext n_int n_intf n_gint : nat) :
  getattr self "_special_flags" = Ok flags ->
  py_getitem flags (PStr "no_algeb_ext_check") = Ok flag ->
  attr_len self "_algeb_ext" = Ok n_ext ->
  attr_len self "_gcall_ext" = Ok n_gext ->
  attr_len self "_algeb_int" = Ok n_int ->
  attr_len self "_algeb_intf" = Ok n_intf ->
  attr_len self "_gcall_int" = Ok n_gint ->
  metadata_check self =
    if py_is_False flag && negb (n_ext =? n_gext)%nat then
      Raise (AssertionError
               (String.append (cls self) " Number of _algeb_ext does not equal _gcall_ext"))
    else if Z.of_nat n_int - Z.of_nat n_intf <=? Z.of_nat n_gint then Ok tt
    else Raise (AssertionError (String.append (cls self) " Too few gcall_int equations")).
Proof.
  intros Hflags Hflag Hext Hgext Hint Hintf Hgint.
  apply attr_len_inv in Hext as (v1 & Hv1 & Hl1).
  apply attr_len_inv in Hgext as (v2 & Hv2 & Hl2).
  apply attr_len_inv in Hint as (v3 & Hv3 & Hl3).
  apply attr_len_inv in Hintf as (v4 & Hv4 & Hl4).
  apply attr_len_inv in Hgint as (v5 & Hv5 & Hl5).
  unfold metadata_check, _check_number_of_algeb_equations.
  rewrite Hflags. cbn [bind]. rewrite Hflag. cbn [bind].
  destruct (py_is_False flag).
  - rewrite Hv1. cbn [bind]. rewrite Hl1. cbn [bind].
    rewrite Hv2. cbn [bind]. rewrite Hl2. cbn [bind].
    destruct (n_ext =? n_gext)%nat; cbn [bind andb negb]; [|reflexivity].
    rewrite Hv3. cbn [bind]. rewrite Hl3. cbn [bind].
    rewrite Hv4. cbn [bind]. rewrite Hl4. cbn [bind].
    rewrite Hv5. cbn [bind]. rewrite Hl5. cbn [bind]. reflexivity.
  - cbn [bind andb].
    rewrite Hv3. cbn [bind]. rewrite Hl3. cbn [bind].
    rewrite Hv4. cbn [bind]. rewrite Hl4. cbn [bind].
    rewrite Hv5. cbn [bind]. rewrite Hl5. cbn [bind]. reflexivity.
Qed.

(** *** [idx2int] *)

Lemma py_getitem_dict_Ok (int : list (key * pyval)) (i r : pyval) :
  py_getitem (PDict int) i = Ok r <-> row_of int i r.
Proof.
  unfold row_of. cbn [py_getitem]. split.
  - destruct (as_key i) as [k|] eqn:Hk.
    + destruct (dict_lookup int k) as [x|] eqn:Hx; [|discriminate].
      intros [= <-]. exists k. split; [reflexivity | exact Hx].
    + destruct (hashable i); discriminate.
  - intros (k & -> & ->). reflexivity.
Qed.

Lemma py_getitem_dict_KeyError (int : list (key * pyval)) (i : pyval) :
  hashable i = true ->
  (forall r, ~ row_of int i r) ->
  py_getitem (PDict int) i = Raise (KeyError i).
Proof.
  intros Hh Hno. cbn [py_getitem].
  destruct (as_key i) as [k|] eqn:Hk.
  - destruct (dict_lookup int k) as [x|] eqn:Hx; [|reflexivity].
    exfalso. apply (Hno x). exists k. split; [exact Hk | exact Hx].
  - rewrite Hh. reflexivity.
Qed.

(** C5.  [idx2int] returns the rows of the identifiers, in their order,
    exactly when every identifier is a key of [_int]; at the first
    identifier that is not, it raises [KeyError] carrying that identifier.
    No row is ever made up. *)
Theorem idx2int_rows_or_KeyError (self : Device) (int : list (key * pyval))
    (ids : list pyval) :
  getattr self "_int" = Ok (PDict int) ->
  (forall rows,
      idx2int self (PList ids) = Ok rows <->
      exists rs, rows = PList rs /\ Forall2 (row_of int) ids rs) /\
  (forall pre i post,
      ids = pre ++ i :: post ->
      Forall (fun x => exists r, row_of int x r) pre ->
      hashable i = true ->
      (forall r, ~ row_of int i r) ->
      idx2int self (PList ids) = Raise (KeyError i)).
Proof.
  intros Hint.
  set (f := fun i : pyval => let* int := getattr self "_int" in py_getitem int i).
  assert (Hf : forall i, f i = py_getitem (PDict int) i).
  { intros i. unfold f. rewrite Hint. reflexivity. }
  assert (Hrun : idx2int self (PList ids) =
                 let* rows := traverse f ids in Ok (np_array rows)) by reflexivity.
  split.
  - intros rows. rewrite Hrun. split.
    + intros H. apply bind_Ok in H as (rs & Hrs & [= <-]).
      exists rs. split; [reflexivity|].
      apply traverse_Ok_Forall2 in Hrs.
      eapply Forall2_impl; [exact Hrs|].
      intros i r Hir. cbn beta in Hir. rewrite Hf in Hir.
      apply py_getitem_dict_Ok, Hir.
    + intros (rs & -> & Hall).
      assert (Hrs : traverse f ids = Ok rs).
      { apply traverse_Ok_Forall2.
        eapply Forall2_impl; [exact Hall|].
        intros i r Hir. cbn beta. rewrite Hf. apply py_getitem_dict_Ok, Hir. }
      rewrite Hrs. reflexivity.
  - intros pre i post -> Hpre Hh Hno. rewrite Hrun.
    assert (Hok : exists rs, traverse f pre = Ok rs).
    { clear -Hpre Hf. induction Hpre as [|x pre (r & Hr) _ (rs & IH)].
      - exists []. reflexivity.
      - exists (r :: rs). cbn [traverse]. rewrite Hf.
        apply py_getitem_dict_Ok in Hr. rewrite Hr. cbn [bind]. rewrite IH. reflexivity. }
    destruct Hok as (rs & Hrs).
    rewrite (traverse_Raise f pre post i rs (KeyError i) Hrs); [reflexivity|].
    rewrite Hf. apply py_getitem_dict_KeyError; assumption.
Qed.

(** *** Substitution on expressions *)

Lemma expr_ind_nested (P : expr -> Prop) :
  (forall s, P (Sym s)) ->
  (forall z, P (Num z)) ->
  (forall h args, Forall P args -> P (App h args)) ->
  forall e, P e.
Proof.
  intros HS HN HA. fix IH 1. intros [s|z|h args].
  - apply HS.
  - apply HN.
  - apply HA. induction args as [|a args IHargs].
    + constructor.
    + constructor; [apply IH | exact IHargs].
Qed.

Lemma elem_of_symbols_of_App (h : string) (args : list expr) (s : symbol) :
  s ∈ symbols_of (App h args) <-> exists a, a ∈ args /\ s ∈ symbols_of a.
Proof.
  cbn [symbols_of]. rewrite list_elem_of_In, in_flat_map.
  split; intros (a & Ha & Hs); exists a.
  - split; [apply list_elem_of_In, Ha | apply list_elem_of_In, Hs].
  - split; [apply list_elem_of_In, Ha | apply list_elem_of_In, Hs].
Qed.

Lemma elem_of_free_symbols (e : expr) (s : symbol) :
  s ∈ free_symbols e <-> s ∈ symbols_of e.
Proof. unfold free_symbols. apply elem_of_remove_dups. Qed.

Lemma substitute_ext (sigma tau : symbol -> expr) (e : expr) :
  (forall s, s ∈ symbols_of e -> sigma s = tau s) ->
  substitute sigma e = substitute tau e.
Proof.
  induction e as [s|z|h args IH] using expr_ind_nested; intros Hst.
  - cbn [substitute]. apply Hst. cbn [symbols_of]. apply list_elem_of_singleton. reflexivity.
  - reflexivity.
  - cbn [substitute]. f_equal. apply map_ext_in. intros a Ha.
    apply list_elem_of_In in Ha.
    rewrite Forall_forall in IH. apply IH; [exact Ha|].
    intros s Hs. apply Hst. apply elem_of_symbols_of_App. exists a. split; assumption.
Qed.

Lemma substitute_id (sigma : symbol -> expr) (e : expr) :
  (forall s, s ∈ symbols_of e -> sigma s = Sym s) ->
  substitute sigma e = e.
Proof.
  induction e as [s|z|h args IH] using expr_ind_nested; intros Hid.
  - cbn [substitute]. apply Hid. cbn [symbols_of]. apply list_elem_of_singleton. reflexivity.
  - reflexivity.
  - cbn [substitute]. f_equal. rewrite <- (map_id args) at 2.
    apply map_ext_in. intros a Ha. apply list_elem_of_In in Ha.
    rewrite Forall_forall in IH. apply IH; [exact Ha|].
    intros s Hs. apply Hid. apply elem_of_symbols_of_App. exists a. split; assumption.
Qed.

Lemma substitute_compose (sigma tau : symbol -> expr) (e : expr) :
  substitute tau (substitute sigma e) = substitute (fun s => substitute tau (sigma s)) e.
Proof.
  induction e as [s|z|h args IH] using expr_ind_nested.
  - reflexivity.
  - reflexivity.
  - cbn [substitute]. f_equal. rewrite map_map.
    apply map_ext_in. intros a Ha. apply list_elem_of_In in Ha.
    rewrite Forall_forall in IH. apply IH, Ha.
Qed.

Lemma subst1_substitute (old : symbol) (new : expr) (e : expr) :
  subst1 old new e = substitute (fun s => if decide (s = old) then new else Sym s) e.
Proof.
  induction e as [s|z|h args IH] using expr_ind_nested.
  - reflexivity.
  - reflexivity.
  - cbn [subst1 substitute]. f_equal.
    apply map_ext_in. intros a Ha. apply list_elem_of_In in Ha.
    rewrite Forall_forall in IH. apply IH, Ha.
Qed.

Lemma elem_of_symbols_of_substitute (sigma : symbol -> expr) (e : expr) (s : symbol) :
  s ∈ symbols_of (substitute sigma e) <->
  exists t, t ∈ symbols_of e /\ s ∈ symbols_of (sigma t).
Proof.
  induction e as [t|z|h args IH] using expr_ind_nested.
  - cbn [substitute symbols_of]. split.
    + intros Hs. exists t. split; [apply list_elem_of_singleton; reflexivity | exact Hs].
    + intros (t' & Ht' & Hs). apply list_elem_of_singleton in Ht'. subst t'. exact Hs.
  - cbn [substitute symbols_of]. split.
    + intros Hs. inversion Hs.
    + intros (t & Ht & _). inversion Ht.
  - cbn [substitute]. rewrite elem_of_symbols_of_App. rewrite Forall_forall in IH. split.
    + intros (a' & Ha' & Hs). apply list_elem_of_In, in_map_iff in Ha' as (a & <- & Ha).
      apply list_elem_of_In in Ha. apply (IH a Ha) in Hs as (t & Ht & Hs).
      exists t. split; [|exact Hs]. apply elem_of_symbols_of_App. exists a. split; assumption.
    + intros (t & Ht & Hs). apply elem_of_symbols_of_App in Ht as (a & Ha & Ht).
      exists (substitute sigma a). split.
      * apply list_elem_of_In, in_map, list_elem_of_In, Ha.
      * apply (IH a Ha). exists t. split; assumption.
Qed.

Lemma subs_simultaneous_substitute (e : expr) (reps : list (symbol * expr)) :
  subs_simultaneous e reps = substitute (bindings reps) e.
Proof.
  induction e as [s|z|h args IH] using expr_ind_nested.
  - reflexivity.
  - reflexivity.
  - cbn [subs_simultaneous substitute]. f_equal.
    apply map_ext_in. intros a Ha. apply list_elem_of_In in Ha.
    rewrite Forall_forall in IH. apply IH, Ha.
Qed.

Lemma bindings_not_key (reps : list (symbol * expr)) (s : symbol) :
  s ∉ reps.*1 -> bindings reps s = Sym s.
Proof.
  unfold bindings. induction reps as [|[old new] rest IH]; intros Hs.
  - reflexivity.
  - cbn [rep_lookup]. destruct (decide (old = s)) as [->|Hne].
    + exfalso. apply Hs. cbn. apply elem_of_cons. left. reflexivity.
    + apply IH. intros Hin. apply Hs. cbn. apply elem_of_cons. right. exact Hin.
Qed.

(** One replacement after the other is the simultaneous substitution when
    no new value mentions a symbol that is replaced. *)
Lemma subs_substitute (e : expr) (sequence : list (symbol * expr)) :
  (forall x v y, (x, v) ∈ sequence -> y ∈ sequence.*1 -> y ∉ symbols_of v) ->
  subs e sequence = substitute (bindings sequence) e.
Proof.
  revert e. induction sequence as [|[x v] rest IH]; intros e Hfree.
  - cbn. symmetry. apply substitute_id. intros s _. reflexivity.
  - unfold subs. cbn [fold_left fst snd]. fold (subs (subst1 x v e) rest).
    rewrite IH.
    + rewrite subst1_substitute, substitute_compose.
      apply substitute_ext. intros s _. cbn beta.
      unfold bindings at 2. cbn [rep_lookup].
      destruct (decide (s = x)) as [->|Hne].
      * destruct (decide (x = x)) as [_|Hxx]; [|contradiction].
        apply substitute_id. intros t Ht. apply bindings_not_key.
        intros Hin. apply (Hfree x v t).
        -- apply elem_of_cons. left. reflexivity.
        -- cbn. apply elem_of_cons. right. exact Hin.
        -- exact Ht.
      * destruct (decide (x = s)) as [Heq|_]; [congruence|]. reflexivity.
    + intros x' v' y Hin Hy. apply (Hfree x' v' y).
      * apply elem_of_cons. right. exact Hin.
      * cbn. apply elem_of_cons. right. exact Hy.
Qed.

(** *** Vectorized expansion *)

(** A Python set has each member once, in some order. *)
Hypothesis set_iter_perm : forall l, set_iter l ≡ₚ l.

Lemma elem_of_set_iter (e : expr) (s : symbol) :
  s ∈ set_iter (free_symbols e) <-> s ∈ symbols_of e.
Proof. rewrite (set_iter_perm (free_symbols e)). apply elem_of_free_symbols. Qed.

Lemma traverse_map {A B : Type} (f : A -> result B) (g : A -> B) (l : list A) :
  (forall x, x ∈ l -> f x = Ok (g x)) ->
  traverse f l = Ok (map g l).
Proof.
  induction l as [|x l IH]; intros Hfg.
  - reflexivity.
  - cbn [traverse map]. rewrite Hfg by (apply elem_of_cons; left; reflexivity).
    cbn [bind]. rewrite IH; [reflexivity|].
    intros y Hy. apply Hfg. apply elem_of_cons. right. exact Hy.
Qed.

Lemma dict_getitem_str (self : Device) (a : string) :
  dict_getitem self (PStr a) =
  match attrs self !! KStr a with
  | Some v => Ok v
  | None => Raise (KeyError (PStr a))
  end.
Proof. reflexivity. Qed.

Lemma quantity_lengths_Ok (self : Device) (syms : list symbol) (len : symbol -> nat) :
  (forall s, s ∈ syms ->
     exists q, attrs self !! KStr (str s) = Some q /\ py_len q = Ok (len s)) ->
  quantity_lengths self syms = Ok (map len syms).
Proof.
  intros Hq. unfold quantity_lengths. apply traverse_map.
  intros s Hs. destruct (Hq s Hs) as (q & Hget & Hlen).
  rewrite dict_getitem_str, Hget. cbn [bind]. exact Hlen.
Qed.

Lemma fold_left_min_le (l : list nat) (x : nat) :
  (fold_left Nat.min l x <= x)%nat /\
  Forall (fun y => (fold_left Nat.min l x <= y)%nat) l.
Proof.
  revert x. induction l as [|y l IH]; intros x; cbn [fold_left].
  - split; [lia | constructor].
  - destruct (IH (Nat.min x y)) as [Hx Hl]. split; [lia|].
    constructor; [lia | exact Hl].
Qed.

Lemma py_min_le (l : list nat) (k : nat) :
  py_min l = Ok k -> Forall (fun y => (k <= y)%nat) l.
Proof.
  destruct l as [|x l]; [discriminate|]. cbn [py_min]. intros [= <-].
  destruct (fold_left_min_le l x) as [Hx Hl]. constructor; assumption.
Qed.

Lemma py_min_nonempty (l : list nat) :
  l <> [] -> exists k, py_min l = Ok k.
Proof. destruct l as [|x l]; [contradiction|]. intros _. eexists. reflexivity. Qed.

Lemma py_min_const (l : list nat) (m : nat) :
  l <> [] -> Forall (fun y => y = m) l -> py_min l = Ok m.
Proof.
  destruct l as [|x l]; [contradiction|]. intros _ Hall.
  cbn [py_min]. f_equal. inversion Hall as [|? ? -> Hl]; subst. clear Hall.
  induction Hl as [|y l -> _ IH]; cbn [fold_left].
  - reflexivity.
  - rewrite Nat.min_id. exact IH.
Qed.

Lemma list_item_Ok (items : list pyval) (i : nat) (it : pyval) :
  items !! i = Some it ->
  list_item items (Z.of_nat i) = Ok it.
Proof.
  intros Hit. pose proof (lookup_lt_Some _ _ _ Hit) as Hlt.
  unfold list_item, seq_index.
  destruct (0 <=? Z.of_nat i) eqn:H0; [|lia].
  destruct (Z.of_nat i <? Z.of_nat (length items)) eqn:H1; [|lia].
  cbn [andb]. rewrite Nat2Z.id, Hit. reflexivity.
Qed.

(** The pairs built for element [i] when every quantity has an [i]-th
    entry: none is skipped. *)
Lemma sym_list_at_Ok (self : Device) (i : nat) (syms : list symbol) (val : symbol -> expr) :
  (forall s, s ∈ syms ->
     exists items it,
       attrs self !! KStr (str s) = Some (PList items) /\
       items !! i = Some it /\ sympify it = Ok (val s)) ->
  exists pairs,
    sym_list_at self i syms = Ok pairs /\
    sympify_pairs pairs = Ok (map (fun s => (s, val s)) syms).
Proof.
  induction syms as [|s syms IH]; intros Hq.
  - exists []. split; reflexivity.
  - destruct (Hq s) as (items & it & Hget & Hit & Hsym).
    { apply elem_of_cons. left. reflexivity. }
    destruct IH as (pairs & Hpairs & Hsp).
    { intros t Ht. apply Hq. apply elem_of_cons. right. exact Ht. }
    exists ((s, it) :: pairs). split.
    + cbn [sym_list_at]. cbv zeta. rewrite dict_getitem_str, Hget. cbn [bind py_len].
      pose proof (lookup_lt_Some _ _ _ Hit) as Hlt.
      destruct (length items =? 0)%nat eqn:Hz; [apply Nat.eqb_eq in Hz; lia|].
      cbn [py_getitem]. rewrite (list_item_Ok items i it Hit). cbn [bind].
      rewrite Hpairs. reflexivity.
    + unfold sympify_pairs in *. cbn [traverse fst snd map]. rewrite Hsym. cbn [bind].
      rewrite Hsp. reflexivity.
Qed.

Lemma bindings_map (syms : list symbol) (val : symbol -> expr) (s : symbol) :
  s ∈ syms -> bindings (map (fun t => (t, val t)) syms) s = val s.
Proof.
  unfold bindings. induction syms as [|t syms IH]; intros Hs.
  - inversion Hs.
  - cbn [map rep_lookup]. destruct (decide (t = s)) as [->|Hne]; [reflexivity|].
    apply IH. apply elem_of_cons in Hs as [->|Hs]; [contradiction | exact Hs].
Qed.

Lemma fst_map_pair (syms : list symbol) (val : symbol -> expr) :
  (map (fun t => (t, val t)) syms).*1 = syms.
Proof.
  induction syms as [|t syms IH]; [reflexivity|]. cbn. f_equal. exact IH.
Qed.

(** The substitution of one element, when no new value mentions a symbol
    of the template. *)
Lemma py_subs_element (self : Device) (e : expr) (i : nat) (val : symbol -> expr) :
  (forall s, s ∈ symbols_of e ->
     exists items it,
       attrs self !! KStr (str s) = Some (PList items) /\
       items !! i = Some it /\ sympify it = Ok (val s)) ->
  (forall s t, s ∈ symbols_of e -> t ∈ symbols_of e -> t ∉ symbols_of (val s)) ->
  (let* sym_list := sym_list_at self i (set_iter (free_symbols e)) in
   py_subs (PExpr e) sym_list) = Ok (substitute val e).
Proof.
  intros Hq Hfree.
  destruct (sym_list_at_Ok self i (set_iter (free_symbols e)) val) as (pairs & Hpairs & Hsp).
  { intros s Hs. apply Hq. apply elem_of_set_iter, Hs. }
  rewrite Hpairs. cbn [bind py_subs]. rewrite Hsp. cbn [bind]. f_equal.
  rewrite subs_substitute.
  - apply substitute_ext. intros s Hs. apply bindings_map. apply elem_of_set_iter, Hs.
  - intros x v y Hxv Hy. rewrite fst_map_pair in Hy.
    apply list_elem_of_In, in_map_iff in Hxv as (s & [= <- <-] & Hs).
    apply list_elem_of_In in Hs.
    apply Hfree; apply elem_of_set_iter; assumption.
Qed.


(** C1, as the code has it.  For a template with at least one free symbol,
    all of whose free symbols name arrays of [m] entries that mention no
    symbol of the template, vectorized expansion returns exactly [m]
    equations in element order; the [i]-th is the template with every free
    symbol replaced by the [i]-th entry of its array, and no symbol of the
    template is left in it. *)
Theorem subs_all_vectorized_expands (self : Device) (e : expr) (m : nat)
    (val : symbol -> nat -> expr) :
  free_symbols e <> [] ->
  elementwise_quantities self e m val ->
  values_concrete e m val ->
  exists eqs,
    _subs_all_vectorized self (PExpr e) AsList = Ok (PList (map PExpr eqs)) /\
    length eqs = m /\
    forall i, (i < m)%nat ->
      eqs !! i = Some (substitute (fun s => val s i) e) /\
      forall t, t ∈ free_symbols e -> t ∉ symbols_of (substitute (fun s => val s i) e).
Proof.
  intros Hne Hq Hfree.
  exists (map (fun i => substitute (fun s => val s i) e) (seq 0 m)).
  split; [|split].
  - unfold _subs_all_vectorized. cbn [py_free_symbols bind].
    rewrite (quantity_lengths_Ok self _ (fun _ => m)).
    + cbn [bind]. rewrite (py_min_const _ m).
      * cbn [bind].
        rewrite (traverse_map _ (fun i => substitute (fun s => val s i) e)); [reflexivity|].
        intros i Hi. apply elem_of_seq in Hi as [_ Hi]. cbn [plus] in Hi.
        apply py_subs_element.
        -- intros s Hs. apply elem_of_free_symbols in Hs.
           destruct (Hq s Hs) as (items & Hget & _ & Hit).
           destruct (Hit i Hi) as (it & Hlook & Hsym).
           exists items, it. split; [exact Hget | split; [exact Hlook | exact Hsym]].
        -- intros s t Hs Ht. apply Hfree; [| |exact Hi]; apply elem_of_free_symbols; assumption.
      * intros Hnil. apply map_eq_nil in Hnil.
        pose proof (set_iter_perm (free_symbols e)) as Hperm.
        rewrite Hnil in Hperm. apply Hne. symmetry in Hperm.
        apply Permutation_nil_r in Hperm. exact Hperm.
      * apply Forall_forall. intros y Hy.
        apply list_elem_of_In, in_map_iff in Hy as (s & <- & _). reflexivity.
    + intros s Hs. apply elem_of_set_iter, elem_of_free_symbols in Hs.
      destruct (Hq s Hs) as (items & Hget & Hlen & _).
      exists (PList items). split; [exact Hget|]. cbn [py_len]. rewrite Hlen. reflexivity.
  - rewrite length_map, length_seq. reflexivity.
  - intros i Hi. split.
    + rewrite list_lookup_fmap, lookup_seq_lt by exact Hi. reflexivity.
    + intros t Ht Hin. apply elem_of_symbols_of_substitute in Hin as (s & Hs & Hin).
      revert Hin. apply Hfree; [apply elem_of_free_symbols, Hs | exact Ht | exact Hi].
Qed.


(** The length the minimum is taken over, for a symbol whose quantity is
    stored and sized. *)
Lemma quantity_lengths_sized (self : Device) (syms : list symbol) :
  (forall s, s ∈ syms ->
     exists q k, attrs self !! KStr (str s) = Some q /\ py_len q = Ok k) ->
  exists len : symbol -> nat,
    quantity_lengths self syms = Ok (map len syms) /\
    forall s q k, s ∈ syms -> attrs self !! KStr (str s) = Some q -> py_len q = Ok k ->
                  len s = k.
Proof.
  intros Hq.
  set (len := fun s : symbol =>
                match attrs self !! KStr (str s) with
                | Some q => match py_len q with Ok k => k | Raise _ => 0%nat end
                | None => 0%nat
                end).
  exists len. split.
  - apply quantity_lengths_Ok. intros s Hs.
    destruct (Hq s Hs) as (q & k & Hget & Hlen).
    exists q. split; [exact Hget|]. unfold len. rewrite Hget, Hlen. reflexivity.
  - intros s q k _ Hget Hlen. unfold len. rewrite Hget, Hlen. reflexivity.
Qed.

(** In an iteration that runs, the test for an empty quantity is false for
    every symbol: the branch that skips is never taken. *)
Lemma sym_list_at_never_skips (self : Device) (syms : list symbol) (lens : list nat)
    (k i : nat) (pairs : list (symbol * pyval)) :
  quantity_lengths self syms = Ok lens ->
  Forall (fun y => (k <= y)%nat) lens ->
  (i < k)%nat ->
  sym_list_at self i syms = Ok pairs ->
  pairs.*1 = syms.
Proof.
  unfold quantity_lengths. intros Hlens. apply traverse_Ok_Forall2 in Hlens.
  revert pairs. induction Hlens as [|s len syms lens Hs _ IH]; intros pairs Hk Hi Hrun.
  - cbn [sym_list_at] in Hrun. injection Hrun as <-. reflexivity.
  - inversion Hk as [|? ? Hlen Hk']; subst.
    cbn [sym_list_at] in Hrun. cbv zeta in Hrun.
    apply bind_Ok in Hs as (q & Hq & Hl).
    rewrite Hq in Hrun. cbn [bind] in Hrun. rewrite Hl in Hrun. cbn [bind] in Hrun.
    destruct (len =? 0)%nat eqn:Hz; [apply Nat.eqb_eq in Hz; lia|].
    apply bind_Ok in Hrun as (item & _ & Hrun).
    apply bind_Ok in Hrun as (tail & Htail & [= <-]).
    cbn. f_equal. apply IH; assumption.
Qed.

(** C6, what the code does.  When a referenced quantity is empty, the
    minimum of the lengths is zero: vectorized expansion returns the empty
    list, whatever the other quantities hold, and no equation is built
    from them. *)
Theorem subs_all_vectorized_empty_quantity (self : Device) (e : expr) (s0 : symbol) :
  (forall s, s ∈ free_symbols e ->
     exists q k, attrs self !! KStr (str s) = Some q /\ py_len q = Ok k) ->
  s0 ∈ free_symbols e ->
  (exists q, attrs self !! KStr (str s0) = Some q /\ py_len q = Ok 0%nat) ->
  _subs_all_vectorized self (PExpr e) AsList = Ok (PList []).
Proof.
  intros Hq Hs0 (q0 & Hget0 & Hlen0).
  destruct (quantity_lengths_sized self (set_iter (free_symbols e))) as (len & Hlens & Hlen).
  { intros s Hs. apply Hq. apply elem_of_free_symbols, elem_of_set_iter, Hs. }
  assert (Hin : s0 ∈ set_iter (free_symbols e)).
  { apply elem_of_set_iter, elem_of_free_symbols, Hs0. }
  unfold _subs_all_vectorized. cbn [py_free_symbols bind]. rewrite Hlens. cbn [bind].
  destruct (py_min_nonempty (map len (set_iter (free_symbols e)))) as (k & Hk).
  { intros Hnil. apply map_eq_nil in Hnil. rewrite Hnil in Hin. inversion Hin. }
  rewrite Hk. cbn [bind].
  assert (k = 0%nat) as ->.
  { apply py_min_le in Hk. rewrite Forall_forall in Hk.
    specialize (Hk (len s0)).
    rewrite (Hlen s0 q0 0%nat Hin Hget0 Hlen0) in Hk.
    assert (k <= 0)%nat; [|lia].
    apply Hk. apply list_elem_of_In, in_map_iff. exists s0.
    split; [apply (Hlen s0 q0 0%nat Hin Hget0 Hlen0) | apply list_elem_of_In, Hin]. }
  reflexivity.
Qed.

(** *** Missing quantities *)

(** C4, as the code has it.  Let [s] be the first free symbol, in
    iteration order, that is not a key of the instance dictionary.
    Singleton expansion raises [KeyError] carrying the name of [s], and
    nothing else.  Vectorized expansion takes the length of every
    quantity it meets on the way: it raises the same [KeyError] when the
    symbols before [s] name sized quantities, and [TypeError] at the
    first of them that has no length. *)
Theorem expansion_missing_quantity_KeyError (self : Device) (e : expr)
    (pre post : list symbol) (s : symbol) (return_as : return_type) :
  set_iter (free_symbols e) = pre ++ s :: post ->
  (forall x, x ∈ pre -> is_Some (attrs self !! KStr (str x))) ->
  attrs self !! KStr (str s) = None ->
  _subs_all_singleton self (PExpr e) return_as = Raise (KeyError (PStr (str s))) /\
  ((forall x, x ∈ pre ->
      exists q k, attrs self !! KStr (str x) = Some q /\ py_len q = Ok k) ->
   _subs_all_vectorized self (PExpr e) return_as = Raise (KeyError (PStr (str s)))) /\
  (forall pre1 x pre2 q,
     pre = pre1 ++ x :: pre2 ->
     (forall y, y ∈ pre1 ->
        exists q' k, attrs self !! KStr (str y) = Some q' /\ py_len q' = Ok k) ->
     attrs self !! KStr (str x) = Some q ->
     py_len q = Raise TypeError ->
     _subs_all_vectorized self (PExpr e) return_as = Raise TypeError).
Proof.
  intros Hsyms Hpre Hs. split; [|split].
  - unfold _subs_all_singleton. cbn [py_free_symbols bind]. rewrite Hsyms.
    erewrite traverse_Raise; [reflexivity | |].
    + apply (traverse_map _ (fun x => (x, match attrs self !! KStr (str x) with
                                          | Some q => q
                                          | None => PNone
                                          end))).
      intros x Hx. destruct (Hpre x Hx) as (q & Hget).
      rewrite dict_getitem_str, Hget. reflexivity.
    + rewrite dict_getitem_str, Hs. reflexivity.
  - intros Hsized.
    unfold _subs_all_vectorized. cbn [py_free_symbols bind]. rewrite Hsyms.
    destruct (quantity_lengths_sized self pre Hsized) as (len & Hlens & _).
    unfold quantity_lengths in *.
    erewrite traverse_Raise; [reflexivity | exact Hlens |].
    rewrite dict_getitem_str, Hs. reflexivity.
  - intros pre1 x pre2 q -> Hsized Hq Hlen.
    unfold _subs_all_vectorized. cbn [py_free_symbols bind]. rewrite Hsyms.
    destruct (quantity_lengths_sized self pre1 Hsized) as (len & Hlens & _).
    unfold quantity_lengths in *. rewrite <- app_assoc. cbn [app].
    erewrite traverse_Raise; [reflexivity | exact Hlens |].
    rewrite dict_getitem_str, Hq. cbn [bind]. rewrite Hlen. reflexivity.
Qed.

(** *** Singleton expansion *)

(** C7.  Singleton expansion replaces every free symbol of the template by
    the quantity stored under its name, all at once: the result is the
    simultaneous substitution read off the original template, whatever
    the iteration order and whatever symbols the stored values mention. *)
Theorem subs_all_singleton_simultaneous (self : Device) (e : expr)
    (val : symbol -> expr) :
  (forall s, s ∈ free_symbols e ->
     exists q, attrs self !! KStr (str s) = Some q /\ sympify q = Ok (val s)) ->
  _subs_all_singleton self (PExpr e) AsNone = Ok (PExpr (substitute val e)).
Proof.
  intros Hq.
  set (stored := fun s : symbol =>
                   match attrs self !! KStr (str s) with
                   | Some q => q
                   | None => PNone
                   end).
  unfold _subs_all_singleton. cbn [py_free_symbols bind].
  rewrite (traverse_map _ (fun s => (s, stored s))).
  - cbn [bind py_subs_simultaneous]. unfold sympify_pairs.
    rewrite (traverse_map _ (fun p => (fst p, val (fst p)))).
    + cbn [bind]. do 2 f_equal. rewrite subs_simultaneous_substitute.
      apply substitute_ext. intros s Hs. rewrite map_map. cbn [fst].
      apply bindings_map. apply elem_of_set_iter, Hs.
    + intros p Hp. apply list_elem_of_In, in_map_iff in Hp as (s & <- & Hs).
      apply list_elem_of_In, elem_of_set_iter, elem_of_free_symbols in Hs.
      destruct (Hq s Hs) as (q & Hget & Hsym).
      cbn [fst snd]. unfold stored. rewrite Hget, Hsym. reflexivity.
  - intros s Hs. apply elem_of_set_iter, elem_of_free_symbols in Hs.
    destruct (Hq s Hs) as (q & Hget & _).
    rewrite dict_getitem_str. unfold stored. rewrite Hget. reflexivity.
Qed.


(** *** Derived parameters *)

Lemma for_each_app {A S : Type} (body : S -> A -> result S) (l1 l2 : list A) (s : S) :
  for_each body (l1 ++ l2) s =
  let* s1 := for_each body l1 s in
  for_each body l2 s1.
Proof.
  revert s. induction l1 as [|x l1 IH]; intros s; cbn [for_each app].
  - reflexivity.
  - destruct (body s x) as [s'|e]; cbn [bind]; [apply IH | reflexivity].
Qed.

Lemma compute_param_int_item_inv (self self' : Device) (k : key) (eq : pyval) :
  _compute_param_int_item self (k, eq) = Ok self' ->
  exists e value,
    sympify eq = Ok e /\
    _subs_all_vectorized self (PExpr e) AsList = Ok value /\
    self' = dict_setitem self k value.
Proof.
  unfold _compute_param_int_item. cbn [fst snd]. intros H.
  apply bind_Ok in H as (e & He & H).
  apply bind_Ok in H as (value & Hv & [= <-]).
  exists e, value. split; [exact He | split; [exact Hv | reflexivity]].
Qed.

(** A pass writes only under the names it computes. *)
Lemma compute_param_int_frame (l : list (key * pyval)) (self self' : Device) (k : key) :
  for_each _compute_param_int_item l self = Ok self' ->
  k ∉ l.*1 ->
  attrs self' !! k = attrs self !! k.
Proof.
  revert self. induction l as [|[k0 eq0] l IH]; intros self Hrun Hk.
  - cbn [for_each] in Hrun. injection Hrun as <-. reflexivity.
  - cbn [for_each] in Hrun. apply bind_Ok in Hrun as (s1 & Hitem & Hrun).
    apply compute_param_int_item_inv in Hitem as (e & value & _ & _ & ->).
    rewrite (IH _ Hrun).
    + unfold dict_setitem. cbn [attrs]. apply lookup_insert_ne.
      intros ->. apply Hk. cbn. apply elem_of_cons. left. reflexivity.
    + intros Hin. apply Hk. cbn. apply elem_of_cons. right. exact Hin.
Qed.

(** C8.  [_compute_param_int] is one pass over [_param_int_computed] in
    declaration order.  The equation of a parameter [var] is expanded
    against the device as the parameters before it left it: each of those
    holds its freshly computed value, and every other name, so every
    parameter declared after [var], still holds what it held when the pass
    began.  The result for [var] is stored before the pass goes on. *)
Theorem compute_param_int_forward_pass (self : Device) (pre post : list (key * pyval))
    (var : key) (eq : pyval) :
  getattr self "_param_int_computed" = Ok (PDict (pre ++ (var, eq) :: post)) ->
  NoDup (pre ++ (var, eq) :: post).*1 ->
  _compute_param_int self =
    (let* self1 := for_each _compute_param_int_item pre self in
     let* e := sympify eq in
     let* value := _subs_all_vectorized self1 (PExpr e) AsList in
     for_each _compute_param_int_item post (dict_setitem self1 var value)) /\
  (forall self1,
      for_each _compute_param_int_item pre self = Ok self1 ->
      (forall k eqk, (k, eqk) ∈ pre -> freshly_computed self pre k self1) /\
      (forall k, k ∉ pre.*1 -> attrs self1 !! k = attrs self !! k)) /\
  (forall self1 value self',
      for_each _compute_param_int_item post (dict_setitem self1 var value) = Ok self' ->
      attrs self' !! var = Some value).
Proof.
  intros Hattr Hnodup. split; [|split].
  - unfold _compute_param_int. rewrite Hattr. cbn [bind py_len py_items].
    destruct (0 <? length (pre ++ (var, eq) :: post))%nat eqn:Hlen.
    + rewrite for_each_app. cbn [for_each].
      destruct (for_each _compute_param_int_item pre self) as [self1|err]; [|reflexivity].
      cbn [bind]. unfold _compute_param_int_item at 1. cbn [fst snd].
      destruct (sympify eq) as [e|err]; [|reflexivity]. cbn [bind].
      destruct (_subs_all_vectorized self1 (PExpr e) AsList) as [value|err]; reflexivity.
    + apply Nat.ltb_ge in Hlen. rewrite length_app in Hlen. cbn [length] in Hlen. lia.
  - intros self1 Hrun. split.
    + intros k eqk Hin.
      apply list_elem_of_split in Hin as (before & after & ->).
      rewrite for_each_app in Hrun. apply bind_Ok in Hrun as (d & Hd & Hrun).
      cbn [for_each] in Hrun. apply bind_Ok in Hrun as (d' & Hitem & Hrun).
      apply compute_param_int_item_inv in Hitem as (e & value & He & Hv & ->).
      exists before, eqk, after, d, e, value.
      split; [reflexivity|]. split; [exact Hd|]. split; [exact He|]. split; [exact Hv|].
      rewrite (compute_param_int_frame _ _ _ k Hrun).
      * unfold dict_setitem. cbn [attrs]. apply lookup_insert_eq.
      * rewrite fmap_app in Hnodup. apply NoDup_app in Hnodup as (Hpre & _ & _).
        rewrite fmap_app in Hpre. apply NoDup_app in Hpre as (_ & Hdisj & Hafter).
        cbn in Hafter. apply NoDup_cons in Hafter as (Hk & _). exact Hk.
    + intros k Hk. apply (compute_param_int_frame _ _ _ k Hrun Hk).
  - intros self1 value self' Hrun.
    rewrite (compute_param_int_frame _ _ _ var Hrun).
    + unfold dict_setitem. cbn [attrs]. apply lookup_insert_eq.
    + rewrite fmap_app in Hnodup. apply NoDup_app in Hnodup as (_ & _ & Hpost).
      cbn in Hpost. apply NoDup_cons in Hpost as (Hk & _). exact Hk.
Qed.


(** *** Delayed substitution *)

Lemma as_key_of_key (k : key) : as_key (of_key k) = Some k.
Proof. destruct k; reflexivity. Qed.

Lemma dict_lookup_cons (k0 : key) (v0 : pyval) (d : list (key * pyval)) (k : key) :
  dict_lookup ((k0, v0) :: d) k = if decide (k0 = k) then Some v0 else dict_lookup d k.
Proof.
  unfold dict_lookup. cbn [find fst].
  destruct (decide (k0 = k)) as [->|Hne].
  - rewrite bool_decide_eq_true_2 by reflexivity. reflexivity.
  - rewrite bool_decide_eq_false_2 by exact Hne. reflexivity.
Qed.

Lemma dict_lookup_set_eq (d : list (key * pyval)) (k : key) (v : pyval) :
  dict_lookup (dict_set d k v) k = Some v.
Proof.
  induction d as [|[k0 v0] d IH]; cbn [dict_set].
  - rewrite dict_lookup_cons. destruct (decide (k = k)); [reflexivity | contradiction].
  - destruct (decide (k0 = k)) as [->|Hne]; rewrite dict_lookup_cons.
    + destruct (decide (k = k)); [reflexivity | contradiction].
    + destruct (decide (k0 = k)); [contradiction | exact IH].
Qed.

Lemma dict_lookup_set_ne (d : list (key * pyval)) (k k' : key) (v : pyval) :
  k <> k' ->
  dict_lookup (dict_set d k v) k' = dict_lookup d k'.
Proof.
  intros Hne. induction d as [|[k0 v0] d IH]; cbn [dict_set].
  - rewrite dict_lookup_cons. destruct (decide (k = k')); [contradiction | reflexivity].
  - destruct (decide (k0 = k)) as [->|Hne0]; rewrite !dict_lookup_cons.
    + destruct (decide (k = k')); [contradiction | reflexivity].
    + destruct (decide (k0 = k')); [reflexivity | exact IH].
Qed.

Lemma dict_lookup_elem_of (d : list (key * pyval)) (k : key) (v : pyval) :
  (k, v) ∈ d -> is_Some (dict_lookup d k).
Proof.
  induction d as [|[k0 v0] d IH]; intros Hin.
  - inversion Hin.
  - rewrite dict_lookup_cons. destruct (decide (k0 = k)) as [_|Hne].
    + eexists. reflexivity.
    + apply IH. apply elem_of_cons in Hin as [Heq|Hin]; [congruence | exact Hin].
Qed.

(** One item of the loop, without [update]: a key the output dictionary
    has is left alone; a new key is added, and nothing else changes. *)
Lemma delayed_symbol_sub_item_step (out_dict_name subs_type : string)
    (output_type : return_type) (self self' : Device) (var : key) (eq : pyval)
    (out : list (key * pyval)) :
  attrs self !! KStr out_dict_name = Some (PDict out) ->
  delayed_symbol_sub_item out_dict_name subs_type output_type false self (var, eq) = Ok self' ->
  exists out',
    attrs self' !! KStr out_dict_name = Some (PDict out') /\
    (forall k v, dict_lookup out k = Some v -> dict_lookup out' k = Some v) /\
    is_Some (dict_lookup out' var) /\
    (forall k, k <> KStr out_dict_name -> attrs self' !! k = attrs self !! k).
Proof.
  intros Hout. unfold delayed_symbol_sub_item. cbn [fst snd].
  rewrite dict_getitem_str, Hout. cbn [bind py_contains]. rewrite as_key_of_key.
  cbn [bind]. destruct (bool_decide (is_Some (dict_lookup out var))) eqn:Hpresent.
  - intros [= <-]. apply bool_decide_eq_true in Hpresent.
    exists out. split; [exact Hout|]. split; [auto|].
    split; [exact Hpresent | reflexivity].
  - intros H. apply bind_Ok in H as (value & _ & H).
    cbn [bind py_setitem] in H. rewrite as_key_of_key in H. injection H as <-.
    apply bool_decide_eq_false in Hpresent.
    exists (dict_set out var value). split; [|split; [|split]].
    + unfold dict_setitem. cbn [attrs]. apply lookup_insert_eq.
    + intros k v Hk. rewrite dict_lookup_set_ne; [exact Hk|].
      intros ->. apply Hpresent. eexists. exact Hk.
    + rewrite dict_lookup_set_eq. eexists. reflexivity.
    + intros k Hk. unfold dict_setitem. cbn [attrs]. apply lookup_insert_ne. congruence.
Qed.

(** An item whose key the output dictionary has is skipped. *)
Lemma delayed_symbol_sub_item_skip (out_dict_name subs_type : string)
    (output_type : return_type) (self : Device) (var : key) (eq : pyval)
    (out : list (key * pyval)) :
  attrs self !! KStr out_dict_name = Some (PDict out) ->
  is_Some (dict_lookup out var) ->
  delayed_symbol_sub_item out_dict_name subs_type output_type false self (var, eq) = Ok self.
Proof.
  intros Hout Hvar. unfold delayed_symbol_sub_item. cbn [fst snd].
  rewrite dict_getitem_str, Hout. cbn [bind py_contains]. rewrite as_key_of_key.
  cbn [bind]. rewrite bool_decide_eq_true_2 by exact Hvar. reflexivity.
Qed.

Lemma delayed_symbol_sub_loop (out_dict_name subs_type : string)
    (output_type : return_type) (items : list (key * pyval)) (self self' : Device)
    (out : list (key * pyval)) :
  attrs self !! KStr out_dict_name = Some (PDict out) ->
  for_each (delayed_symbol_sub_item out_dict_name subs_type output_type false) items self
    = Ok self' ->
  exists out',
    attrs self' !! KStr out_dict_name = Some (PDict out') /\
    (forall k v, dict_lookup out k = Some v -> dict_lookup out' k = Some v) /\
    (forall p, p ∈ items -> is_Some (dict_lookup out' (fst p))) /\
    (forall k, k <> KStr out_dict_name -> attrs self' !! k = attrs self !! k).
Proof.
  revert self out. induction items as [|[var eq] items IH]; intros self out Hout Hrun.
  - cbn [for_each] in Hrun. injection Hrun as <-. exists out.
    split; [exact Hout|]. split; [auto|]. split; [|reflexivity].
    intros p Hp. inversion Hp.
  - cbn [for_each] in Hrun. apply bind_Ok in Hrun as (s1 & Hstep & Hrun).
    destruct (delayed_symbol_sub_item_step _ _ _ _ _ _ _ _ Hout Hstep)
      as (out1 & Hout1 & Hkeep1 & Hvar & Hframe1).
    destruct (IH s1 out1 Hout1 Hrun) as (out' & Hout' & Hkeep & Hall & Hframe).
    exists out'. split; [exact Hout'|]. split; [|split].
    + intros k v Hk. apply Hkeep, Hkeep1, Hk.
    + intros p Hp. apply elem_of_cons in Hp as [->|Hp]; [|apply Hall, Hp].
      cbn [fst]. destruct Hvar as (v & Hv). exists v. apply Hkeep, Hv.
    + intros k Hk. rewrite (Hframe k Hk). apply Hframe1, Hk.
Qed.

Lemma delayed_symbol_sub_loop_skip (out_dict_name subs_type : string)
    (output_type : return_type) (items : list (key * pyval)) (self : Device)
    (out : list (key * pyval)) :
  attrs self !! KStr out_dict_name = Some (PDict out) ->
  (forall p, p ∈ items -> is_Some (dict_lookup out (fst p))) ->
  for_each (delayed_symbol_sub_item out_dict_name subs_type output_type false) items self
    = Ok self.
Proof.
  intros Hout. induction items as [|[var eq] items IH]; intros Hall.
  - reflexivity.
  - cbn [for_each].
    rewrite (delayed_symbol_sub_item_skip _ _ _ _ _ _ out Hout).
    + cbn [bind]. apply IH. intros p Hp. apply Hall. apply elem_of_cons. right. exact Hp.
    + apply (Hall (var, eq)). apply elem_of_cons. left. reflexivity.
Qed.

(** C10.  Without [update], [delayed_symbol_sub] leaves every key the
    output dictionary already has, with its value; a second call with the
    same arguments on the device the first call returned changes nothing
    and returns that device again. *)
Theorem delayed_symbol_sub_idempotent (self self' : Device)
    (in_dict_name out_dict_name subs_type : string) (output_type : return_type)
    (out : list (key * pyval)) :
  attrs self !! KStr out_dict_name = Some (PDict out) ->
  delayed_symbol_sub self in_dict_name out_dict_name subs_type output_type false = Ok self' ->
  (exists out',
      attrs self' !! KStr out_dict_name = Some (PDict out') /\
      forall k v, dict_lookup out k = Some v -> dict_lookup out' k = Some v) /\
  delayed_symbol_sub self' in_dict_name out_dict_name subs_type output_type false = Ok self'.
Proof.
  intros Hout Hrun. unfold delayed_symbol_sub in *.
  destruct (decide (subs_type ∈ ["vectorized"%string; "singleton"%string])) as [_|_];
    [|discriminate Hrun].
  apply bind_Ok in Hrun as (singleton_dict & Hin & Hrun).
  apply bind_Ok in Hrun as (items & Hitems & Hrun).
  destruct (delayed_symbol_sub_loop _ _ _ _ _ _ _ Hout Hrun)
    as (out' & Hout' & Hkeep & Hall & Hframe).
  split.
  - exists out'. split; [exact Hout' | exact Hkeep].
  - rewrite dict_getitem_str in Hin. rewrite dict_getitem_str.
    destruct (decide (in_dict_name = out_dict_name)) as [->|Hne].
    + rewrite Hout'. cbn [bind py_items].
      apply (delayed_symbol_sub_loop_skip _ _ _ _ _ out' Hout').
      intros [k v] Hp. cbn [fst]. apply (dict_lookup_elem_of out' k v Hp).
    + rewrite (Hframe (KStr in_dict_name)) by congruence.
      destruct (attrs self !! KStr in_dict_name) as [d|]; [|discriminate Hin].
      injection Hin as <-. cbn [bind]. rewrite Hitems. cbn [bind].
      apply (delayed_symbol_sub_loop_skip _ _ _ _ _ out' Hout'). exact Hall.
Qed.


(** *** Cross-device references *)

Lemma getattr_setitem_ne (self : Device) (k : key) (v : pyval) (attr : string) :
  attr <> "n"%string ->
  k <> KStr attr ->
  getattr (dict_setitem self k v) attr = getattr self attr.
Proof.
  intros Hn Hk. unfold getattr.
  destruct (decide (attr = "n"%string)) as [Heq|_]; [contradiction|].
  unfold dict_setitem. cbn [attrs cls]. rewrite lookup_insert_ne by exact Hk. reflexivity.
Qed.

Lemma getattr_setattr_eq (self : Device) (attr : string) (v : pyval) :
  attr <> "n"%string ->
  getattr (setattr self attr v) attr = Ok v.
Proof.
  intros Hn. apply getattr_instance; [exact Hn | apply setattr_lookup_eq].
Qed.

Lemma idx2int_rows (self : Device) (int : list (key * pyval)) (ids rs : list pyval) :
  getattr self "_int" = Ok (PDict int) ->
  Forall2 (row_of int) ids rs ->
  idx2int self (PList ids) = Ok (PList rs).
Proof.
  intros Hint Hall. unfold idx2int. cbn [py_iter bind].
  assert (Hrs : traverse (fun i => let* int := getattr self "_int" in py_getitem int i) ids
                = Ok rs).
  { apply traverse_Ok_Forall2. eapply Forall2_impl; [exact Hall|].
    intros i r Hir. cbn beta. rewrite Hint. cbn [bind]. apply py_getitem_dict_Ok, Hir. }
  rewrite Hrs. reflexivity.
Qed.



(** A stored dictionary is read from the instance. *)
Lemma getattr_dict_inv (self : Device) (attr : string) (d : list (key * pyval)) :
  getattr self attr = Ok (PDict d) ->
  attrs self !! KStr attr = Some (PDict d).
Proof.
  unfold getattr. destruct (decide (attr = "n"%string)) as [_|_].
  - destruct (n self); discriminate.
  - destruct (attrs self !! KStr attr) as [v|].
    + intros [= ->]. reflexivity.
    + destruct (decide (attr ∈ class_attributes)); discriminate.
Qed.

(** What the registry holds under a name is what the method finds
    there. *)
Lemma system_getitem_registry (system : gmap string Device) (self_key : string)
    (self ref : Device) (name : string) (sysobj : pyval) :
  getattr self "system" = Ok sysobj ->
  registry system self_key self !! name = Some ref ->
  system_getitem system self_key self name = Ok ref.
Proof. intros Hsys Href. unfold system_getitem. rewrite Hsys, Href. reflexivity. Qed.

(** After the importing device stored an address, the registry still
    holds under [name] a device with the array of [var_name]: the device
    it held before, or the importing device itself, whose arrays are
    untouched. *)
Lemma system_getitem_after_address (system : gmap string Device) (self_key : string)
    (self ref : Device) (name var_name : string) (sysobj own' : pyval)
    (own_addr : list (key * pyval)) (syms : list pyval) :
  getattr self "system" = Ok sysobj ->
  getattr self "_dae_address" = Ok (PDict own_addr) ->
  registry system self_key self !! name = Some ref ->
  attrs ref !! KStr var_name = Some (PList syms) ->
  exists r,
    system_getitem system self_key (setattr self "_dae_address" own') name = Ok r /\
    attrs r !! KStr var_name = Some (PList syms).
Proof.
  intros Hsys Hown Href Hsy. unfold system_getitem, registry in *.
  unfold setattr at 1. rewrite getattr_setitem_ne by discriminate.
  rewrite Hsys. cbn [bind].
  destruct (decide (self_key = name)) as [->|Hne].
  - rewrite lookup_insert_eq in Href. injection Href as <-.
    rewrite lookup_insert_eq. eexists. split; [reflexivity|].
    apply getattr_dict_inv in Hown.
    rewrite setattr_lookup_ne; [exact Hsy|].
    intros Heq. subst var_name. rewrite Hown in Hsy. discriminate Hsy.
  - rewrite lookup_insert_ne in Href by exact Hne.
    rewrite lookup_insert_ne by exact Hne. rewrite Href.
    eexists. split; [reflexivity | exact Hsy].
Qed.


(** An import writes under its own name and into [_dae_address] and
    [_symbol_singleton], nowhere else. *)
Lemma get_algeb_ext_item_frame (system : gmap string Device) (self_key : string)
    (self self' : Device) (item : key * pyval) (k : key) :
  get_algeb_ext_item system self_key self item = Ok self' ->
  k <> fst item ->
  k <> KStr "_dae_address" ->
  k <> KStr "_symbol_singleton" ->
  attrs self' !! k = attrs self !! k.
Proof.
  unfold get_algeb_ext_item. cbv zeta. intros H Hk Ha Hs.
  repeat (apply bind_Ok in H as (? & _ & H)).
  injection H as <-.
  unfold setattr, dict_setitem. cbn [attrs].
  rewrite !lookup_insert_ne by congruence. reflexivity.
Qed.

Lemma get_algeb_ext_loop_frame (system : gmap string Device) (self_key : string)
    (items : list (key * pyval)) (self self' : Device) (k : key) :
  for_each (get_algeb_ext_item system self_key) items self = Ok self' ->
  k ∉ items.*1 ->
  k <> KStr "_dae_address" ->
  k <> KStr "_symbol_singleton" ->
  attrs self' !! k = attrs self !! k.
Proof.
  revert self. induction items as [|item items IH]; intros self Hrun Hk Ha Hs.
  - cbn [for_each] in Hrun. injection Hrun as <-. reflexivity.
  - cbn [for_each] in Hrun. apply bind_Ok in Hrun as (s1 & Hitem & Hrun).
    rewrite (IH s1 Hrun).
    + apply (get_algeb_ext_item_frame _ _ _ _ _ _ Hitem); [|exact Ha|exact Hs].
      intros ->. apply Hk. cbn. apply elem_of_cons. left. reflexivity.
    + intros Hin. apply Hk. cbn. apply elem_of_cons. right. exact Hin.
    + exact Ha.
    + exact Hs.
Qed.



(** ** Further properties *)

(** *** Quantities of different lengths *)

Lemma fold_left_min_elem (l : list nat) (x : nat) :
  fold_left Nat.min l x ∈ x :: l.
Proof.
  revert x. induction l as [|y l IH]; intros x; cbn [fold_left].
  - apply elem_of_cons. left. reflexivity.
  - specialize (IH (Nat.min x y)). apply elem_of_cons in IH as [IH|IH].
    + rewrite IH. destruct (Nat.min_spec x y) as [[_ ->]|[_ ->]].
      * apply elem_of_cons. left. reflexivity.
      * apply elem_of_cons. right. apply elem_of_cons. left. reflexivity.
    + apply elem_of_cons. right. apply elem_of_cons. right. exact IH.
Qed.

Lemma py_min_elem (l : list nat) (k : nat) :
  py_min l = Ok k -> k ∈ l.
Proof.
  destruct l as [|x l]; [discriminate|]. cbn [py_min]. intros [= <-].
  apply fold_left_min_elem.
Qed.

Lemma py_min_least (l : list nat) (m : nat) :
  m ∈ l -> Forall (fun y => (m <= y)%nat) l -> py_min l = Ok m.
Proof.
  intros Hin Hle.
  destruct (py_min_nonempty l) as (k & Hk).
  { intros ->. inversion Hin. }
  rewrite Hk. f_equal.
  pose proof (py_min_elem l k Hk) as Hkin.
  pose proof (py_min_le l k Hk) as Hkle.
  rewrite Forall_forall in Hle, Hkle.
  specialize (Hle k Hkin). specialize (Hkle m Hin). lia.
Qed.

(** X1.  The element count of a vectorized expansion is the length of the
    shortest referenced quantity: the rows the longer quantities have
    beyond it are dropped without an error.  The entries are taken to
    mention no free symbol of the template. *)
Theorem subs_all_vectorized_shortest (self : Device) (e : expr) (len : symbol -> nat)
    (m : nat) (val : symbol -> nat -> expr) (shortest : symbol) :
  shortest ∈ free_symbols e ->
  len shortest = m ->
  (forall s, s ∈ free_symbols e -> (m <= len s)%nat) ->
  (forall s, s ∈ free_symbols e ->
     exists items,
       attrs self !! KStr (str s) = Some (PList items) /\
       length items = len s /\
       forall i, (i < m)%nat ->
         exists it, items !! i = Some it /\ sympify it = Ok (val s i)) ->
  values_concrete e m val ->
  exists eqs,
    _subs_all_vectorized self (PExpr e) AsList = Ok (PList (map PExpr eqs)) /\
    length eqs = m /\
    forall i, (i < m)%nat -> eqs !! i = Some (substitute (fun s => val s i) e).
Proof.
  intros Hshort Hm Hle Hq Hfree.
  exists (map (fun i => substitute (fun s => val s i) e) (seq 0 m)).
  split; [|split].
  - unfold _subs_all_vectorized. cbn [py_free_symbols bind].
    rewrite (quantity_lengths_Ok self _ len).
    + cbn [bind]. rewrite (py_min_least _ m).
      * cbn [bind].
        rewrite (traverse_map _ (fun i => substitute (fun s => val s i) e)); [reflexivity|].
        intros i Hi. apply elem_of_seq in Hi as [_ Hi]. cbn [plus] in Hi.
        apply py_subs_element.
        -- intros s Hs. apply elem_of_free_symbols in Hs.
           destruct (Hq s Hs) as (items & Hget & _ & Hit).
           destruct (Hit i Hi) as (it & Hlook & Hsym).
           exists items, it. split; [exact Hget | split; [exact Hlook | exact Hsym]].
        -- intros s t Hs Ht. apply Hfree; [| |exact Hi]; apply elem_of_free_symbols; assumption.
      * rewrite <- Hm. apply list_elem_of_In, in_map, list_elem_of_In.
        apply elem_of_set_iter, elem_of_free_symbols, Hshort.
      * apply Forall_forall. intros y Hy.
        apply list_elem_of_In, in_map_iff in Hy as (s & <- & Hs).
        apply Hle. apply elem_of_free_symbols, elem_of_set_iter, list_elem_of_In, Hs.
    + intros s Hs. apply elem_of_set_iter, elem_of_free_symbols in Hs.
      destruct (Hq s Hs) as (items & Hget & Hlen & _).
      exists (PList items). split; [exact Hget|]. cbn [py_len]. rewrite Hlen. reflexivity.
  - rewrite length_map, length_seq. reflexivity.
  - intros i Hi. rewrite list_lookup_fmap, lookup_seq_lt by exact Hi. reflexivity.
Qed.


(** *** Default elements *)

Lemma dict_lookup_identity (ids : list Z) (j : Z) :
  dict_lookup (map (fun i => (KInt i, PInt i)) ids) (KInt j)
  = if decide (j ∈ ids) then Some (PInt j) else None.
Proof.
  induction ids as [|i ids IH].
  - reflexivity.
  - cbn [map]. rewrite dict_lookup_cons.
    destruct (decide (KInt i = KInt j)) as [Heq|Hne].
    + injection Heq as ->.
      destruct (decide (j ∈ j :: ids)) as [_|Hn]; [reflexivity|].
      exfalso. apply Hn, elem_of_cons. left. reflexivity.
    + rewrite IH.
      destruct (decide (j ∈ ids)) as [Hin|Hnin];
        destruct (decide (j ∈ i :: ids)) as [Hin'|Hnin']; try reflexivity.
      * exfalso. apply Hnin', elem_of_cons. right. exact Hin.
      * exfalso. apply elem_of_cons in Hin' as [->|Hin']; [apply Hne; reflexivity | contradiction].
Qed.

Lemma elem_of_range (k : nat) (j : Z) :
  j ∈ map Z.of_nat (seq 0 k) <-> 0 <= j < Z.of_nat k.
Proof.
  rewrite list_elem_of_In, in_map_iff. split.
  - intros (i & <- & Hi). apply in_seq in Hi. lia.
  - intros Hj. exists (Z.to_nat j). split; [lia|]. apply in_seq. lia.
Qed.

Lemma create_n_default_elements_attrs (self self' : Device) (k : Z) :
  create_n_default_elements self k = Ok self' ->
  0 <= k /\
  cls self' = cls self /\
  attrs self' =
    <[KStr "_int" := PDict (map (fun i => (KInt i, PInt i)) (map Z.of_nat (seq 0 (Z.to_nat k))))]>
      (<[KStr "idx" := PList (map PInt (map Z.of_nat (seq 0 (Z.to_nat k))))]> (attrs self)).
Proof.
  unfold create_n_default_elements. destruct (0 <=? k) eqn:Hk; [|discriminate].
  intros [= <-]. split; [apply Z.leb_le, Hk|]. split; reflexivity.
Qed.

(** X2.  After [create_n_default_elements(n)] with [n >= 0] the device
    has [n] elements and its own identifiers are their own rows:
    [idx2int] gives back every list of identifiers below [n] unchanged,
    and raises [KeyError] on any integer outside [0 .. n-1]. *)
Theorem create_n_default_elements_round_trip (self : Device) (k : Z) :
  0 <= k ->
  exists self',
    create_n_default_elements self k = Ok self' /\
    n self' = Ok (Z.to_nat k) /\
    (exists idx, getattr self' "idx" = Ok idx /\ idx2int self' idx = Ok idx) /\
    (forall js, Forall (fun j => 0 <= j < k) js ->
       idx2int self' (PList (map PInt js)) = Ok (PList (map PInt js))) /\
    (forall j, ~ (0 <= j < k) ->
       idx2int self' (PList [PInt j]) = Raise (KeyError (PInt j))).
Proof.
  intros Hk.
  set (ids := map Z.of_nat (seq 0 (Z.to_nat k))).
  set (int := map (fun i => (KInt i, PInt i)) ids).
  exists (setattr (setattr self "idx" (PList (map PInt ids))) "_int" (PDict int)).
  assert (Hint : getattr (setattr (setattr self "idx" (PList (map PInt ids))) "_int" (PDict int))
                   "_int" = Ok (PDict int)).
  { apply getattr_setattr_eq. discriminate. }
  assert (Hidx : attrs (setattr (setattr self "idx" (PList (map PInt ids))) "_int" (PDict int))
                   !! KStr "idx" = Some (PList (map PInt ids))).
  { rewrite setattr_lookup_ne by discriminate. apply setattr_lookup_eq. }
  assert (Hrows : forall js, Forall (fun j => 0 <= j < k) js ->
            idx2int (setattr (setattr self "idx" (PList (map PInt ids))) "_int" (PDict int))
              (PList (map PInt js)) = Ok (PList (map PInt js))).
  { intros js Hjs. apply (idx2int_rows _ int); [exact Hint|].
    induction Hjs as [|j js Hj _ IH]; [constructor|].
    cbn [map]. constructor; [|exact IH].
    exists (KInt j). split; [reflexivity|].
    unfold int. rewrite dict_lookup_identity.
    destruct (decide (j ∈ ids)) as [_|Hn]; [reflexivity|].
    exfalso. apply Hn. unfold ids. apply elem_of_range. lia. }
  split; [|split; [|split; [|split]]].
  - unfold create_n_default_elements. apply Z.leb_le in Hk. rewrite Hk. reflexivity.
  - unfold n. rewrite Hidx. cbn [py_len]. unfold ids.
    rewrite !length_map, length_seq. reflexivity.
  - exists (PList (map PInt ids)). split.
    + apply getattr_instance; [discriminate | exact Hidx].
    + apply Hrows. apply Forall_forall. intros j Hj.
      unfold ids in Hj. apply elem_of_range in Hj. lia.
  - exact Hrows.
  - intros j Hj. unfold idx2int. cbn [py_iter bind traverse]. rewrite Hint. cbn [bind].
    rewrite py_getitem_dict_KeyError; [reflexivity | reflexivity |].
    intros r (k' & Hk' & Hr). injection Hk' as <-.
    unfold int in Hr. rewrite dict_lookup_identity in Hr.
    destruct (decide (j ∈ ids)) as [Hin|_]; [|discriminate].
    unfold ids in Hin. apply elem_of_range in Hin. lia.
Qed.

(** X3.  [create_n_default_elements] replaces the elements, it does not
    add to them: called on a device that already has elements, it leaves
    the device it would have left had the earlier call not happened. *)
Theorem create_n_default_elements_resets (self self1 self2 : Device) (a b : Z) :
  create_n_default_elements self a = Ok self1 ->
  create_n_default_elements self1 b = Ok self2 ->
  create_n_default_elements self b = Ok self2.
Proof.
  intros H1 H2.
  apply create_n_default_elements_attrs in H1 as (_ & Hc1 & Ha1).
  pose proof (create_n_default_elements_attrs _ _ _ H2) as (Hb & Hc2 & Ha2).
  unfold create_n_default_elements. apply Z.leb_le in Hb. rewrite Hb.
  f_equal. destruct self2 as [c2 m2]. cbn [cls attrs] in Hc2, Ha2.
  unfold setattr, dict_setitem. cbn [cls attrs]. f_equal.
  - rewrite Hc2, Hc1. reflexivity.
  - rewrite Ha2, Ha1.
    rewrite (insert_insert_ne _ (KStr "idx") (KStr "_int")) by discriminate.
    rewrite (insert_insert_eq _ (KStr "idx")).
    rewrite (insert_insert_eq _ (KStr "_int")). reflexivity.
Qed.


(** *** Imports through a foreign key *)

(** The device a foreign key names is among the values of
    [_foreign_keys]: the assertion of [_get_int_of_element] holds. *)
Lemma py_eq_key (a b : pyval) (k : key) :
  as_key a = Some k ->
  py_eq a b = bool_decide (as_key b = Some k).
Proof.
  intros Hk.
  assert (Hcmp : match as_key a, as_key b with
                 | Some k1, Some k2 => bool_decide (k1 = k2)
                 | _, _ => false
                 end = bool_decide (as_key b = Some k)).
  { rewrite Hk. destruct (as_key b) as [k'|].
    - destruct (decide (k = k')) as [->|Hne].
      + rewrite !bool_decide_eq_true_2; reflexivity.
      + rewrite !bool_decide_eq_false_2; [reflexivity | congruence | exact Hne].
    - rewrite bool_decide_eq_false_2; [reflexivity | discriminate]. }
  rewrite <- Hcmp.
  destruct a as [|b0|z|f|s0|e|l|d|c]; try discriminate Hk; cbn [py_eq].
  - reflexivity.
  - reflexivity.
  - rewrite Hk. reflexivity.
  - reflexivity.
  - rewrite Hk. reflexivity.
Qed.

Lemma py_in_values_lookup (fks : list (key * pyval)) (k kv : key) (v : pyval) :
  dict_lookup fks k = Some v ->
  as_key v = Some kv ->
  py_in_values (PDict fks) v = Ok true.
Proof.
  intros Hk Hv. cbn [py_in_values]. f_equal.
  induction fks as [|[k0 v0] fks IH].
  - discriminate Hk.
  - rewrite dict_lookup_cons in Hk. cbn [existsb snd].
    destruct (decide (k0 = k)) as [_|_].
    + injection Hk as ->. rewrite (py_eq_key v v kv Hv).
      rewrite bool_decide_eq_true_2 by exact Hv. reflexivity.
    + rewrite (IH Hk). apply orb_true_r.
Qed.

(** Reading a list at the rows [rs], in their order. *)
Lemma traverse_rows (f : pyval -> result pyval) (l : list pyval) (rs : list nat)
    (xs : list pyval) :
  Forall2 (fun r x => l !! r = Some x) rs xs ->
  (forall r x, l !! r = Some x -> f (PInt (Z.of_nat r)) = Ok x) ->
  traverse f (map (fun r => PInt (Z.of_nat r)) rs) = Ok xs.
Proof.
  intros Hall Hf. apply traverse_Ok_Forall2.
  induction Hall as [|r x rs xs Hr _ IH]; cbn [map]; constructor.
  - apply Hf, Hr.
  - exact IH.
Qed.

Lemma np_take_rows (items : list pyval) (rs : list nat) (xs : list pyval) :
  rs <> [] ->
  Forall2 (fun r x => items !! r = Some x) rs xs ->
  np_take (PList items) (PList (map (fun r => PInt (Z.of_nat r)) rs)) = Ok (PList xs).
Proof.
  intros Hne Hall. unfold np_take.
  destruct (map (fun r => PInt (Z.of_nat r)) rs) as [|y ys] eqn:Hmap.
  { destruct rs; [contradiction | discriminate Hmap]. }
  rewrite <- Hmap.
  rewrite (traverse_rows _ items rs xs Hall); [reflexivity|].
  intros r x Hx. apply list_item_Ok, Hx.
Qed.

Lemma idx2int_unknown (self : Device) (int : list (key * pyval)) (pre post : list pyval)
    (i : pyval) :
  getattr self "_int" = Ok (PDict int) ->
  Forall (fun x => exists r, row_of int x r) pre ->
  hashable i = true ->
  (forall r, ~ row_of int i r) ->
  idx2int self (PList (pre ++ i :: post)) = Raise (KeyError i).
Proof.
  intros Hint Hpre Hh Hno. unfold idx2int. cbn [py_iter bind].
  set (f := fun i : pyval => let* int := getattr self "_int" in py_getitem int i).
  assert (Hf : forall i, f i = py_getitem (PDict int) i).
  { intros j. unfold f. rewrite Hint. reflexivity. }
  assert (Hok : exists rs, traverse f pre = Ok rs).
  { clear -Hpre Hf. induction Hpre as [|x pre (r & Hr) _ (rs & IH)].
    - exists []. reflexivity.
    - exists (r :: rs). cbn [traverse]. rewrite Hf.
      apply py_getitem_dict_Ok in Hr. rewrite Hr. cbn [bind]. rewrite IH. reflexivity. }
  destruct Hok as (rs & Hrs).
  rewrite (traverse_Raise f pre post i rs (KeyError i) Hrs); [reflexivity|].
  rewrite Hf. apply py_getitem_dict_KeyError; assumption.
Qed.

(** The whole method is the loop over the imports. *)
Lemma get_algeb_ext_loop (system : gmap string Device) (self_key : string) (self : Device)
    (items : list (key * pyval)) :
  getattr self "_algeb_ext" = Ok (PDict items) ->
  get_algeb_ext system self_key self
  = for_each (get_algeb_ext_item system self_key) items self.
Proof.
  intros Hext. unfold get_algeb_ext. rewrite Hext. cbn [bind py_len py_items].
  destruct (0 <? length items)%nat eqn:Hlen.
  - reflexivity.
  - destruct items as [|item items]; [reflexivity | discriminate Hlen].
Qed.

(** One import whose key is a parameter declared in [_foreign_keys]. *)
Lemma get_algeb_ext_item_foreign_key (system : gmap string Device) (self_key : string)
    (self ref : Device) (dest fkey var_name devname : string)
    (params fvals addrs syms daddrs dsyms : list pyval) (rs : list nat)
    (fks int own_addr own_sing : list (key * pyval)) (ref_addr sysobj : pyval) :
  getattr self "_param_int" = Ok (PList params) ->
  py_contains (PList params) (PStr fkey) = Ok true ->
  getattr self "_foreign_keys" = Ok (PDict fks) ->
  dict_lookup fks (KStr fkey) = Some (PStr devname) ->
  attrs self !! KStr fkey = Some (PList fvals) ->
  fvals <> [] ->
  getattr self "system" = Ok sysobj ->
  getattr self "_dae_address" = Ok (PDict own_addr) ->
  getattr self "_symbol_singleton" = Ok (PDict own_sing) ->
  dest <> "_dae_address"%string ->
  dest <> "_symbol_singleton"%string ->
  registry system self_key self !! lower devname = Some ref ->
  getattr ref "_int" = Ok (PDict int) ->
  Forall2 (fun id r => row_of int id (PInt (Z.of_nat r))) fvals rs ->
  getattr ref "_dae_address" = Ok ref_addr ->
  py_getitem ref_addr (PStr var_name) = Ok (PList addrs) ->
  Forall2 (fun r x => addrs !! r = Some x) rs daddrs ->
  attrs ref !! KStr var_name = Some (PList syms) ->
  Forall2 (fun r x => syms !! r = Some x) rs dsyms ->
  exists self',
    get_algeb_ext_item system self_key self (KStr dest, PList [PStr fkey; PStr var_name])
      = Ok self' /\
    attrs self' !! KStr dest = Some (PList dsyms) /\
    (exists own',
        getattr self' "_dae_address" = Ok (PDict own') /\
        dict_lookup own' (KStr dest) = Some (PList daddrs)) /\
    (exists sing',
        getattr self' "_symbol_singleton" = Ok (PDict sing') /\
        dict_lookup sing' (KStr dest) = Some (PExpr (Sym (Symbol var_name true)))).
Proof.
  intros Hpi Hin Hfk Hdev Hvals Hne Hsys Hown Hsing Hd1 Hd2 Href Hint Hrow
         Hra Hva Hda Hsy Hds.
  set (rows := map (fun r => PInt (Z.of_nat r)) rs).
  assert (Hrows : idx2int ref (PList fvals) = Ok (PList rows)).
  { apply (idx2int_rows ref int); [exact Hint|].
    unfold rows. apply Forall2_fmap_r. exact Hrow. }
  pose proof (system_getitem_registry _ _ _ _ _ _ Hsys Href) as Hreg.
  assert (Hrs : rs <> []).
  { intros ->. inversion Hrow. subst. contradiction. }
  assert (Htake : np_take (PList addrs) (PList rows) = Ok (PList daddrs)).
  { apply np_take_rows; assumption. }
  assert (Hknown : py_in_values (PDict fks) (PStr devname) = Ok true).
  { apply (py_in_values_lookup fks (KStr fkey) (KStr devname)); [exact Hdev | reflexivity]. }
  eexists. split; [|split; [|split]].
  - unfold get_algeb_ext_item. cbn [fst snd unpack2 py_iter bind].
    rewrite Hpi. cbn [bind]. rewrite Hin. cbn [bind].
    rewrite Hfk. cbn [bind py_getitem as_key]. rewrite Hdev. cbn [bind].
    unfold _get_int_of_element. rewrite Hfk. cbn [bind]. rewrite Hknown. cbn [bind].
    rewrite dict_getitem_str, Hvals. cbn [bind].
    repeat (first [ rewrite Hsys | rewrite Hreg | rewrite Hrows
                  | rewrite Hra | rewrite Hva | rewrite Htake | rewrite Hown ];
            cbn [bind py_lower fst snd py_fstring of_key py_setitem as_key]).
    unfold get_list_of_symbols_from_ext. cbn [py_lower bind py_iter].
    unfold rows at 1.
    rewrite (traverse_rows _ syms rs dsyms Hds).
    + cbn [bind smp_Array smp_symbols].
      rewrite getattr_setitem_ne by (discriminate || congruence).
      unfold setattr at 1.
      rewrite getattr_setitem_ne by (discriminate || congruence).
      rewrite Hsing. cbn [bind py_setitem as_key of_key]. reflexivity.
    + intros r x Hx. cbn beta.
      match goal with
      | |- context [system_getitem _ _ (setattr _ _ ?own') _] =>
          destruct (system_getitem_after_address system self_key self ref (lower devname)
                      var_name sysobj own' own_addr syms Hsys Hown Href Hsy)
            as (r' & Hr & Hrv)
      end.
      rewrite Hr. cbn [bind]. rewrite dict_getitem_str, Hrv. cbn [bind py_getitem].
      apply list_item_Ok, Hx.
  - rewrite setattr_lookup_ne by congruence.
    unfold dict_setitem. cbn [attrs]. apply lookup_insert_eq.
  - eexists. split.
    + unfold setattr. rewrite getattr_setitem_ne by (discriminate || congruence).
      rewrite getattr_setitem_ne by (discriminate || congruence).
      apply getattr_setattr_eq. discriminate.
    + apply dict_lookup_set_eq.
  - eexists. split.
    + apply getattr_setattr_eq. discriminate.
    + apply dict_lookup_set_eq.
Qed.

(** X4.  When the key of an import is a parameter declared in
    [_foreign_keys] and holds at least one value, [get_algeb_ext] follows
    the values of that parameter: element [i] of the import is the
    symbol, and its address the address, that the referenced device holds
    at the row of the [i]-th value, and the singleton of the import is
    the symbol named after the referenced variable.  The assertion of
    [_get_int_of_element] cannot fail on this path.  [ref] is the device
    the registry holds under the lower-cased device name, the importing
    device itself included; [self1] is the importing device as the
    imports declared before left it; the imports declared after keep the
    symbols. *)
Theorem get_algeb_ext_foreign_key_mapping (system : gmap string Device) (self_key : string)
    (self self1 ref : Device) (dest fkey var_name devname : string)
    (pre post : list (key * pyval))
    (params fvals addrs syms daddrs dsyms : list pyval) (rs : list nat)
    (fks int own_addr own_sing : list (key * pyval)) (ref_addr sysobj : pyval) :
  getattr self "_algeb_ext"
    = Ok (PDict (pre ++ (KStr dest, PList [PStr fkey; PStr var_name]) :: post)) ->
  NoDup (pre ++ (KStr dest, PList [PStr fkey; PStr var_name]) :: post).*1 ->
  for_each (get_algeb_ext_item system self_key) pre self = Ok self1 ->
  getattr self1 "_param_int" = Ok (PList params) ->
  py_contains (PList params) (PStr fkey) = Ok true ->
  getattr self1 "_foreign_keys" = Ok (PDict fks) ->
  dict_lookup fks (KStr fkey) = Some (PStr devname) ->
  attrs self1 !! KStr fkey = Some (PList fvals) ->
  fvals <> [] ->
  getattr self1 "system" = Ok sysobj ->
  getattr self1 "_dae_address" = Ok (PDict own_addr) ->
  getattr self1 "_symbol_singleton" = Ok (PDict own_sing) ->
  dest <> "_dae_address"%string ->
  dest <> "_symbol_singleton"%string ->
  registry system self_key self1 !! lower devname = Some ref ->
  getattr ref "_int" = Ok (PDict int) ->
  Forall2 (fun id r => row_of int id (PInt (Z.of_nat r))) fvals rs ->
  getattr ref "_dae_address" = Ok ref_addr ->
  py_getitem ref_addr (PStr var_name) = Ok (PList addrs) ->
  Forall2 (fun r x => addrs !! r = Some x) rs daddrs ->
  attrs ref !! KStr var_name = Some (PList syms) ->
  Forall2 (fun r x => syms !! r = Some x) rs dsyms ->
  exists self2,
    get_algeb_ext system self_key self
      = for_each (get_algeb_ext_item system self_key) post self2 /\
    attrs self2 !! KStr dest = Some (PList dsyms) /\
    (exists own',
        getattr self2 "_dae_address" = Ok (PDict own') /\
        dict_lookup own' (KStr dest) = Some (PList daddrs)) /\
    (exists sing',
        getattr self2 "_symbol_singleton" = Ok (PDict sing') /\
        dict_lookup sing' (KStr dest) = Some (PExpr (Sym (Symbol var_name true)))) /\
    forall self',
      get_algeb_ext system self_key self = Ok self' ->
      attrs self' !! KStr dest = Some (PList dsyms).
Proof.
  intros Hext Hnodup Hpre Hpi Hin Hfk Hdev Hvals Hne Hsys Hown Hsing Hd1 Hd2 Href
         Hint Hrow Hra Hva Hda Hsy Hds.
  destruct (get_algeb_ext_item_foreign_key system self_key self1 ref dest fkey var_name
              devname params fvals addrs syms daddrs dsyms rs fks int own_addr own_sing
              ref_addr sysobj
              Hpi Hin Hfk Hdev Hvals Hne Hsys Hown Hsing Hd1 Hd2 Href Hint Hrow
              Hra Hva Hda Hsy Hds)
    as (self2 & Hitem & Hdest & Haddr & Hsym).
  assert (Hrun : get_algeb_ext system self_key self
                 = for_each (get_algeb_ext_item system self_key) post self2).
  { rewrite (get_algeb_ext_loop _ _ _ _ Hext).
    rewrite for_each_app, Hpre. cbn [bind for_each]. rewrite Hitem. reflexivity. }
  exists self2. split; [exact Hrun|]. split; [exact Hdest|].
  split; [exact Haddr|]. split; [exact Hsym|].
  intros self' Hall. rewrite Hrun in Hall.
  rewrite (get_algeb_ext_loop_frame _ _ _ _ _ (KStr dest) Hall).
  - exact Hdest.
  - rewrite fmap_app in Hnodup. apply NoDup_app in Hnodup as (_ & _ & Hpost).
    cbn in Hpost. apply NoDup_cons in Hpost as (Hk & _). exact Hk.
  - congruence.
  - congruence.
Qed.

(** X5.  A foreign-key value that is equal to no identifier of the
    referenced device stops [get_algeb_ext]: it raises [KeyError]
    carrying the first such value, whatever the imports declared after it
    are. *)
Theorem get_algeb_ext_unknown_idx (system : gmap string Device) (self_key : string)
    (self self1 ref : Device) (dest : key) (fkey devname : string) (var_name bad : pyval)
    (pre post : list (key * pyval))
    (params known rest : list pyval)
    (fks int : list (key * pyval)) (sysobj : pyval) :
  getattr self "_algeb_ext"
    = Ok (PDict (pre ++ (dest, PList [PStr fkey; var_name]) :: post)) ->
  for_each (get_algeb_ext_item system self_key) pre self = Ok self1 ->
  getattr self1 "_param_int" = Ok (PList params) ->
  py_contains (PList params) (PStr fkey) = Ok true ->
  getattr self1 "_foreign_keys" = Ok (PDict fks) ->
  dict_lookup fks (KStr fkey) = Some (PStr devname) ->
  attrs self1 !! KStr fkey = Some (PList (known ++ bad :: rest)) ->
  getattr self1 "system" = Ok sysobj ->
  registry system self_key self1 !! lower devname = Some ref ->
  getattr ref "_int" = Ok (PDict int) ->
  Forall (fun x => exists r, row_of int x r) known ->
  hashable bad = true ->
  (forall r, ~ row_of int bad r) ->
  get_algeb_ext system self_key self = Raise (KeyError bad).
Proof.
  intros Hext Hpre Hpi Hin Hfk Hdev Hvals Hsys Href Hint Hknown Hh Hbad.
  rewrite (get_algeb_ext_loop _ _ _ _ Hext).
  rewrite for_each_app, Hpre. cbn [bind for_each].
  unfold get_algeb_ext_item. cbn [fst snd unpack2 py_iter bind].
  rewrite Hpi. cbn [bind]. rewrite Hin. cbn [bind].
  rewrite Hfk. cbn [bind py_getitem as_key]. rewrite Hdev. cbn [bind].
  unfold _get_int_of_element. rewrite Hfk. cbn [bind].
  rewrite (py_in_values_lookup fks (KStr fkey) (KStr devname) _ Hdev) by reflexivity.
  cbn [bind]. rewrite dict_getitem_str, Hvals. cbn [bind].
  rewrite Hsys. cbn [bind py_lower].
  rewrite (system_getitem_registry _ _ _ _ _ _ Hsys Href). cbn [bind].
  rewrite (idx2int_unknown ref int known rest bad Hint Hknown Hh Hbad). reflexivity.
Qed.

(** X6.  An import whose key is a parameter of the device but has no
    entry in [_foreign_keys] stops [get_algeb_ext] with [KeyError] on that
    key: a parameter is never taken as a device name. *)
Theorem get_algeb_ext_undeclared_foreign_key (system : gmap string Device)
    (self_key : string) (self self1 : Device) (dest : key) (fkey : string) (var_name : pyval)
    (pre post : list (key * pyval)) (params : list pyval) (fks : list (key * pyval)) :
  getattr self "_algeb_ext"
    = Ok (PDict (pre ++ (dest, PList [PStr fkey; var_name]) :: post)) ->
  for_each (get_algeb_ext_item system self_key) pre self = Ok self1 ->
  getattr self1 "_param_int" = Ok (PList params) ->
  py_contains (PList params) (PStr fkey) = Ok true ->
  getattr self1 "_foreign_keys" = Ok (PDict fks) ->
  dict_lookup fks (KStr fkey) = None ->
  get_algeb_ext system self_key self = Raise (KeyError (PStr fkey)).
Proof.
  intros Hext Hpre Hpi Hin Hfk Hdev.
  rewrite (get_algeb_ext_loop _ _ _ _ Hext).
  rewrite for_each_app, Hpre. cbn [bind for_each].
  unfold get_algeb_ext_item. cbn [fst snd unpack2 py_iter bind].
  rewrite Hpi. cbn [bind]. rewrite Hin. cbn [bind].
  rewrite Hfk. cbn [bind py_getitem as_key]. rewrite Hdev. reflexivity.
Qed.

Lemma get_algeb_ext_item_cls (system : gmap string Device) (self_key : string)
    (self self' : Device) (item : key * pyval) :
  get_algeb_ext_item system self_key self item = Ok self' ->
  cls self' = cls self.
Proof.
  unfold get_algeb_ext_item. cbv zeta. intros H.
  repeat (apply bind_Ok in H as (? & _ & H)).
  injection H as <-. reflexivity.
Qed.

(** X7.  [get_algeb_ext] writes under the names of the imports and into
    [_dae_address] and [_symbol_singleton], nowhere else: every other
    entry of the instance, and its class, are as before. *)
Theorem get_algeb_ext_frame (system : gmap string Device) (self_key : string)
    (self self' : Device) (items : list (key * pyval)) :
  getattr self "_algeb_ext" = Ok (PDict items) ->
  get_algeb_ext system self_key self = Ok self' ->
  cls self' = cls self /\
  forall k,
    k ∉ items.*1 ->
    k <> KStr "_dae_address" ->
    k <> KStr "_symbol_singleton" ->
    attrs self' !! k = attrs self !! k.
Proof.
  intros Hext Hrun. rewrite (get_algeb_ext_loop _ _ _ _ Hext) in Hrun. split.
  - clear Hext. revert self Hrun. induction items as [|item items IH]; intros self Hrun.
    + cbn [for_each] in Hrun. injection Hrun as <-. reflexivity.
    + cbn [for_each] in Hrun. apply bind_Ok in Hrun as (s1 & Hitem & Hrun).
      rewrite (IH s1 Hrun). apply (get_algeb_ext_item_cls _ _ _ _ _ Hitem).
  - intros k Hk Ha Hs. apply (get_algeb_ext_loop_frame _ _ _ _ _ k Hrun Hk Ha Hs).
Qed.


(** *** What an expansion reads *)

Lemma traverse_ext {A B : Type} (f g : A -> result B) (l : list A) :
  (forall x, x ∈ l -> f x = g x) ->
  traverse f l = traverse g l.
Proof.
  induction l as [|x l IH]; intros Hfg.
  - reflexivity.
  - cbn [traverse]. rewrite Hfg by (apply elem_of_cons; left; reflexivity).
    rewrite IH; [reflexivity|].
    intros y Hy. apply Hfg. apply elem_of_cons. right. exact Hy.
Qed.

Lemma dict_getitem_agree (s1 s2 : Device) (a : string) :
  attrs s1 !! KStr a = attrs s2 !! KStr a ->
  dict_getitem s1 (PStr a) = dict_getitem s2 (PStr a).
Proof. intros H. rewrite !dict_getitem_str, H. reflexivity. Qed.

Lemma sym_list_at_agree (s1 s2 : Device) (i : nat) (syms : list symbol) :
  (forall x, x ∈ syms -> attrs s1 !! KStr (str x) = attrs s2 !! KStr (str x)) ->
  sym_list_at s1 i syms = sym_list_at s2 i syms.
Proof.
  induction syms as [|x syms IH]; intros Hag.
  - reflexivity.
  - cbn [sym_list_at].
    rewrite (dict_getitem_agree s1 s2 (str x))
      by (apply Hag, elem_of_cons; left; reflexivity).
    rewrite IH; [reflexivity|].
    intros y Hy. apply Hag, elem_of_cons. right. exact Hy.
Qed.

Lemma subs_all_vectorized_agree (s1 s2 : Device) (e : expr) (return_as : return_type) :
  (forall x, x ∈ free_symbols e -> attrs s1 !! KStr (str x) = attrs s2 !! KStr (str x)) ->
  _subs_all_vectorized s1 (PExpr e) return_as = _subs_all_vectorized s2 (PExpr e) return_as.
Proof.
  intros Hag.
  assert (Hag' : forall x, x ∈ set_iter (free_symbols e) ->
                           attrs s1 !! KStr (str x) = attrs s2 !! KStr (str x)).
  { intros x Hx. apply Hag. rewrite (set_iter_perm (free_symbols e)) in Hx. exact Hx. }
  unfold _subs_all_vectorized. cbn [py_free_symbols bind].
  assert (Hlens : quantity_lengths s1 (set_iter (free_symbols e))
                  = quantity_lengths s2 (set_iter (free_symbols e))).
  { unfold quantity_lengths. apply traverse_ext. intros x Hx. cbn beta.
    rewrite (dict_getitem_agree s1 s2 (str x)) by (apply Hag', Hx). reflexivity. }
  rewrite Hlens.
  destruct (quantity_lengths s2 (set_iter (free_symbols e))) as [lens|err];
    cbn [bind]; [|reflexivity].
  destruct (py_min lens) as [k|err]; cbn [bind]; [|reflexivity].
  rewrite (traverse_ext
             (fun i => let* sym_list := sym_list_at s1 i (set_iter (free_symbols e)) in
                       py_subs (PExpr e) sym_list)
             (fun i => let* sym_list := sym_list_at s2 i (set_iter (free_symbols e)) in
                       py_subs (PExpr e) sym_list)); [reflexivity|].
  intros i _. cbn beta. rewrite (sym_list_at_agree s1 s2 i _ Hag'). reflexivity.
Qed.

Lemma subs_all_singleton_agree (s1 s2 : Device) (e : expr) (return_as : return_type) :
  (forall x, x ∈ free_symbols e -> attrs s1 !! KStr (str x) = attrs s2 !! KStr (str x)) ->
  _subs_all_singleton s1 (PExpr e) return_as = _subs_all_singleton s2 (PExpr e) return_as.
Proof.
  intros Hag.
  assert (Hag' : forall x, x ∈ set_iter (free_symbols e) ->
                           attrs s1 !! KStr (str x) = attrs s2 !! KStr (str x)).
  { intros x Hx. apply Hag. rewrite (set_iter_perm (free_symbols e)) in Hx. exact Hx. }
  unfold _subs_all_singleton. cbn [py_free_symbols bind].
  rewrite (traverse_ext
             (fun symbol => let* q := dict_getitem s1 (PStr (str symbol)) in Ok (symbol, q))
             (fun symbol => let* q := dict_getitem s2 (PStr (str symbol)) in Ok (symbol, q)));
    [reflexivity|].
  intros x Hx. cbn beta.
  rewrite (dict_getitem_agree s1 s2 (str x)) by (apply Hag', Hx). reflexivity.
Qed.

(** X8.  An expansion reads the quantities its template mentions and
    nothing else: on two devices that agree on the entries named by the
    free symbols of the template, [_subs_all_vectorized] and
    [_subs_all_singleton] return the same result, or raise the same
    exception. *)
Theorem subs_all_reads_free_symbols_only (s1 s2 : Device) (e : expr)
    (return_as : return_type) :
  (forall x, x ∈ free_symbols e -> attrs s1 !! KStr (str x) = attrs s2 !! KStr (str x)) ->
  _subs_all_vectorized s1 (PExpr e) return_as = _subs_all_vectorized s2 (PExpr e) return_as /\
  _subs_all_singleton s1 (PExpr e) return_as = _subs_all_singleton s2 (PExpr e) return_as.
Proof.
  intros Hag. split.
  - apply subs_all_vectorized_agree, Hag.
  - apply subs_all_singleton_agree, Hag.
Qed.

(** The same for any value handed in as a template: what is no
    expression is refused before the device is read. *)
Lemma subs_all_agree (s1 s2 : Device) (eq : pyval) (subs_type : string)
    (return_as : return_type) :
  (forall e x, eq = PExpr e -> x ∈ free_symbols e ->
     attrs s1 !! KStr (str x) = attrs s2 !! KStr (str x)) ->
  (if decide (subs_type = "vectorized"%string)
   then _subs_all_vectorized s1 eq return_as
   else _subs_all_singleton s1 eq return_as)
  = (if decide (subs_type = "vectorized"%string)
     then _subs_all_vectorized s2 eq return_as
     else _subs_all_singleton s2 eq return_as).
Proof.
  intros Hag.
  destruct eq as [| | | | |e| | |];
    try (destruct (decide (subs_type = "vectorized"%string)); reflexivity).
  destruct (decide (subs_type = "vectorized"%string)) as [_|_].
  - apply subs_all_vectorized_agree. intros x Hx. apply (Hag e x eq_refl Hx).
  - apply subs_all_singleton_agree. intros x Hx. apply (Hag e x eq_refl Hx).
Qed.

(** *** Delayed substitution with [update] *)

Lemma dict_lookup_not_key (d : list (key * pyval)) (k : key) :
  k ∉ d.*1 -> dict_lookup d k = None.
Proof.
  induction d as [|[k0 v0] d IH]; intros Hk.
  - reflexivity.
  - rewrite dict_lookup_cons. destruct (decide (k0 = k)) as [->|Hne].
    + exfalso. apply Hk. cbn. apply elem_of_cons. left. reflexivity.
    + apply IH. intros Hin. apply Hk. cbn. apply elem_of_cons. right. exact Hin.
Qed.

Lemma delayed_symbol_sub_update_loop (out_name subs_type : string)
    (output_type : return_type) (self0 : Device) (items : list (key * pyval))
    (s s' : Device) (outd : list (key * pyval)) :
  (forall k, k <> KStr out_name -> attrs s !! k = attrs self0 !! k) ->
  attrs s !! KStr out_name = Some (PDict outd) ->
  NoDup items.*1 ->
  (forall p e x, p ∈ items -> snd p = PExpr e -> x ∈ free_symbols e -> str x <> out_name) ->
  for_each (delayed_symbol_sub_item out_name subs_type output_type true) items s = Ok s' ->
  exists outd',
    attrs s' !! KStr out_name = Some (PDict outd') /\
    (forall p, p ∈ items ->
       exists v,
         (if decide (subs_type = "vectorized"%string)
          then _subs_all_vectorized self0 (snd p) output_type
          else _subs_all_singleton self0 (snd p) output_type) = Ok v /\
         dict_lookup outd' (fst p) = Some v) /\
    (forall k, k ∉ items.*1 -> dict_lookup outd' k = dict_lookup outd k) /\
    (forall k, k <> KStr out_name -> attrs s' !! k = attrs self0 !! k).
Proof.
  revert s outd. induction items as [|[var eq] items IH]; intros s outd Hag Hout Hnd Hfree Hrun.
  - cbn [for_each] in Hrun. injection Hrun as <-. exists outd.
    split; [exact Hout|]. split; [|split; [reflexivity | exact Hag]].
    intros p Hp. inversion Hp.
  - cbn [for_each] in Hrun. apply bind_Ok in Hrun as (s1 & Hstep & Hrun).
    cbn in Hnd. apply NoDup_cons in Hnd as (Hvar & Hnd).
    unfold delayed_symbol_sub_item in Hstep. cbn [fst snd bind] in Hstep.
    apply bind_Ok in Hstep as (value & Hvalue & Hstep).
    rewrite dict_getitem_str, Hout in Hstep. cbn [bind py_setitem] in Hstep.
    rewrite as_key_of_key in Hstep. injection Hstep as <-.
    assert (Hvalue0 : (if decide (subs_type = "vectorized"%string)
                       then _subs_all_vectorized self0 eq output_type
                       else _subs_all_singleton self0 eq output_type) = Ok value).
    { rewrite <- Hvalue. symmetry. apply subs_all_agree.
      intros e x He Hx. apply Hag.
      assert (Hne : str x <> out_name).
      { apply (Hfree (var, eq) e x); [apply elem_of_cons; left; reflexivity | exact He | exact Hx]. }
      congruence. }
    destruct (IH (dict_setitem s (KStr out_name) (PDict (dict_set outd var value)))
                (dict_set outd var value))
      as (outd' & Hout' & Hitems & Hother & Hframe).
    + intros k Hk. unfold dict_setitem. cbn [attrs].
      rewrite lookup_insert_ne by congruence. apply Hag, Hk.
    + unfold dict_setitem. cbn [attrs]. apply lookup_insert_eq.
    + exact Hnd.
    + intros p e x Hp. apply Hfree. apply elem_of_cons. right. exact Hp.
    + exact Hrun.
    + exists outd'. split; [exact Hout'|]. split; [|split; [|exact Hframe]].
      * intros p Hp. apply elem_of_cons in Hp as [->|Hp]; [|apply Hitems, Hp].
        exists value. split; [exact Hvalue0|]. cbn [fst].
        rewrite (Hother var Hvar). apply dict_lookup_set_eq.
      * intros k Hk. rewrite Hother.
        -- apply dict_lookup_set_ne. intros ->. apply Hk. cbn.
           apply elem_of_cons. left. reflexivity.
        -- intros Hin. apply Hk. cbn. apply elem_of_cons. right. exact Hin.
Qed.

(** X9.  With [update], [delayed_symbol_sub] recomputes every key of the
    input dictionary: when it returns, the output dictionary holds for
    each of them the expansion of its template on the device as it was
    before the call, whatever it held before; the other keys of the output
    dictionary and the other entries of the instance are as before.  The
    templates are taken not to mention the output dictionary by name. *)
Theorem delayed_symbol_sub_update_recomputes (self self' : Device)
    (in_dict_name out_dict_name subs_type : string) (output_type : return_type)
    (items outd : list (key * pyval)) :
  attrs self !! KStr in_dict_name = Some (PDict items) ->
  NoDup items.*1 ->
  attrs self !! KStr out_dict_name = Some (PDict outd) ->
  (forall p e x, p ∈ items -> snd p = PExpr e -> x ∈ free_symbols e ->
     str x <> out_dict_name) ->
  delayed_symbol_sub self in_dict_name out_dict_name subs_type output_type true = Ok self' ->
  exists outd',
    attrs self' !! KStr out_dict_name = Some (PDict outd') /\
    (forall p, p ∈ items ->
       exists v,
         (if decide (subs_type = "vectorized"%string)
          then _subs_all_vectorized self (snd p) output_type
          else _subs_all_singleton self (snd p) output_type) = Ok v /\
         dict_lookup outd' (fst p) = Some v) /\
    (forall k, k ∉ items.*1 -> dict_lookup outd' k = dict_lookup outd k) /\
    (forall k, k <> KStr out_dict_name -> attrs self' !! k = attrs self !! k).
Proof.
  intros Hin Hnd Hout Hfree Hrun. unfold delayed_symbol_sub in Hrun.
  destruct (decide (subs_type ∈ ["vectorized"%string; "singleton"%string])) as [_|_];
    [|discriminate Hrun].
  rewrite dict_getitem_str, Hin in Hrun. cbn [bind py_items] in Hrun.
  apply (delayed_symbol_sub_update_loop out_dict_name subs_type output_type self items
           self self' outd); try assumption.
  reflexivity.
Qed.


(** *** Symbolic equations *)

Lemma dict_lookup_set_keeps (d : list (key * pyval)) (k k' : key) (v : pyval) :
  is_Some (dict_lookup d k') -> is_Some (dict_lookup (dict_set d k v) k').
Proof.
  intros Hk'. destruct (decide (k = k')) as [->|Hne].
  - rewrite dict_lookup_set_eq. eexists. reflexivity.
  - rewrite dict_lookup_set_ne by exact Hne. exact Hk'.
Qed.

Lemma dict_lookup_Some_elem_of (d : list (key * pyval)) (k : key) (v : pyval) :
  dict_lookup d k = Some v -> (k, v) ∈ d.
Proof.
  induction d as [|[k0 v0] d IH]; intros Hk.
  - discriminate Hk.
  - rewrite dict_lookup_cons in Hk. destruct (decide (k0 = k)) as [->|Hne].
    + injection Hk as ->. apply elem_of_cons. left. reflexivity.
    + apply elem_of_cons. right. apply IH, Hk.
Qed.

(** [d.update(...)] key by key: the last value given for a key is the one
    found, and the keys not given keep theirs. *)
Lemma dict_update_lookup (g : pyval -> pyval) (items out : list (key * pyval)) (k : key) :
  NoDup items.*1 ->
  dict_lookup (fold_left (fun d p => dict_set d (fst p) (g (snd p))) items out) k
  = match dict_lookup items k with
    | Some eq => Some (g eq)
    | None => dict_lookup out k
    end.
Proof.
  revert out. induction items as [|[k0 v0] items IH]; intros out Hnd.
  - reflexivity.
  - cbn in Hnd. apply NoDup_cons in Hnd as (Hk0 & Hnd).
    cbn [fold_left fst snd]. rewrite (IH _ Hnd). rewrite dict_lookup_cons.
    destruct (decide (k0 = k)) as [->|Hne].
    + rewrite (dict_lookup_not_key items k Hk0). apply dict_lookup_set_eq.
    + destruct (dict_lookup items k); [reflexivity|].
      apply dict_lookup_set_ne, Hne.
Qed.

Lemma make_gcall_symbolic_loop (out_name : string) (parse : pyval -> expr)
    (items : list (key * pyval)) (self : Device) (out : list (key * pyval)) :
  out_name <> "n"%string ->
  attrs self !! KStr out_name = Some (PDict out) ->
  (forall p, p ∈ items -> sympify (snd p) = Ok (parse (snd p))) ->
  exists self',
    for_each (make_gcall_symbolic_item out_name) items self = Ok self' /\
    attrs self' !! KStr out_name
      = Some (PDict (fold_left (fun d p => dict_set d (fst p) (PExpr (parse (snd p))))
                       items out)) /\
    (forall k, k <> KStr out_name -> attrs self' !! k = attrs self !! k).
Proof.
  intros Hn. revert self out. induction items as [|[var eq] items IH]; intros self out Hout Hsym.
  - exists self. split; [reflexivity|]. split; [exact Hout | reflexivity].
  - destruct (IH (setattr self out_name (PDict (dict_set out var (PExpr (parse eq)))))
                (dict_set out var (PExpr (parse eq))))
      as (self' & Hrun & Hout' & Hframe).
    + apply setattr_lookup_eq.
    + intros p Hp. apply Hsym. apply elem_of_cons. right. exact Hp.
    + exists self'. split; [|split].
      * cbn [for_each]. unfold make_gcall_symbolic_item at 1. cbn [fst snd].
        assert (Hs : sympify eq = Ok (parse eq)).
        { apply (Hsym (var, eq)). apply elem_of_cons. left. reflexivity. }
        rewrite Hs. cbn [bind snd]. rewrite (getattr_instance self out_name _ Hn Hout).
        cbn [bind py_setitem]. rewrite as_key_of_key. cbn [bind]. exact Hrun.
      * exact Hout'.
      * intros k Hk. rewrite (Hframe k Hk). unfold setattr, dict_setitem. cbn [attrs].
        apply lookup_insert_ne. congruence.
Qed.

Lemma make_gcall_symbolic_loop_inv (out_name : string) (items : list (key * pyval))
    (self self' : Device) (out : list (key * pyval)) :
  out_name <> "n"%string ->
  attrs self !! KStr out_name = Some (PDict out) ->
  for_each (make_gcall_symbolic_item out_name) items self = Ok self' ->
  exists out',
    attrs self' !! KStr out_name = Some (PDict out') /\
    (forall p, p ∈ items -> is_Some (dict_lookup out' (fst p))) /\
    (forall k, is_Some (dict_lookup out k) -> is_Some (dict_lookup out' k)) /\
    (forall k, k <> KStr out_name -> attrs self' !! k = attrs self !! k).
Proof.
  intros Hn. revert self out. induction items as [|[var eq] items IH]; intros self out Hout Hrun.
  - cbn [for_each] in Hrun. injection Hrun as <-. exists out.
    split; [exact Hout|]. split; [|split; [auto | reflexivity]].
    intros p Hp. inversion Hp.
  - cbn [for_each] in Hrun. apply bind_Ok in Hrun as (s1 & Hstep & Hrun).
    unfold make_gcall_symbolic_item in Hstep. cbn [fst snd] in Hstep.
    apply bind_Ok in Hstep as (e & _ & Hstep).
    rewrite (getattr_instance self out_name _ Hn Hout) in Hstep.
    cbn [bind py_setitem] in Hstep. rewrite as_key_of_key in Hstep.
    cbn [bind] in Hstep. injection Hstep as <-.
    destruct (IH (setattr self out_name (PDict (dict_set out var (PExpr e))))
                (dict_set out var (PExpr e)) (setattr_lookup_eq _ _ _) Hrun)
      as (out' & Hout' & Hall & Hkeep & Hframe).
    exists out'. split; [exact Hout'|]. split; [|split].
    + intros p Hp. apply elem_of_cons in Hp as [->|Hp]; [|apply Hall, Hp].
      cbn [fst]. apply Hkeep. rewrite dict_lookup_set_eq. eexists. reflexivity.
    + intros k Hk. apply Hkeep, dict_lookup_set_keeps, Hk.
    + intros k Hk. rewrite (Hframe k Hk). unfold setattr, dict_setitem. cbn [attrs].
      apply lookup_insert_ne. congruence.
Qed.

(** X10.  [make_gcall_int_symbolic] binds every key of [_gcall_int], in
    [_gcall_int_symbolic_singleton], to what [sympify] makes of its
    equation; the keys of that dictionary that [_gcall_int] does not have
    keep their entries, and no other entry of the instance changes. *)
Theorem make_gcall_int_symbolic_binds (self : Device) (items out : list (key * pyval))
    (parse : pyval -> expr) :
  attrs self !! KStr "_gcall_int" = Some (PDict items) ->
  NoDup items.*1 ->
  attrs self !! KStr "_gcall_int_symbolic_singleton" = Some (PDict out) ->
  (forall p, p ∈ items -> sympify (snd p) = Ok (parse (snd p))) ->
  exists self' out',
    make_gcall_int_symbolic self = Ok self' /\
    attrs self' !! KStr "_gcall_int_symbolic_singleton" = Some (PDict out') /\
    (forall k, dict_lookup out' k
               = match dict_lookup items k with
                 | Some eq => Some (PExpr (parse eq))
                 | None => dict_lookup out k
                 end) /\
    (forall k, k <> KStr "_gcall_int_symbolic_singleton" ->
               attrs self' !! k = attrs self !! k).
Proof.
  intros Hin Hnd Hout Hsym.
  destruct (make_gcall_symbolic_loop "_gcall_int_symbolic_singleton" parse items self out)
    as (self' & Hrun & Hout' & Hframe); [discriminate | exact Hout | exact Hsym |].
  exists self'. eexists. split; [|split; [exact Hout'|split; [|exact Hframe]]].
  - unfold make_gcall_int_symbolic.
    rewrite (getattr_instance self "_gcall_int" (PDict items)) by (discriminate || exact Hin).
    cbn [bind py_items]. exact Hrun.
  - intros k. apply (dict_update_lookup (fun eq => PExpr (parse eq)) items out k Hnd).
Qed.

(** X11.  The equations stay whole through the symbolic passes.  When
    [make_gcall_int_symbolic], [make_gcall_ext_symbolic] and
    [delayed_symbol_sub_all] have run in this order, every key of
    [_gcall_ext] is a key of [_gcall_ext_symbolic] and every key of
    [_gcall_int] a key of [_gcall_int_symbolic], and what the two output
    dictionaries held before is still there. *)
Theorem symbolic_passes_cover_equations (self s1 s2 s3 : Device)
    (ext_items int_items ext_sing int_sing ext_out int_out : list (key * pyval)) :
  attrs self !! KStr "_gcall_ext" = Some (PDict ext_items) ->
  attrs self !! KStr "_gcall_int" = Some (PDict int_items) ->
  attrs self !! KStr "_gcall_ext_symbolic_singleton" = Some (PDict ext_sing) ->
  attrs self !! KStr "_gcall_int_symbolic_singleton" = Some (PDict int_sing) ->
  attrs self !! KStr "_gcall_ext_symbolic" = Some (PDict ext_out) ->
  attrs self !! KStr "_gcall_int_symbolic" = Some (PDict int_out) ->
  make_gcall_int_symbolic self = Ok s1 ->
  make_gcall_ext_symbolic s1 = Ok s2 ->
  delayed_symbol_sub_all s2 = Ok s3 ->
  exists ext_out' int_out',
    attrs s3 !! KStr "_gcall_ext_symbolic" = Some (PDict ext_out') /\
    attrs s3 !! KStr "_gcall_int_symbolic" = Some (PDict int_out') /\
    (forall p, p ∈ ext_items -> is_Some (dict_lookup ext_out' (fst p))) /\
    (forall p, p ∈ int_items -> is_Some (dict_lookup int_out' (fst p))) /\
    (forall k v, dict_lookup ext_out k = Some v -> dict_lookup ext_out' k = Some v) /\
    (forall k v, dict_lookup int_out k = Some v -> dict_lookup int_out' k = Some v).
Proof.
  intros Hext Hint Hes His Heo Hio H1 H2 H3.
  (* the internal equations *)
  unfold make_gcall_int_symbolic in H1.
  rewrite (getattr_instance self "_gcall_int" (PDict int_items)) in H1
    by (discriminate || exact Hint).
  cbn [bind py_items] in H1.
  destruct (make_gcall_symbolic_loop_inv "_gcall_int_symbolic_singleton" int_items self s1
              int_sing) as (int_sing' & His1 & Hint_all & _ & Hframe1);
    [discriminate | exact His | exact H1 |].
  (* the external equations *)
  unfold make_gcall_ext_symbolic in H2.
  rewrite (getattr_instance s1 "_gcall_ext" (PDict ext_items)) in H2
    by (discriminate || (rewrite Hframe1 by discriminate; exact Hext)).
  cbn [bind py_items] in H2.
  destruct (make_gcall_symbolic_loop_inv "_gcall_ext_symbolic_singleton" ext_items s1 s2
              ext_sing) as (ext_sing' & Hes2 & Hext_all & _ & Hframe2);
    [discriminate | rewrite Hframe1 by discriminate; exact Hes | exact H2 |].
  (* the expansion of the external equations *)
  unfold delayed_symbol_sub_all in H3. apply bind_Ok in H3 as (s2' & H3e & H3i).
  unfold delayed_symbol_sub in H3e, H3i.
  destruct (decide ("vectorized"%string ∈ ["vectorized"%string; "singleton"%string]))
    as [_|Hno]; [|exfalso; apply Hno, elem_of_cons; left; reflexivity].
  rewrite dict_getitem_str, Hes2 in H3e. cbn [bind py_items] in H3e.
  destruct (delayed_symbol_sub_loop "_gcall_ext_symbolic" "vectorized" (AsCall smp_Array)
              ext_sing' s2 s2' ext_out)
    as (ext_out' & Heo' & Hekeep & Heall & Hframe3);
    [rewrite Hframe2 by discriminate; rewrite Hframe1 by discriminate; exact Heo
    | exact H3e |].
  (* the expansion of the internal equations *)
  rewrite dict_getitem_str in H3i.
  rewrite (Hframe3 (KStr "_gcall_int_symbolic_singleton")) in H3i by discriminate.
  rewrite (Hframe2 (KStr "_gcall_int_symbolic_singleton")) in H3i by discriminate.
  rewrite His1 in H3i. cbn [bind py_items] in H3i.
  destruct (delayed_symbol_sub_loop "_gcall_int_symbolic" "vectorized" (AsCall smp_Array)
              int_sing' s2' s3 int_out)
    as (int_out' & Hio' & Hikeep & Hiall & Hframe4);
    [rewrite Hframe3 by discriminate; rewrite Hframe2 by discriminate;
     rewrite Hframe1 by discriminate; exact Hio
    | exact H3i |].
  exists ext_out', int_out'.
  split; [rewrite Hframe4 by discriminate; exact Heo'|].
  split; [exact Hio'|].
  split; [|split; [|split; [exact Hekeep | exact Hikeep]]].
  - intros p Hp. destruct (Hext_all p Hp) as (v & Hv).
    apply dict_lookup_Some_elem_of in Hv. apply (Heall _ Hv).
  - intros p Hp. destruct (Hint_all p Hp) as (v & Hv).
    apply dict_lookup_Some_elem_of in Hv. apply (Hiall _ Hv).
Qed.

(** *** Computed variables *)

(** X12.  [_compute_variable] accepts a declaration only as a list of one
    to three items whose compute type, when given, is ['vectorized'] or
    ['singleton'].  At the first declaration that is anything else, a bare
    equation string included, it raises [NotImplementedError]; for an
    unknown compute type it does so after the equation was parsed. *)
Theorem compute_variable_unsupported_declaration (self self1 : Device) (k : key)
    (decl : pyval) (pre post : list (key * pyval)) :
  getattr self "_var_int_computed" = Ok (PDict (pre ++ (k, decl) :: post)) ->
  for_each _compute_variable_item pre self = Ok self1 ->
  (forall items, decl = PList items -> length items = 0%nat \/ (3 < length items)%nat) \/
  (exists eq compute_type rest e,
      decl = PList (eq :: compute_type :: rest) /\
      (length rest <= 1)%nat /\
      non_commutative_sympify eq = Ok e /\
      compute_type <> PStr "vectorized" /\
      compute_type <> PStr "singleton") ->
  _compute_variable self = Raise NotImplementedError.
Proof.
  intros Hattr Hpre Hdecl. unfold _compute_variable.
  rewrite Hattr. cbn [bind py_len py_items].
  destruct (0 <? length (pre ++ (k, decl) :: post))%nat eqn:Hlen.
  2:{ apply Nat.ltb_ge in Hlen. rewrite length_app in Hlen. cbn [length] in Hlen. lia. }
  rewrite for_each_app, Hpre. cbn [bind for_each].
  unfold _compute_variable_item at 1. cbn [fst snd].
  destruct Hdecl as [Hshape | (eq & ct & rest & e & -> & Hrest & Hparse & Hv & Hs)].
  - destruct decl as [| | | | | |items|entries|]; try reflexivity.
    destruct (Hshape items eq_refl) as [H0|H3].
    + destruct items; [reflexivity | discriminate H0].
    + destruct items as [|a [|b [|c [|d items]]]]; cbn [length] in H3; try lia.
      reflexivity.
  - assert (Hct : py_eq_str ct "vectorized" = false /\ py_eq_str ct "singleton" = false).
    { destruct ct as [| | | |t| | | |]; try (split; reflexivity).
      cbn [py_eq_str]. split; apply bool_decide_eq_false; congruence. }
    destruct Hct as (Hct1 & Hct2).
    destruct rest as [|rt [|x rest]]; [| |cbn [length] in Hrest; lia].
    + cbn [unpack_computed bind fst snd]. rewrite Hparse. cbn [bind].
      rewrite Hct1, Hct2. reflexivity.
    + cbn [unpack_computed bind fst snd]. rewrite Hparse. cbn [bind].
      rewrite Hct1, Hct2. reflexivity.
Qed.

(** *** Equation storage *)

Lemma n_agree (s1 s2 : Device) (count : nat) :
  attrs s1 !! KStr "idx" = attrs s2 !! KStr "idx" ->
  n s2 = Ok count ->
  n s1 = Ok count.
Proof.
  unfold n. intros ->. destruct (attrs s2 !! KStr "idx"); [auto | discriminate].
Qed.

Lemma init_equation_loop (names : list string) (self : Device) (count : nat) :
  n self = Ok count ->
  exists self',
    for_each _init_equation_item (map PStr names) self = Ok self' /\
    n self' = Ok count /\
    (forall x, x ∈ names ->
       attrs self' !! KStr (String.append "_" x) = Some (zeros (Z.of_nat count))) /\
    (forall k, (forall x, x ∈ names -> k <> KStr (String.append "_" x)) ->
       attrs self' !! k = attrs self !! k).
Proof.
  revert self. induction names as [|x0 names IH]; intros self Hn.
  - exists self. split; [reflexivity|]. split; [exact Hn|]. split; [|reflexivity].
    intros x Hx. inversion Hx.
  - set (s1 := dict_setitem self (KStr (String.append "_" x0)) (zeros (Z.of_nat count))).
    assert (Hn1 : n s1 = Ok count).
    { apply (n_agree s1 self); [|exact Hn]. unfold s1, dict_setitem. cbn [attrs].
      apply lookup_insert_ne. discriminate. }
    destruct (IH s1 Hn1) as (self' & Hrun & Hn' & Hslots & Hframe).
    exists self'. split; [|split; [exact Hn'|split]].
    + cbn [map for_each]. unfold _init_equation_item at 1. cbn [py_fstring bind].
      rewrite Hn. cbn [bind]. exact Hrun.
    + intros x Hx. destruct (decide (x ∈ names)) as [Hin|Hnin]; [apply Hslots, Hin|].
      apply elem_of_cons in Hx as [->|Hx]; [|contradiction].
      rewrite Hframe.
      * unfold s1, dict_setitem. cbn [attrs]. apply lookup_insert_eq.
      * intros y Hy Heq. apply Hnin.
        change (KStr (String "_" x0) = KStr (String "_" y)) in Heq.
        assert (Hxy : x0 = y) by congruence. rewrite Hxy. exact Hy.
    + intros k Hk. rewrite Hframe.
      * unfold s1, dict_setitem. cbn [attrs]. apply lookup_insert_ne.
        apply not_eq_sym, Hk. apply elem_of_cons. left. reflexivity.
      * intros y Hy. apply Hk. apply elem_of_cons. right. exact Hy.
Qed.

(** X13.  On a device with elements, [_init_equation] gives every
    variable named in [_algeb_int], [_algeb_intf] and [_state_int] a
    storage array under its name prefixed with an underscore, of one
    integer [0] per element; the element count and every other entry of
    the instance are as before. *)
Theorem init_equation_zero_slots (self : Device)
    (algeb_int algeb_intf state_int : list string) (count : nat) :
  getattr self "_algeb_int" = Ok (PList (map PStr algeb_int)) ->
  getattr self "_algeb_intf" = Ok (PList (map PStr algeb_intf)) ->
  getattr self "_state_int" = Ok (PList (map PStr state_int)) ->
  n self = Ok count ->
  (0 < count)%nat ->
  exists self',
    _init_equation self = Ok self' /\
    n self' = Ok count /\
    (forall x, x ∈ (algeb_int ++ algeb_intf) ++ state_int ->
       attrs self' !! KStr (String.append "_" x)
       = Some (PList (replicate count (PInt 0)))) /\
    (forall k,
       (forall x, x ∈ (algeb_int ++ algeb_intf) ++ state_int ->
                  k <> KStr (String.append "_" x)) ->
       attrs self' !! k = attrs self !! k).
Proof.
  intros Ha Hb Hc Hn _.
  destruct (init_equation_loop ((algeb_int ++ algeb_intf) ++ state_int) self count Hn)
    as (self' & Hrun & Hn' & Hslots & Hframe).
  exists self'. split; [|split; [exact Hn'|split; [|exact Hframe]]].
  - unfold _init_equation. rewrite Ha. cbn [bind]. rewrite Hb. cbn [bind py_add].
    rewrite Hc. cbn [bind py_add py_iter]. rewrite <- !map_app. exact Hrun.
  - intros x Hx. rewrite (Hslots x Hx). unfold zeros. rewrite Nat2Z.id. reflexivity.
Qed.


(** *** The symbols of the elements *)

Hypothesis name_set_iter_perm : forall l, name_set_iter l ≡ₚ l.

Lemma py_set_names (names : list string) :
  py_set (PList (map PStr names)) = Ok (remove_dups (map KStr names)).
Proof.
  unfold py_set. cbn [py_iter bind].
  rewrite (traverse_map _ (fun it => match as_key it with Some k => k | None => KInt 0 end)).
  - cbn [bind]. rewrite map_map. reflexivity.
  - intros x Hx. apply list_elem_of_fmap in Hx as (y & -> & _). reflexivity.
Qed.

(** The computational parameters: the parameters that are not declared
    non-computational, in some order. *)
Lemma param_int_computational_names (self : Device) (params noncomp : list string) :
  getattr self "_param_int" = Ok (PList (map PStr params)) ->
  getattr self "_param_int_non_computational" = Ok (PList (map PStr noncomp)) ->
  exists comp,
    param_int_computational self = Ok (map PStr comp) /\
    forall x, x ∈ comp <-> x ∈ params /\ x ∉ noncomp.
Proof.
  intros Hp Hnc. unfold param_int_computational.
  rewrite Hp. cbn [bind]. rewrite py_set_names. cbn [bind].
  rewrite Hnc. cbn [bind]. rewrite py_set_names. cbn [bind].
  set (L := name_set_iter
              (filter (fun k => k ∉ remove_dups (map KStr noncomp))
                 (remove_dups (map KStr params)))).
  assert (HL : forall k, k ∈ L <->
                 (k ∉ map KStr noncomp) /\ (k ∈ map KStr params)).
  { intros k. unfold L. rewrite (name_set_iter_perm _).
    rewrite list_elem_of_filter, !elem_of_remove_dups. reflexivity. }
  exists (map key_name L). split.
  - f_equal. rewrite map_map. apply map_ext_in. intros k Hk.
    apply list_elem_of_In, HL in Hk as (_ & Hk).
    apply list_elem_of_fmap in Hk as (x & -> & _). reflexivity.
  - intros x. split.
    + intros Hx. apply list_elem_of_fmap in Hx as (k & -> & Hk).
      apply HL in Hk as (Hno & Hk).
      apply list_elem_of_fmap in Hk as (y & -> & Hy). cbn [key_name]. split; [exact Hy|].
      intros Hin. apply Hno. apply list_elem_of_fmap. exists y. split; [reflexivity | exact Hin].
    + intros (Hx & Hno). apply list_elem_of_fmap. exists (KStr x). split; [reflexivity|].
      apply HL. split.
      * intros Hin. apply list_elem_of_fmap in Hin as (y & Hy & Hin).
        injection Hy as <-. exact (Hno Hin).
      * apply list_elem_of_fmap. exists x. split; [reflexivity | exact Hx].
Qed.

Lemma init_data_item_Ok (c : bool) (s : Device) (x : string) (count : nat)
    (sing : list (key * pyval)) :
  n s = Ok count ->
  attrs s !! KStr "_symbol_singleton" = Some (PDict sing) ->
  x <> "_symbol_singleton"%string ->
  _init_data_item c s (PStr x)
  = Ok (setattr
          (dict_setitem s (KStr x)
             (symbol_array
                (String.append (cls s) (String.append "_" (String.append x "_"))) count))
          "_symbol_singleton" (PDict (dict_set sing (KStr x) (PExpr (Sym (Symbol x c)))))).
Proof.
  intros Hn Hs Hx. unfold _init_data_item. cbn [py_fstring bind]. rewrite Hn.
  cbn [bind smp_symbols_commutative].
  rewrite getattr_setitem_ne by (discriminate || congruence).
  rewrite (getattr_instance s "_symbol_singleton" (PDict sing)) by (discriminate || exact Hs).
  cbn [bind py_setitem as_key]. reflexivity.
Qed.

Lemma last_commutative_None (pairs : list (bool * string)) (x : string) :
  last_commutative pairs x = None -> x ∉ pairs.*2.
Proof.
  induction pairs as [|[c y] rest IH]; cbn [last_commutative]; intros H Hin.
  - inversion Hin.
  - destruct (last_commutative rest x) eqn:Hr; [discriminate H|].
    destruct (decide (y = x)) as [->|Hne]; [discriminate H|].
    cbn in Hin. apply elem_of_cons in Hin as [Heq|Hin]; [congruence | exact (IH eq_refl Hin)].
Qed.

Lemma last_commutative_app (l1 l2 : list (bool * string)) (x : string) :
  last_commutative (l1 ++ l2) x
  = match last_commutative l2 x with
    | Some c => Some c
    | None => last_commutative l1 x
    end.
Proof.
  induction l1 as [|[c y] l1 IH]; cbn [app last_commutative].
  - destruct (last_commutative l2 x); reflexivity.
  - rewrite IH. destruct (last_commutative l2 x); reflexivity.
Qed.

Lemma last_commutative_block (c : bool) (names : list string) (x : string) :
  last_commutative (map (pair c) names) x = if decide (x ∈ names) then Some c else None.
Proof.
  induction names as [|y names IH]; cbn [map last_commutative].
  - destruct (decide (x ∈ [])) as [H|_]; [inversion H | reflexivity].
  - rewrite IH. destruct (decide (x ∈ names)) as [Hin|Hnin].
    + destruct (decide (x ∈ y :: names)) as [_|Hn]; [reflexivity|].
      exfalso. apply Hn. apply elem_of_cons. right. exact Hin.
    + destruct (decide (y = x)) as [->|Hne].
      * destruct (decide (x ∈ x :: names)) as [_|Hn]; [reflexivity|].
        exfalso. apply Hn. apply elem_of_cons. left. reflexivity.
      * destruct (decide (x ∈ y :: names)) as [Hin|_]; [|reflexivity].
        apply elem_of_cons in Hin as [->|Hin]; [contradiction Hne; reflexivity | contradiction].
Qed.

Lemma block_names (c : bool) (names : list string) : (map (pair c) names).*2 = names.
Proof.
  induction names as [|x names IH]; [reflexivity|]. cbn. f_equal. exact IH.
Qed.

(** The loops, end to end: every name holds its element symbols; its
    singleton is as the last block that names it left it. *)
Lemma init_data_items_run (pairs : list (bool * string)) (s : Device) (count : nat)
    (sing : list (key * pyval)) :
  n s = Ok count ->
  attrs s !! KStr "_symbol_singleton" = Some (PDict sing) ->
  (forall x, x ∈ pairs.*2 -> x <> "idx"%string /\ x <> "_symbol_singleton"%string) ->
  exists s' sing',
    _init_data_items pairs s = Ok s' /\
    cls s' = cls s /\
    n s' = Ok count /\
    attrs s' !! KStr "_symbol_singleton" = Some (PDict sing') /\
    (forall x c, last_commutative pairs x = Some c ->
       attrs s' !! KStr x
       = Some (symbol_array
                 (String.append (cls s) (String.append "_" (String.append x "_"))) count) /\
       dict_lookup sing' (KStr x) = Some (PExpr (Sym (Symbol x c)))) /\
    (forall k, k ∉ KStr <$> pairs.*2 -> dict_lookup sing' k = dict_lookup sing k) /\
    (forall k, k ∉ KStr <$> pairs.*2 -> k <> KStr "_symbol_singleton" ->
       attrs s' !! k = attrs s !! k).
Proof.
  revert s sing. induction pairs as [|[c y] rest IH]; intros s sing Hn Hs Hnames.
  - exists s, sing. split; [reflexivity|]. split; [reflexivity|]. split; [exact Hn|].
    split; [exact Hs|]. split; [|split; intros; reflexivity].
    intros x c Hc. discriminate Hc.
  - destruct (Hnames y) as (Hy1 & Hy2).
    { cbn. apply elem_of_cons. left. reflexivity. }
    set (arr := symbol_array
                  (String.append (cls s) (String.append "_" (String.append y "_"))) count).
    set (sing1 := dict_set sing (KStr y) (PExpr (Sym (Symbol y c)))).
    set (s1 := setattr (dict_setitem s (KStr y) arr) "_symbol_singleton" (PDict sing1)).
    assert (Hstep : _init_data_item c s (PStr y) = Ok s1)
      by (apply init_data_item_Ok; assumption).
    assert (Hn1 : n s1 = Ok count).
    { apply (n_agree s1 s); [|exact Hn]. unfold s1.
      rewrite setattr_lookup_ne by discriminate.
      unfold dict_setitem. cbn [attrs]. apply lookup_insert_ne. congruence. }
    destruct (IH s1 sing1 Hn1) as (s' & sing' & Hrun & Hcls & Hn' & Hs' & Hsym & Hkeep & Hframe).
    { unfold s1. apply setattr_lookup_eq. }
    { intros x Hx. apply Hnames. cbn. apply elem_of_cons. right. exact Hx. }
    exists s', sing'.
    split; [|split; [|split; [exact Hn'|split; [exact Hs'|split; [|split]]]]].
    + unfold _init_data_items. cbn [for_each fst snd]. rewrite Hstep. cbn [bind]. exact Hrun.
    + rewrite Hcls. reflexivity.
    + intros x c0 Hc0. cbn [last_commutative] in Hc0.
      destruct (last_commutative rest x) as [c'|] eqn:Hrest.
      * injection Hc0 as <-. exact (Hsym x c' Hrest).
      * destruct (decide (y = x)) as [->|Hne]; [|discriminate Hc0]. injection Hc0 as <-.
        pose proof (last_commutative_None rest x Hrest) as Hnot.
        assert (Hk : KStr x ∉ KStr <$> rest.*2).
        { intros Hin. apply list_elem_of_fmap in Hin as (z & Hz & Hin).
          injection Hz as <-. exact (Hnot Hin). }
        split.
        -- rewrite (Hframe _ Hk) by congruence. unfold s1.
           rewrite setattr_lookup_ne by exact (not_eq_sym Hy2).
           unfold dict_setitem. cbn [attrs]. apply lookup_insert_eq.
        -- rewrite (Hkeep _ Hk). apply dict_lookup_set_eq.
    + intros k Hk. rewrite Hkeep.
      * apply dict_lookup_set_ne. intros <-. apply Hk. cbn. apply elem_of_cons. left.
        reflexivity.
      * intros Hin. apply Hk. cbn. apply elem_of_cons. right. exact Hin.
    + intros k Hk Hss. rewrite Hframe; [| |exact Hss].
      * unfold s1, setattr, dict_setitem. cbn [attrs].
        rewrite lookup_insert_ne by congruence. apply lookup_insert_ne.
        intros <-. apply Hk. cbn. apply elem_of_cons. left. reflexivity.
      * intros Hin. apply Hk. cbn. apply elem_of_cons. right. exact Hin.
Qed.

Lemma init_data_reads_inv (a : string) :
  a ∈ init_data_reads -> a <> "n"%string.
Proof.
  intros Hin ->. unfold init_data_reads in Hin.
  repeat (apply elem_of_cons in Hin as [Hin|Hin]; [discriminate Hin|]).
  inversion Hin.
Qed.

(** The loops leave what [_init_data] reads between them as it was. *)
Lemma init_data_items_reads (pairs : list (bool * string)) (s : Device) (count : nat)
    (sing : list (key * pyval)) :
  n s = Ok count ->
  attrs s !! KStr "_symbol_singleton" = Some (PDict sing) ->
  (forall x, x ∈ pairs.*2 -> x ∉ init_data_reads) ->
  exists s',
    _init_data_items pairs s = Ok s' /\
    forall a v, a ∈ init_data_reads -> a <> "_symbol_singleton"%string ->
                attrs s !! KStr a = Some v -> getattr s' a = Ok v.
Proof.
  intros Hn Hs Hnames.
  destruct (init_data_items_run pairs s count sing Hn Hs)
    as (s' & sing' & Hrun & _ & _ & _ & _ & _ & Hframe).
  { intros x Hx. pose proof (Hnames x Hx) as Hno. split; intros ->; apply Hno.
    - apply elem_of_cons. left. reflexivity.
    - unfold init_data_reads. do 8 (apply elem_of_cons; right).
      apply elem_of_cons. left. reflexivity. }
  exists s'. split; [exact Hrun|].
  intros a v Ha Hss Hv. apply getattr_instance; [apply init_data_reads_inv, Ha|].
  rewrite Hframe; [exact Hv| |congruence].
  intros Hin. apply list_elem_of_fmap in Hin as (x & Hx & Hin). injection Hx as <-.
  exact (Hnames a Hin Ha).
Qed.

Lemma init_data_block (c : bool) (names : list string) (s : Device) :
  for_each (_init_data_item c) (map PStr names) s = _init_data_items (map (pair c) names) s.
Proof.
  revert s. induction names as [|x names IH]; intros s; [reflexivity|].
  unfold _init_data_items. cbn [map for_each fst snd].
  destruct (_init_data_item c s (PStr x)); cbn [bind]; [apply IH | reflexivity].
Qed.

Lemma init_data_names_block (c : bool) (attr : string) (iter : pyval -> result (list pyval))
    (names : list string) (v : pyval) (s : Device) :
  getattr s attr = Ok v ->
  py_len v = Ok (length names) ->
  iter v = Ok (map PStr names) ->
  _init_data_names c attr iter s = _init_data_items (map (pair c) names) s.
Proof.
  intros Hv Hlen Hiter. unfold _init_data_names. rewrite Hv. cbn [bind].
  rewrite Hlen. cbn [bind].
  destruct (0 <? length names)%nat eqn:Hl.
  - rewrite Hiter. cbn [bind]. apply init_data_block.
  - destruct names as [|x names]; [reflexivity | discriminate Hl].
Qed.

(** One block of [_init_data], run after the blocks [Q]. *)
Lemma init_data_stage (Q : list (bool * string)) (c : bool) (attr : string)
    (iter : pyval -> result (list pyval)) (names : list string) (v : pyval)
    (self s : Device) (count : nat) (sing : list (key * pyval)) :
  n self = Ok count ->
  attrs self !! KStr "_symbol_singleton" = Some (PDict sing) ->
  (forall x, x ∈ (Q ++ map (pair c) names).*2 -> x ∉ init_data_reads) ->
  _init_data_items Q self = Ok s ->
  attr ∈ init_data_reads ->
  attr <> "_symbol_singleton"%string ->
  attrs self !! KStr attr = Some v ->
  py_len v = Ok (length names) ->
  iter v = Ok (map PStr names) ->
  exists s',
    _init_data_names c attr iter s = Ok s' /\
    _init_data_items (Q ++ map (pair c) names) self = Ok s'.
Proof.
  intros Hn Hs Hnames HQ Hattr Hss Hv Hlen Hiter.
  destruct (init_data_items_reads Q self count sing Hn Hs) as (s0 & HQ0 & Hread).
  { intros x Hx. apply Hnames. rewrite fmap_app. apply elem_of_app. left. exact Hx. }
  rewrite HQ in HQ0. injection HQ0 as <-.
  destruct (init_data_items_reads (Q ++ map (pair c) names) self count sing Hn Hs Hnames)
    as (s' & Hrun & _).
  exists s'. split; [|exact Hrun].
  rewrite (init_data_names_block c attr iter names v s (Hread attr v Hattr Hss Hv) Hlen Hiter).
  unfold _init_data_items in *. rewrite for_each_app, HQ in Hrun. exact Hrun.
Qed.

Lemma last_commutative_Some (pairs : list (bool * string)) (x : string) :
  x ∈ pairs.*2 -> exists c, last_commutative pairs x = Some c.
Proof.
  intros Hin. destruct (last_commutative pairs x) as [c|] eqn:Hc.
  - exists c. reflexivity.
  - exfalso. exact (last_commutative_None pairs x Hc Hin).
Qed.

(** [_init_data] on a device with elements is its six loops laid end to
    end. *)
Lemma init_data_blocks (self : Device) (count : nat)
    (params noncomp custom algeb state : list string)
    (computed varcomp : list (string * pyval)) (sing : list (key * pyval)) :
  n self = Ok count ->
  (0 < count)%nat ->
  attrs self !! KStr "_param_int" = Some (PList (map PStr params)) ->
  attrs self !! KStr "_param_int_non_computational" = Some (PList (map PStr noncomp)) ->
  attrs self !! KStr "_param_int_computed"
    = Some (PDict (map (fun p => (KStr (fst p), snd p)) computed)) ->
  attrs self !! KStr "_param_int_custom" = Some (PList (map PStr custom)) ->
  attrs self !! KStr "_algeb_int" = Some (PList (map PStr algeb)) ->
  attrs self !! KStr "_var_int_computed"
    = Some (PDict (map (fun p => (KStr (fst p), snd p)) varcomp)) ->
  attrs self !! KStr "_state_int" = Some (PList (map PStr state)) ->
  attrs self !! KStr "_symbol_singleton" = Some (PDict sing) ->
  (forall x,
     x ∈ init_data_names params noncomp computed.*1 custom algeb varcomp.*1 state ->
     x ∉ init_data_reads) ->
  exists comp s',
    (forall x, x ∈ comp <-> x ∈ params /\ x ∉ noncomp) /\
    _init_data_items
      (((((map (pair true) comp ++ map (pair true) computed.*1) ++ map (pair true) custom)
           ++ map (pair true) algeb) ++ map (pair false) varcomp.*1) ++ map (pair true) state)
      self = Ok s' /\
    _init_data self = Ok (s', PNone).
Proof.
  clear lower.
  intros Hn Hpos Hp Hnc Hcomp Hcus Halg Hvar Hst Hsing Hreads.
  destruct (param_int_computational_names self params noncomp)
    as (comp & Hcomputational & Hmem).
  { apply getattr_instance; [discriminate | exact Hp]. }
  { apply getattr_instance; [discriminate | exact Hnc]. }
  set (P1 := map (pair true) comp).
  set (P2 := map (pair true) computed.*1).
  set (P3 := map (pair true) custom).
  set (P4 := map (pair true) algeb).
  set (P5 := map (pair false) varcomp.*1).
  set (P6 := map (pair true) state).
  set (Q6 := ((((P1 ++ P2) ++ P3) ++ P4) ++ P5) ++ P6).
  assert (Hnames : forall x,
            x ∈ Q6.*2 <->
            x ∈ init_data_names params noncomp computed.*1 custom algeb varcomp.*1 state).
  { intros x. unfold Q6, P1, P2, P3, P4, P5, P6, init_data_names.
    rewrite !fmap_app, !block_names, !elem_of_app, Hmem, list_elem_of_filter. tauto. }
  assert (Hall : forall x, x ∈ Q6.*2 -> x ∉ init_data_reads).
  { intros x Hx. apply Hreads, Hnames, Hx. }
  assert (Hkeys : forall entries : list (string * pyval),
            map (fun p => of_key (fst p)) (map (fun p => (KStr (fst p), snd p)) entries)
            = map PStr entries.*1).
  { intros entries. induction entries as [|[a b] entries IH]; [reflexivity|].
    cbn. f_equal. exact IH. }
  (* the computational parameters *)
  assert (H1 : _init_data_items P1 self
               = if (0 <? length (map PStr comp))%nat
                 then for_each (_init_data_item true) (map PStr comp) self
                 else Ok self).
  { unfold P1. rewrite <- init_data_block.
    destruct (0 <? length (map PStr comp))%nat eqn:Hl; [reflexivity|].
    destruct comp; [reflexivity | discriminate Hl]. }
  destruct (init_data_items_reads P1 self count sing Hn Hsing) as (s1 & Hr1 & _).
  { intros x Hx. apply Hall. unfold Q6. rewrite !fmap_app, !elem_of_app. tauto. }
  (* the computed parameters *)
  destruct (init_data_stage P1 true "_param_int_computed" py_keys computed.*1
              (PDict (map (fun p => (KStr (fst p), snd p)) computed)) self s1 count sing
              Hn Hsing) as (s2 & Hs2 & Hr2).
  { intros x Hx. apply Hall. unfold Q6. fold P2. rewrite !fmap_app, !elem_of_app.
    rewrite fmap_app, elem_of_app in Hx. tauto. }
  { exact Hr1. }
  { unfold init_data_reads. do 3 (apply elem_of_cons; right). apply elem_of_cons. left.
    reflexivity. }
  { discriminate. }
  { exact Hcomp. }
  { cbn [py_len]. rewrite !length_map. reflexivity. }
  { cbn [py_keys]. rewrite Hkeys. reflexivity. }
  (* the custom parameters *)
  destruct (init_data_stage (P1 ++ P2) true "_param_int_custom" py_iter custom
              (PList (map PStr custom)) self s2 count sing Hn Hsing) as (s3 & Hs3 & Hr3).
  { intros x Hx. apply Hall. unfold Q6. fold P3. rewrite !fmap_app, !elem_of_app.
    rewrite !fmap_app, !elem_of_app in Hx. tauto. }
  { exact Hr2. }
  { unfold init_data_reads. do 4 (apply elem_of_cons; right). apply elem_of_cons. left.
    reflexivity. }
  { discriminate. }
  { exact Hcus. }
  { cbn [py_len]. rewrite length_map. reflexivity. }
  { reflexivity. }
  (* the internal algebraic variables *)
  destruct (init_data_stage ((P1 ++ P2) ++ P3) true "_algeb_int" py_iter algeb
              (PList (map PStr algeb)) self s3 count sing Hn Hsing) as (s4 & Hs4 & Hr4).
  { intros x Hx. apply Hall. unfold Q6. fold P4. rewrite !fmap_app, !elem_of_app.
    rewrite !fmap_app, !elem_of_app in Hx. tauto. }
  { exact Hr3. }
  { unfold init_data_reads. do 5 (apply elem_of_cons; right). apply elem_of_cons. left.
    reflexivity. }
  { discriminate. }
  { exact Halg. }
  { cbn [py_len]. rewrite length_map. reflexivity. }
  { reflexivity. }
  (* the computed variables *)
  destruct (init_data_stage (((P1 ++ P2) ++ P3) ++ P4) false "_var_int_computed" py_iter
              varcomp.*1 (PDict (map (fun p => (KStr (fst p), snd p)) varcomp)) self s4 count
              sing Hn Hsing) as (s5 & Hs5 & Hr5).
  { intros x Hx. apply Hall. unfold Q6. fold P5. rewrite !fmap_app, !elem_of_app.
    rewrite !fmap_app, !elem_of_app in Hx. tauto. }
  { exact Hr4. }
  { unfold init_data_reads. do 6 (apply elem_of_cons; right). apply elem_of_cons. left.
    reflexivity. }
  { discriminate. }
  { exact Hvar. }
  { cbn [py_len]. rewrite !length_map. reflexivity. }
  { cbn [py_iter]. rewrite Hkeys. reflexivity. }
  (* the state variables *)
  destruct (init_data_stage ((((P1 ++ P2) ++ P3) ++ P4) ++ P5) true "_state_int" py_iter
              state (PList (map PStr state)) self s5 count sing Hn Hsing)
    as (s6 & Hs6 & Hr6).
  { intros x Hx. apply Hall. exact Hx. }
  { exact Hr5. }
  { unfold init_data_reads. do 7 (apply elem_of_cons; right). apply elem_of_cons. left.
    reflexivity. }
  { discriminate. }
  { exact Hst. }
  { cbn [py_len]. rewrite length_map. reflexivity. }
  { reflexivity. }
  exists comp, s6. split; [exact Hmem|]. split; [exact Hr6|].
  unfold _init_data. rewrite Hn. cbn [bind].
  destruct (count =? 0)%nat eqn:Hz; [apply Nat.eqb_eq in Hz; lia|].
  rewrite Hcomputational. cbn [bind]. rewrite <- H1, Hr1. cbn [bind].
  rewrite Hs2. cbn [bind]. rewrite Hs3. cbn [bind]. rewrite Hs4. cbn [bind].
  rewrite Hs5. cbn [bind]. rewrite Hs6. reflexivity.
Qed.

(** X14.  On a device with elements, [_init_data] gives every
    computational parameter, every computed and custom parameter, every
    internal algebraic variable, every computed variable and every state
    variable an array of one symbol per element, named after the class,
    the variable and the element, and a singleton symbol of its own name
    in [_symbol_singleton]; the singleton is non-commutative exactly for a
    computed variable that is no state variable.  It returns [None], and
    the element count and every other entry of the instance are as
    before.  The names are taken to be none of the attributes
    [_init_data] reads. *)
Theorem init_data_element_symbols (self : Device) (count : nat)
    (params noncomp custom algeb state : list string)
    (computed varcomp : list (string * pyval)) (sing : list (key * pyval)) :
  n self = Ok count ->
  (0 < count)%nat ->
  attrs self !! KStr "_param_int" = Some (PList (map PStr params)) ->
  attrs self !! KStr "_param_int_non_computational" = Some (PList (map PStr noncomp)) ->
  attrs self !! KStr "_param_int_computed"
    = Some (PDict (map (fun p => (KStr (fst p), snd p)) computed)) ->
  attrs self !! KStr "_param_int_custom" = Some (PList (map PStr custom)) ->
  attrs self !! KStr "_algeb_int" = Some (PList (map PStr algeb)) ->
  attrs self !! KStr "_var_int_computed"
    = Some (PDict (map (fun p => (KStr (fst p), snd p)) varcomp)) ->
  attrs self !! KStr "_state_int" = Some (PList (map PStr state)) ->
  attrs self !! KStr "_symbol_singleton" = Some (PDict sing) ->
  (forall x,
     x ∈ init_data_names params noncomp computed.*1 custom algeb varcomp.*1 state ->
     x ∉ init_data_reads) ->
  exists self',
    _init_data self = Ok (self', PNone) /\
    cls self' = cls self /\
    n self' = Ok count /\
    (forall x,
       x ∈ init_data_names params noncomp computed.*1 custom algeb varcomp.*1 state ->
       element_symbols self' (cls self) count x
         (bool_decide (x ∈ state) || negb (bool_decide (x ∈ varcomp.*1)))) /\
    (forall k,
       k ∉ KStr <$> init_data_names params noncomp computed.*1 custom algeb varcomp.*1 state ->
       k <> KStr "_symbol_singleton" ->
       attrs self' !! k = attrs self !! k).
Proof.
  clear lower.
  intros Hn Hpos Hp Hnc Hcomp Hcus Halg Hvar Hst Hsing Hreads.
  destruct (init_data_blocks self count params noncomp custom algeb state computed varcomp
              sing Hn Hpos Hp Hnc Hcomp Hcus Halg Hvar Hst Hsing Hreads)
    as (comp & s6 & Hmem & Hr6 & Hdata).
  set (Q6 := ((((map (pair true) comp ++ map (pair true) computed.*1)
                  ++ map (pair true) custom) ++ map (pair true) algeb)
                ++ map (pair false) varcomp.*1) ++ map (pair true) state) in Hr6.
  assert (Hnames : forall x,
            x ∈ Q6.*2 <->
            x ∈ init_data_names params noncomp computed.*1 custom algeb varcomp.*1 state).
  { intros x. unfold Q6, init_data_names.
    rewrite !fmap_app, !block_names, !elem_of_app, Hmem, list_elem_of_filter. tauto. }
  destruct (init_data_items_run Q6 self count sing Hn Hsing)
    as (s' & sing' & Hrun & Hcls & Hn' & Hsing' & Hsym & _ & Hframe).
  { intros x Hx. pose proof (Hreads x (proj1 (Hnames x) Hx)) as Hno.
    split; intros ->; apply Hno.
    - apply elem_of_cons. left. reflexivity.
    - unfold init_data_reads. do 8 (apply elem_of_cons; right).
      apply elem_of_cons. left. reflexivity. }
  rewrite Hr6 in Hrun. injection Hrun as <-.
  exists s6. split; [exact Hdata|]. split; [exact Hcls|]. split; [exact Hn'|]. split.
  - intros x Hx.
    assert (Hlast : last_commutative Q6 x
                    = Some (bool_decide (x ∈ state) || negb (bool_decide (x ∈ varcomp.*1)))).
    { apply Hnames in Hx. unfold Q6 in Hx |- *.
      rewrite !fmap_app, !elem_of_app in Hx. rewrite !block_names in Hx.
      rewrite !last_commutative_app, !last_commutative_block.
      destruct (decide (x ∈ state)) as [Hst'|Hst'].
      { rewrite bool_decide_eq_true_2 by exact Hst'. reflexivity. }
      rewrite (bool_decide_eq_false_2 _ Hst').
      destruct (decide (x ∈ varcomp.*1)) as [Hv'|Hv'].
      { rewrite bool_decide_eq_true_2 by exact Hv'. reflexivity. }
      rewrite (bool_decide_eq_false_2 _ Hv').
      destruct (decide (x ∈ algeb)); [reflexivity|].
      destruct (decide (x ∈ custom)); [reflexivity|].
      destruct (decide (x ∈ computed.*1)); [reflexivity|].
      destruct (decide (x ∈ comp)); [reflexivity|].
      tauto. }
    destruct (Hsym x _ Hlast) as (Harr & Hlook).
    split; [exact Harr|]. exists sing'. split; [exact Hsing' | exact Hlook].
  - intros k Hk Hss. apply Hframe; [|exact Hss].
    intros Hin. apply Hk. apply list_elem_of_fmap in Hin as (x & -> & Hin).
    apply list_elem_of_fmap. exists x. split; [reflexivity|]. apply Hnames, Hin.
Qed.

(** X15.  The symbols [_init_data] creates are what the vectorized
    expansion puts in: after [_init_data], a template of at least one
    free symbol over the names that were given symbols expands to one
    equation per element, the [i]-th
    being the template with every symbol [x] replaced by the element
    symbol [C_x_i] of the class [C] of the device.  [sympify] is taken to
    leave expressions as they are, and no symbol of the template to bear
    the name of an element symbol. *)
Theorem init_data_then_vectorized (self : Device) (count : nat)
    (params noncomp custom algeb state : list string)
    (computed varcomp : list (string * pyval)) (sing : list (key * pyval)) (e : expr) :
  n self = Ok count ->
  (0 < count)%nat ->
  attrs self !! KStr "_param_int" = Some (PList (map PStr params)) ->
  attrs self !! KStr "_param_int_non_computational" = Some (PList (map PStr noncomp)) ->
  attrs self !! KStr "_param_int_computed"
    = Some (PDict (map (fun p => (KStr (fst p), snd p)) computed)) ->
  attrs self !! KStr "_param_int_custom" = Some (PList (map PStr custom)) ->
  attrs self !! KStr "_algeb_int" = Some (PList (map PStr algeb)) ->
  attrs self !! KStr "_var_int_computed"
    = Some (PDict (map (fun p => (KStr (fst p), snd p)) varcomp)) ->
  attrs self !! KStr "_state_int" = Some (PList (map PStr state)) ->
  attrs self !! KStr "_symbol_singleton" = Some (PDict sing) ->
  (forall x,
     x ∈ init_data_names params noncomp computed.*1 custom algeb varcomp.*1 state ->
     x ∉ init_data_reads) ->
  (forall e0, sympify (PExpr e0) = Ok e0) ->
  free_symbols e <> [] ->
  (forall s, s ∈ free_symbols e ->
     str s ∈ init_data_names params noncomp computed.*1 custom algeb varcomp.*1 state) ->
  (forall s t i, s ∈ free_symbols e -> t ∈ free_symbols e -> (i < count)%nat ->
     name t <> String.append
                 (String.append (cls self) (String.append "_" (String.append (str s) "_")))
                 (pretty i)) ->
  exists self' eqs,
    _init_data self = Ok (self', PNone) /\
    _subs_all_vectorized self' (PExpr e) AsList = Ok (PList (map PExpr eqs)) /\
    length eqs = count /\
    forall i, (i < count)%nat ->
      eqs !! i
      = Some (substitute
                (fun s => Sym (Symbol
                                 (String.append
                                    (String.append (cls self)
                                       (String.append "_" (String.append (str s) "_")))
                                    (pretty i)) true)) e).
Proof.
  clear lower.
  intros Hn Hpos Hp Hnc Hcomp Hcus Halg Hvar Hst Hsing Hreads Hsympify Hne Hsyms Hclash.
  destruct (init_data_blocks self count params noncomp custom algeb state computed varcomp
              sing Hn Hpos Hp Hnc Hcomp Hcus Halg Hvar Hst Hsing Hreads)
    as (comp & s6 & Hmem & Hr6 & Hdata).
  set (Q6 := ((((map (pair true) comp ++ map (pair true) computed.*1)
                  ++ map (pair true) custom) ++ map (pair true) algeb)
                ++ map (pair false) varcomp.*1) ++ map (pair true) state) in Hr6.
  assert (Hnames : forall x,
            x ∈ Q6.*2 <->
            x ∈ init_data_names params noncomp computed.*1 custom algeb varcomp.*1 state).
  { intros x. unfold Q6, init_data_names.
    rewrite !fmap_app, !block_names, !elem_of_app, Hmem, list_elem_of_filter. tauto. }
  destruct (init_data_items_run Q6 self count sing Hn Hsing)
    as (s' & sing' & Hrun & _ & _ & _ & Hsym & _ & _).
  { intros x Hx. pose proof (Hreads x (proj1 (Hnames x) Hx)) as Hno.
    split; intros ->; apply Hno.
    - apply elem_of_cons. left. reflexivity.
    - unfold init_data_reads. do 8 (apply elem_of_cons; right).
      apply elem_of_cons. left. reflexivity. }
  rewrite Hr6 in Hrun. injection Hrun as <-.
  set (val := fun (s : symbol) (i : nat) =>
                Sym (Symbol
                       (String.append
                          (String.append (cls self)
                             (String.append "_" (String.append (str s) "_")))
                          (pretty i)) true)).
  assert (Hq : forall s, s ∈ free_symbols e ->
            exists items,
              attrs s6 !! KStr (str s) = Some (PList items) /\
              length items = count /\
              forall i, (i < count)%nat ->
                exists it, items !! i = Some it /\ sympify it = Ok (val s i)).
  { intros s Hs.
    destruct (last_commutative_Some Q6 (str s)) as (c & Hc).
    { apply Hnames, Hsyms, Hs. }
    destruct (Hsym (str s) c Hc) as (Harr & _).
    eexists. split; [exact Harr|]. split.
    - rewrite length_map, length_seq. reflexivity.
    - intros i Hi. exists (PExpr (val s i)). split; [|apply Hsympify].
      rewrite list_lookup_fmap, lookup_seq_lt by exact Hi. reflexivity. }
  assert (Hfree : forall s t i, s ∈ free_symbols e -> t ∈ free_symbols e -> (i < count)%nat ->
                                t ∉ symbols_of (val s i)).
  { intros s t i Hs Ht Hi Hin. unfold val in Hin. cbn [symbols_of] in Hin.
    apply elem_of_cons in Hin as [Heq|Hin]; [|inversion Hin].
    apply (Hclash s t i Hs Ht Hi). rewrite Heq. reflexivity. }
  exists s6, (map (fun i => substitute (fun s => val s i) e) (seq 0 count)).
  split; [exact Hdata|]. split; [|split].
  - unfold _subs_all_vectorized. cbn [py_free_symbols bind].
    rewrite (quantity_lengths_Ok s6 _ (fun _ => count)).
    + cbn [bind]. rewrite (py_min_const _ count).
      * cbn [bind].
        rewrite (traverse_map _ (fun i => substitute (fun s => val s i) e)); [reflexivity|].
        intros i Hi. apply elem_of_seq in Hi as [_ Hi]. cbn [plus] in Hi.
        apply py_subs_element.
        -- intros s Hs. apply elem_of_free_symbols in Hs.
           destruct (Hq s Hs) as (items & Hget & _ & Hit).
           destruct (Hit i Hi) as (it & Hlook & Hit').
           exists items, it. split; [exact Hget | split; [exact Hlook | exact Hit']].
        -- intros s t Hs Ht. apply Hfree; [| |exact Hi]; apply elem_of_free_symbols; assumption.
      * intros Hnil. apply map_eq_nil in Hnil.
        pose proof (set_iter_perm (free_symbols e)) as Hperm.
        rewrite Hnil in Hperm. apply Hne. symmetry in Hperm.
        apply Permutation_nil_r in Hperm. exact Hperm.
      * apply Forall_forall. intros y Hy.
        apply list_elem_of_In, in_map_iff in Hy as (s & <- & _). reflexivity.
    + intros s Hs. apply elem_of_set_iter, elem_of_free_symbols in Hs.
      destruct (Hq s Hs) as (items & Hget & Hlen & _).
      exists (PList items). split; [exact Hget|]. cbn [py_len]. rewrite Hlen. reflexivity.
  - rewrite length_map, length_seq. reflexivity.
  - intros i Hi. rewrite list_lookup_fmap, lookup_seq_lt by exact Hi. reflexivity.
Qed.

(** *** A fresh device *)

(** X16.  A device as [DeviceBase.__init__] leaves it, of any class and
    in any system, has no element and passes [metadata_check];
    [_init_data] returns [False] on it, and [get_algeb_ext],
    [_compute_param_int], [_compute_variable], the two
    [make_gcall_*_symbolic], [delayed_symbol_sub_all] and [_init_equation]
    return it unchanged. *)
Theorem fresh_device_is_inert (c : string) (sysobj : pyval) (system : gmap string Device)
    (self_key : string) :
  exists d,
    DeviceBase.__init__ (new c) sysobj = Ok d /\
    n d = Ok 0%nat /\
    metadata_check d = Ok tt /\
    _init_data d = Ok (d, PBool false) /\
    get_algeb_ext system self_key d = Ok d /\
    _compute_param_int d = Ok d /\
    _compute_variable d = Ok d /\
    make_gcall_int_symbolic d = Ok d /\
    make_gcall_ext_symbolic d = Ok d /\
    delayed_symbol_sub_all d = Ok d /\
    _init_equation d = Ok d.
Proof.
  eexists. split; [reflexivity|].
  repeat split; reflexivity.
Qed.


(** *** The metadata of [PV] and [Slack] *)

(** X17.  The list [_param_int_mandatory] is all that [PV.__init__] and
    [Slack.__init__] miss: on an instance that holds such a list before
    [__init__] runs, both return, [bus] is appended to the list, and the
    metadata they declare passes [metadata_check].  [Slack] ends with the
    parameter [a0] in place of [p0], with the internal variables [q] and
    [p] and an equation for each, and with [-p] as the equation of the
    imported angle. *)
Theorem PV_Slack_metadata_consistent (c : string) (system : pyval) (mandatory : list pyval) :
  exists pv slack,
    PV.__init__ (with_mandatory c mandatory) system = Ok pv /\
    Slack.__init__ (with_mandatory c mandatory) system = Ok slack /\
    metadata_check pv = Ok tt /\
    metadata_check slack = Ok tt /\
    getattr pv "_param_int_mandatory" = Ok (PList (mandatory ++ [PStr "bus"])) /\
    getattr slack "_param_int"
    = Ok (PList [PStr "name"; PStr "u"; PStr "bus"; PStr "v0"; PStr "Sn"; PStr "Vn";
                 PStr "vmax"; PStr "vmin"; PStr "qmax"; PStr "qmin"; PStr "a0"]) /\
    getattr slack "_algeb_int" = Ok (PList [PStr "q"; PStr "p"]) /\
    getattr slack "_gcall_int"
    = Ok (PDict [(KStr "q", PStr "v - v0"); (KStr "p", PStr "a - a0")]) /\
    getattr slack "_gcall_ext" = Ok (PDict [(KStr "a", PStr "-p"); (KStr "v", PStr "-q")]).
Proof.
  eexists. eexists. split; [reflexivity|]. split; [reflexivity|].
  repeat split; reflexivity.
Qed.

End Methods.

(** ** The model at work

    The theorems above, applied to the sample devices. *)

Lemma set_iter_first_perm (l : list symbol) : set_iter_first l ≡ₚ l.
Proof. reflexivity. Qed.

Lemma set_iter_last_perm (l : list symbol) : set_iter_last l ≡ₚ l.
Proof. unfold set_iter_last. symmetry. apply Permutation_rev. Qed.

(** A set of one symbol has one iteration order, a set of none has
    none. *)
Lemma set_iter_singleton (set_iter : list symbol -> list symbol) (s : symbol) :
  (forall l, set_iter l ≡ₚ l) -> set_iter [s] = [s].
Proof. intros Hperm. apply Permutation_singleton_r. apply Hperm. Qed.

Lemma set_iter_nil (set_iter : list symbol -> list symbol) :
  (forall l, set_iter l ≡ₚ l) -> set_iter [] = [].
Proof. intros Hperm. apply Permutation_nil_r. apply Hperm. Qed.

(** Sequential replacement of [x] by [y] and then [y] by [x] leaves only
    [x]; this is what [simultaneous=True] avoids. *)
Example subs_sequential_crossed :
  subs x_plus_y [(symbol_named "x", sym "y"); (symbol_named "y", sym "x")]
  = App "Add" [sym "x"; sym "x"].
Proof. reflexivity. Qed.

(** [create_n_default_elements] builds the idx and the rows of
    [two_buses]. *)
Example create_two_default_elements :
  create_n_default_elements (base_device "Bus") 2
  = Ok (setattr (setattr (base_device "Bus") "idx" (PList [PInt 0; PInt 1]))
          "_int" (PDict [(KInt 0, PInt 0); (KInt 1, PInt 1)])).
Proof. reflexivity. Qed.

(** C9 at work: nothing can be added to a [PV] device, as none is ever
    built. *)
Example no_PV_instance : construct_PV (PObject "System") <> Ok (base_device "PV").
Proof.
  exact (proj1 (proj2 (proj2 (PV_Slack_construction_fails (PObject "System"))))
           (base_device "PV")).
Qed.

(** C3, witness: a bare device passes the check, a load with an import
    and no equation for it does not. *)
Lemma metadata_check_requires_both_counts_witness :
  metadata_check (base_device "Bus") = Ok tt /\
  metadata_check load_without_equation
  = Raise (AssertionError "Load Number of _algeb_ext does not equal _gcall_ext").
Proof.
  set (flags := PDict [(KStr "no_algeb_ext_check", PBool false);
                       (KStr "state_group_by_element", PBool true);
                       (KStr "algeb_group_by_element", PBool true)]).
  split.
  - exact (metadata_check_requires_both_counts (base_device "Bus") flags (PBool false)
             0 0 0 0 0 eq_refl eq_refl eq_refl eq_refl eq_refl eq_refl eq_refl).
  - exact (metadata_check_requires_both_counts load_without_equation flags (PBool false)
             1 0 0 0 0 eq_refl eq_refl eq_refl eq_refl eq_refl eq_refl eq_refl).
Defined.

(** C3, counterexample: enough local equations do not make the check
    succeed when the imports and their equations differ in number. *)
Lemma metadata_check_disjunction_insufficient :
  ~ (forall (self : Device) (flag : pyval) (n_ext n_gext n_int n_intf n_gint : nat),
        (let* flags := getattr self "_special_flags" in
         py_getitem flags (PStr "no_algeb_ext_check")) = Ok flag ->
        attr_len self "_algeb_ext" = Ok n_ext ->
        attr_len self "_gcall_ext" = Ok n_gext ->
        attr_len self "_algeb_int" = Ok n_int ->
        attr_len self "_algeb_intf" = Ok n_intf ->
        attr_len self "_gcall_int" = Ok n_gint ->
        (py_is_False flag = false \/ n_ext = n_gext) \/
        Z.of_nat n_int - Z.of_nat n_intf <= Z.of_nat n_gint ->
        metadata_check self = Ok tt).
Proof.
  intros Hclaim.
  specialize (Hclaim load_without_equation (PBool false) 1%nat 0%nat 0%nat 0%nat 0%nat
                eq_refl eq_refl eq_refl eq_refl eq_refl eq_refl).
  assert (Hrun : metadata_check load_without_equation = Ok tt).
  { apply Hclaim. right. intros Hgt. discriminate Hgt. }
  vm_compute in Hrun. discriminate Hrun.
Qed.

(** C5, witness: the rows of two buses asked for in reverse order, the
    row of bus [1] asked for as the float [1.0] and as SymPy's
    [Integer(1)], and the [KeyError] for a bus 99 that was never added. *)
Lemma idx2int_rows_or_KeyError_witness :
  idx2int two_buses (PList [PInt 1; PInt 0]) = Ok (PList [PInt 1; PInt 0]) /\
  idx2int two_buses (PList [PFloat 1.0; PExpr (Num 1)]) = Ok (PList [PInt 1; PInt 1]) /\
  idx2int two_buses (PList [PInt 0; PInt 99]) = Raise (KeyError (PInt 99)).
Proof.
  set (int := [(KInt 0, PInt 0); (KInt 1, PInt 1)]).
  assert (Hint : getattr two_buses "_int" = Ok (PDict int)) by reflexivity.
  split; [|split].
  - apply (proj1 (idx2int_rows_or_KeyError two_buses int [PInt 1; PInt 0] Hint)).
    exists [PInt 1; PInt 0]. split; [reflexivity|].
    repeat constructor; eexists; split; reflexivity.
  - apply (proj1 (idx2int_rows_or_KeyError two_buses int [PFloat 1.0; PExpr (Num 1)] Hint)).
    exists [PInt 1; PInt 1]. split; [reflexivity|].
    repeat constructor; exists (KInt 1); split; reflexivity.
  - apply (proj2 (idx2int_rows_or_KeyError two_buses int [PInt 0; PInt 99] Hint)
             [PInt 0] (PInt 99) []).
    + reflexivity.
    + repeat constructor. exists (PInt 0), (KInt 0). split; reflexivity.
    + reflexivity.
    + intros r (k & Hk & Hr). injection Hk as <-. vm_compute in Hr. discriminate Hr.
Defined.

(** The symbols of the sample templates. *)
Lemma free_symbols_a_plus_v :
  free_symbols a_plus_v = [symbol_named "a"; symbol_named "v"].
Proof. reflexivity. Qed.

Lemma free_symbols_v_minus_v0 :
  free_symbols v_minus_v0 = [symbol_named "v"; symbol_named "v0"].
Proof. reflexivity. Qed.

Lemma free_symbols_x_plus_y :
  free_symbols x_plus_y = [symbol_named "x"; symbol_named "y"].
Proof. reflexivity. Qed.

(** C1, witness: the template [a + v] on two buses, whatever the
    iteration order picked. *)
Lemma subs_all_vectorized_expands_witness :
  exists eqs,
    _subs_all_vectorized set_iter_last (sympify_table []) two_buses (PExpr a_plus_v) AsList
      = Ok (PList (map PExpr eqs)) /\
    length eqs = 2%nat /\
    forall i, (i < 2)%nat ->
      eqs !! i = Some (substitute (fun s => stored_at two_buses s i) a_plus_v) /\
      forall t, t ∈ free_symbols a_plus_v ->
        t ∉ symbols_of (substitute (fun s => stored_at two_buses s i) a_plus_v).
Proof.
  apply (subs_all_vectorized_expands set_iter_last (sympify_table []) set_iter_last_perm
           two_buses a_plus_v 2 (stored_at two_buses)).
  - rewrite free_symbols_a_plus_v. discriminate.
  - intros s Hs. rewrite free_symbols_a_plus_v in Hs.
    apply elem_of_cons in Hs as [->|Hs];
      [|apply elem_of_cons in Hs as [->|Hs]; [|inversion Hs]].
    + exists [PExpr (sym "Bus_a_0"); PExpr (sym "Bus_a_1")].
      split; [reflexivity|]. split; [reflexivity|].
      intros [|[|i]] Hi; [| |lia]; eexists; split; reflexivity.
    + exists [PExpr (sym "Bus_v_0"); PExpr (sym "Bus_v_1")].
      split; [reflexivity|]. split; [reflexivity|].
      intros [|[|i]] Hi; [| |lia]; eexists; split; reflexivity.
  - intros s t i Hs Ht Hi Hin. rewrite free_symbols_a_plus_v in Hs, Ht.
    apply list_elem_of_In in Hin.
    apply elem_of_cons in Hs as [->|Hs];
      [|apply elem_of_cons in Hs as [->|Hs]; [|inversion Hs]];
      (apply elem_of_cons in Ht as [->|Ht];
        [|apply elem_of_cons in Ht as [->|Ht]; [|inversion Ht]]);
      (destruct i as [|[|i]]; [| |lia]);
      vm_compute in Hin; destruct Hin as [Hin|[]]; discriminate Hin.
Defined.

(** C1, counterexample: on a device of two elements, a template with no
    free symbol meets the premise of the claim, and its expansion raises
    [ValueError] instead of returning two equations. *)
Lemma subs_all_vectorized_constant_template :
  n two_buses = Ok 2%nat /\
  (forall sympify val, elementwise_quantities sympify two_buses (Num 0) 2 val) /\
  (forall set_iter sympify, (forall l, set_iter l ≡ₚ l) ->
     _subs_all_vectorized set_iter sympify two_buses (PExpr (Num 0)) AsList
       = Raise ValueError).
Proof.
  split; [reflexivity|]. split.
  - intros sympify val s Hs. inversion Hs.
  - intros set_iter sympify Hperm. unfold _subs_all_vectorized, py_free_symbols.
    change (free_symbols (Num 0)) with (@nil symbol).
    rewrite (set_iter_nil set_iter Hperm). reflexivity.
Qed.

(** C6, witness: a generator of two elements with [v0] left empty; the
    equation [v - v0] expands to no equation at all. *)
Lemma subs_all_vectorized_empty_quantity_witness :
  _subs_all_vectorized set_iter_first (sympify_table []) gen_empty_v0 (PExpr v_minus_v0)
    AsList = Ok (PList []).
Proof.
  apply (subs_all_vectorized_empty_quantity set_iter_first (sympify_table [])
           set_iter_first_perm gen_empty_v0 v_minus_v0 (symbol_named "v0")).
  - intros s Hs. rewrite free_symbols_v_minus_v0 in Hs.
    apply elem_of_cons in Hs as [->|Hs];
      [|apply elem_of_cons in Hs as [->|Hs]; [|inversion Hs]].
    + exists (PList [PExpr (sym "Gen_v_0"); PExpr (sym "Gen_v_1")]), 2%nat.
      split; reflexivity.
    + exists (PList []), 0%nat. split; reflexivity.
  - rewrite free_symbols_v_minus_v0. apply elem_of_cons. right.
    apply elem_of_cons. left. reflexivity.
  - exists (PList []). split; reflexivity.
Defined.

(** C7, witness: [x] holds the symbol [y] and [y] holds the symbol [x];
    the template [x + y] becomes [y + x], in either iteration order. *)
Lemma subs_all_singleton_simultaneous_witness :
  _subs_all_singleton set_iter_first (sympify_table []) crossed (PExpr x_plus_y) AsNone
    = Ok (PExpr (App "Add" [sym "y"; sym "x"])) /\
  _subs_all_singleton set_iter_last (sympify_table []) crossed (PExpr x_plus_y) AsNone
    = Ok (PExpr (App "Add" [sym "y"; sym "x"])).
Proof.
  assert (Hq : forall s, s ∈ free_symbols x_plus_y ->
                 exists q, attrs crossed !! KStr (str s) = Some q /\
                           sympify_table [] q = Ok (stored crossed s)).
  { intros s Hs. rewrite free_symbols_x_plus_y in Hs.
    apply elem_of_cons in Hs as [->|Hs];
      [|apply elem_of_cons in Hs as [->|Hs]; [|inversion Hs]].
    - exists (PExpr (sym "y")). split; reflexivity.
    - exists (PExpr (sym "x")). split; reflexivity. }
  split.
  - exact (subs_all_singleton_simultaneous set_iter_first (sympify_table [])
             set_iter_first_perm crossed x_plus_y (stored crossed) Hq).
  - exact (subs_all_singleton_simultaneous set_iter_last (sympify_table [])
             set_iter_last_perm crossed x_plus_y (stored crossed) Hq).
Defined.

(** C4, witness: the template [a + zz] on the buses, which store no
    [zz], and on a bus whose [a] is the number [3]: singleton expansion
    raises [KeyError] on both, vectorized expansion on the first, and
    [TypeError] on the second. *)
Lemma expansion_missing_quantity_KeyError_witness :
  (_subs_all_singleton set_iter_first (sympify_table []) two_buses
     (PExpr (App "Add" [sym "a"; sym "zz"])) AsList = Raise (KeyError (PStr "zz")) /\
   _subs_all_vectorized set_iter_first (sympify_table []) two_buses
     (PExpr (App "Add" [sym "a"; sym "zz"])) AsList = Raise (KeyError (PStr "zz"))) /\
  (_subs_all_singleton set_iter_first (sympify_table []) bus_scalar_a
     (PExpr (App "Add" [sym "a"; sym "zz"])) AsList = Raise (KeyError (PStr "zz")) /\
   _subs_all_vectorized set_iter_first (sympify_table []) bus_scalar_a
     (PExpr (App "Add" [sym "a"; sym "zz"])) AsList = Raise TypeError).
Proof.
  split.
  - destruct (expansion_missing_quantity_KeyError set_iter_first (sympify_table [])
                two_buses (App "Add" [sym "a"; sym "zz"]) [symbol_named "a"] []
                (symbol_named "zz") AsList) as (Hsingle & Hvector & _).
    + reflexivity.
    + intros x Hx. apply elem_of_cons in Hx as [->|Hx]; [|inversion Hx].
      eexists. reflexivity.
    + reflexivity.
    + split; [exact Hsingle|]. apply Hvector.
      intros x Hx. apply elem_of_cons in Hx as [->|Hx]; [|inversion Hx].
      exists (PList [PExpr (sym "Bus_a_0"); PExpr (sym "Bus_a_1")]), 2%nat.
      split; reflexivity.
  - destruct (expansion_missing_quantity_KeyError set_iter_first (sympify_table [])
                bus_scalar_a (App "Add" [sym "a"; sym "zz"]) [symbol_named "a"] []
                (symbol_named "zz") AsList) as (Hsingle & _ & Hunsized).
    + reflexivity.
    + intros x Hx. apply elem_of_cons in Hx as [->|Hx]; [|inversion Hx].
      eexists. reflexivity.
    + reflexivity.
    + split; [exact Hsingle|].
      apply (Hunsized [] (symbol_named "a") [] (PInt 3)).
      * reflexivity.
      * intros y Hy. inversion Hy.
      * reflexivity.
      * reflexivity.
Defined.

(** C4, counterexample: the [KeyError] raised for the undeclared symbol
    [zz] on a device of class [Bus] carries the name of the symbol and
    nothing of the device, in both expansions and in any iteration
    order. *)
Lemma missing_quantity_error_omits_device :
  symbol_named "zz" ∈ free_symbols (sym "zz") /\
  attrs two_buses !! KStr "zz" = None /\
  cls two_buses = "Bus"%string /\
  forall set_iter sympify, (forall l, set_iter l ≡ₚ l) ->
    exists err,
      _subs_all_vectorized set_iter sympify two_buses (PExpr (sym "zz")) AsList = Raise err /\
      _subs_all_singleton set_iter sympify two_buses (PExpr (sym "zz")) AsNone = Raise err /\
      mentions err "zz" = true /\
      mentions err (cls two_buses) = false.
Proof.
  split; [apply list_elem_of_singleton; reflexivity|].
  split; [reflexivity|]. split; [reflexivity|].
  intros set_iter sympify Hperm. exists (KeyError (PStr "zz")).
  split; [|split; [|split; reflexivity]].
  - unfold _subs_all_vectorized, py_free_symbols.
    change (free_symbols (sym "zz")) with [symbol_named "zz"].
    rewrite (set_iter_singleton set_iter _ Hperm). reflexivity.
  - unfold _subs_all_singleton, py_free_symbols.
    change (free_symbols (sym "zz")) with [symbol_named "zz"].
    rewrite (set_iter_singleton set_iter _ Hperm). reflexivity.
Qed.

(** C8, witness: on the line, [x = r] is computed first and [y = x] is
    expanded against the new [x]: [y] ends with the symbols of [r], not
    with the placeholders of [x]. *)
Lemma compute_param_int_forward_pass_witness :
  exists self',
    _compute_param_int set_iter_first (sympify_table line_table) line_derived = Ok self' /\
    attrs self' !! KStr "y" = Some (PList [PExpr (sym "Line_r_0"); PExpr (sym "Line_r_1")]).
Proof.
  destruct (compute_param_int_forward_pass set_iter_first (sympify_table line_table)
              line_derived [(KStr "x", PStr "r")] [] (KStr "y") (PStr "x"))
    as (Hpass & _ & Hstore).
  - reflexivity.
  - repeat constructor; intros Hin.
    + apply elem_of_cons in Hin as [Hin|Hin]; [discriminate Hin | inversion Hin].
    + inversion Hin.
  - exists (dict_setitem
              (dict_setitem line_derived (KStr "x")
                 (PList [PExpr (sym "Line_r_0"); PExpr (sym "Line_r_1")]))
              (KStr "y") (PList [PExpr (sym "Line_r_0"); PExpr (sym "Line_r_1")])).
    split.
    + rewrite Hpass. reflexivity.
    + apply (Hstore (dict_setitem line_derived (KStr "x")
                       (PList [PExpr (sym "Line_r_0"); PExpr (sym "Line_r_1")]))).
      reflexivity.
Defined.

(** The generator after its equation [q] was expanded once. *)
Lemma gen_two_expanded :
  delayed_symbol_sub set_iter_first (sympify_table []) gen_two
    "_gcall_int_symbolic_singleton" "_gcall_int_symbolic" "vectorized" (AsCall smp_Array) false
  = Ok (dict_setitem gen_two (KStr "_gcall_int_symbolic")
          (PDict [(KStr "q",
                   PList [PExpr (App "Add" [sym "Gen_v_0";
                                            App "Mul" [Num (-1); sym "Gen_v0_0"]]);
                          PExpr (App "Add" [sym "Gen_v_1";
                                            App "Mul" [Num (-1); sym "Gen_v0_1"]])])])).
Proof. reflexivity. Qed.

(** C10, witness: expanding the equations of the generator a second time
    returns the device the first call returned. *)
Lemma delayed_symbol_sub_idempotent_witness :
  exists self',
    delayed_symbol_sub set_iter_first (sympify_table []) gen_two
      "_gcall_int_symbolic_singleton" "_gcall_int_symbolic" "vectorized" (AsCall smp_Array)
      false = Ok self' /\
    delayed_symbol_sub set_iter_first (sympify_table []) self'
      "_gcall_int_symbolic_singleton" "_gcall_int_symbolic" "vectorized" (AsCall smp_Array)
      false = Ok self'.
Proof.
  eexists. split; [exact gen_two_expanded|].
  apply (delayed_symbol_sub_idempotent set_iter_first (sympify_table []) gen_two _
           "_gcall_int_symbolic_singleton" "_gcall_int_symbolic" "vectorized"
           (AsCall smp_Array) []).
  - reflexivity.
  - exact gen_two_expanded.
Defined.



(** X1, witness: the equation [v - v0] on a generator with two voltages
    and one set point expands to one equation. *)
Lemma subs_all_vectorized_shortest_witness :
  exists eqs,
    _subs_all_vectorized set_iter_last (sympify_table []) gen_short_v0 (PExpr v_minus_v0) AsList
      = Ok (PList (map PExpr eqs)) /\
    length eqs = 1%nat /\
    forall i, (i < 1)%nat ->
      eqs !! i = Some (substitute (fun s => stored_at gen_short_v0 s i) v_minus_v0).
Proof.
  apply (subs_all_vectorized_shortest set_iter_last (sympify_table []) set_iter_last_perm
           gen_short_v0 v_minus_v0
           (fun s => if decide (s = symbol_named "v0") then 1%nat else 2%nat)
           1 (stored_at gen_short_v0) (symbol_named "v0")).
  - rewrite free_symbols_v_minus_v0. apply elem_of_cons. right.
    apply elem_of_cons. left. reflexivity.
  - reflexivity.
  - intros s Hs. rewrite free_symbols_v_minus_v0 in Hs.
    apply elem_of_cons in Hs as [->|Hs];
      [|apply elem_of_cons in Hs as [->|Hs]; [|inversion Hs]]; vm_compute; lia.
  - intros s Hs. rewrite free_symbols_v_minus_v0 in Hs.
    apply elem_of_cons in Hs as [->|Hs];
      [|apply elem_of_cons in Hs as [->|Hs]; [|inversion Hs]].
    + exists [PExpr (sym "Gen_v_0"); PExpr (sym "Gen_v_1")].
      split; [reflexivity|]. split; [reflexivity|].
      intros [|i] Hi; [|lia]. eexists; split; reflexivity.
    + exists [PExpr (sym "Gen_v0_0")].
      split; [reflexivity|]. split; [reflexivity|].
      intros [|i] Hi; [|lia]. eexists; split; reflexivity.
  - intros s t i Hs Ht Hi Hin. rewrite free_symbols_v_minus_v0 in Hs, Ht.
    apply list_elem_of_In in Hin.
    apply elem_of_cons in Hs as [->|Hs];
      [|apply elem_of_cons in Hs as [->|Hs]; [|inversion Hs]];
      (apply elem_of_cons in Ht as [->|Ht];
        [|apply elem_of_cons in Ht as [->|Ht]; [|inversion Ht]]);
      (destruct i as [|i]; [|lia]);
      vm_compute in Hin; destruct Hin as [Hin|[]]; discriminate Hin.
Defined.

(** X2, witness: two default buses; their identifiers are their rows. *)
Lemma create_n_default_elements_round_trip_witness :
  exists self',
    create_n_default_elements (base_device "Bus") 2 = Ok self' /\
    n self' = Ok 2%nat /\
    idx2int self' (PList [PInt 1; PInt 0]) = Ok (PList [PInt 1; PInt 0]) /\
    idx2int self' (PList [PInt 2]) = Raise (KeyError (PInt 2)).
Proof.
  destruct (create_n_default_elements_round_trip (base_device "Bus") 2)
    as (self' & Hrun & Hn & _ & Hrows & Hout); [lia|].
  exists self'. split; [exact Hrun|]. split; [exact Hn|]. split.
  - apply (Hrows [1; 0]). repeat constructor; lia.
  - apply (Hout 2). lia.
Defined.

(** X3, witness: five default buses, then two: the device is the one two
    default buses alone give. *)
Lemma create_n_default_elements_resets_witness :
  exists self1 self2,
    create_n_default_elements (base_device "Bus") 5 = Ok self1 /\
    create_n_default_elements self1 2 = Ok self2 /\
    create_n_default_elements (base_device "Bus") 2 = Ok self2.
Proof.
  destruct (create_n_default_elements (base_device "Bus") 5) as [self1|e] eqn:H1;
    [|discriminate H1].
  destruct (create_n_default_elements self1 2) as [self2|e] eqn:H2; [|discriminate H2].
  exists self1, self2. split; [reflexivity|]. split; [exact H2|].
  exact (create_n_default_elements_resets (base_device "Bus") self1 self2 5 2 H1 H2).
Defined.

(** X4, witness: generators at the buses [1], [0] and [1] import the
    angles of these buses, in this order. *)
Lemma get_algeb_ext_foreign_key_mapping_witness :
  exists self',
    get_algeb_ext lower_ascii sample_system "gen" gens_at_buses = Ok self' /\
    attrs self' !! KStr "a"
    = Some (PList [PExpr (sym "Bus_a_1"); PExpr (sym "Bus_a_0"); PExpr (sym "Bus_a_1")]).
Proof.
  destruct (get_algeb_ext_foreign_key_mapping lower_ascii sample_system "gen" gens_at_buses gens_at_buses
              two_buses "a" "bus" "a" "Bus" [] []
              [PStr "name"; PStr "u"; PStr "bus"] [PInt 1; PInt 0; PInt 1]
              [PInt 0; PInt 1] [PExpr (sym "Bus_a_0"); PExpr (sym "Bus_a_1")]
              [PInt 1; PInt 0; PInt 1]
              [PExpr (sym "Bus_a_1"); PExpr (sym "Bus_a_0"); PExpr (sym "Bus_a_1")]
              [1%nat; 0%nat; 1%nat]
              [(KStr "bus", PStr "Bus")] [(KInt 0, PInt 0); (KInt 1, PInt 1)] [] []
              (PDict [(KStr "a", PList [PInt 0; PInt 1]); (KStr "v", PList [PInt 2; PInt 3])])
              (PObject "System"))
    as (self2 & Hrun & Hdest & _); try reflexivity.
  - repeat constructor. intros Hin. inversion Hin.
  - intros H. discriminate H.
  - intros H. discriminate H.
  - intros H. discriminate H.
  - repeat constructor; eexists; split; reflexivity.
  - repeat constructor.
  - repeat constructor.
  - exists self2. split; [rewrite Hrun; reflexivity | exact Hdest].
Defined.

(** X5, witness: a generator at a bus [7] that was never added. *)
Lemma get_algeb_ext_unknown_idx_witness :
  get_algeb_ext lower_ascii sample_system "gen" gens_at_unknown_bus = Raise (KeyError (PInt 7)).
Proof.
  apply (get_algeb_ext_unknown_idx lower_ascii sample_system "gen" gens_at_unknown_bus
           gens_at_unknown_bus two_buses (KStr "a") "bus" "Bus" (PStr "a") (PInt 7) [] []
           [PStr "name"; PStr "u"; PStr "bus"] [PInt 0] []
           [(KStr "bus", PStr "Bus")] [(KInt 0, PInt 0); (KInt 1, PInt 1)]
           (PObject "System")); try reflexivity.
  - repeat constructor. exists (PInt 0), (KInt 0). split; reflexivity.
  - intros r (k & Hk & Hr). injection Hk as <-. vm_compute in Hr. discriminate Hr.
Defined.

(** X6, witness: the parameter [bus] with no entry in [_foreign_keys]. *)
Lemma get_algeb_ext_undeclared_foreign_key_witness :
  get_algeb_ext lower_ascii sample_system "gen" gens_undeclared_key = Raise (KeyError (PStr "bus")).
Proof.
  apply (get_algeb_ext_undeclared_foreign_key lower_ascii sample_system "gen" gens_undeclared_key
           gens_undeclared_key (KStr "a") "bus" (PStr "a") [] []
           [PStr "name"; PStr "u"; PStr "bus"] []); reflexivity.
Defined.

(** X7, witness: the monitor after its import: its class, its idx and
    its parameters are as before. *)
Lemma get_algeb_ext_frame_witness :
  exists self',
    get_algeb_ext lower_ascii sample_system "monitor" monitor = Ok self' /\
    cls self' = "Monitor"%string /\
    attrs self' !! KStr "idx" = Some (PList []) /\
    attrs self' !! KStr "_param_int" = Some (PList [PStr "name"; PStr "u"]).
Proof.
  set (self' :=
         setattr
           (dict_setitem
              (setattr monitor "_dae_address" (PDict [(KStr "a", PList [PInt 0; PInt 1])]))
              (KStr "a") (PList [PExpr (sym "Bus_a_0"); PExpr (sym "Bus_a_1")]))
           "_symbol_singleton" (PDict [(KStr "a", PExpr (sym "a"))])).
  assert (Hrun : get_algeb_ext lower_ascii sample_system "monitor" monitor = Ok self') by reflexivity.
  destruct (get_algeb_ext_frame lower_ascii sample_system "monitor" monitor self'
              [(KStr "a", PList [PStr "Bus"; PStr "a"])] eq_refl Hrun) as (Hcls & Hframe).
  exists self'. split; [exact Hrun|]. split; [exact Hcls|]. split.
  - rewrite Hframe; [reflexivity| |discriminate|discriminate].
    intros Hin. apply elem_of_cons in Hin as [Hin|Hin]; [discriminate Hin | inversion Hin].
  - rewrite Hframe; [reflexivity| |discriminate|discriminate].
    intros Hin. apply elem_of_cons in Hin as [Hin|Hin]; [discriminate Hin | inversion Hin].
Defined.

(** X8, witness: a stale entry of [_gcall_int_symbolic] does not change
    what [v - v0] expands to. *)
Lemma subs_all_reads_free_symbols_only_witness :
  _subs_all_vectorized set_iter_first (sympify_table []) gen_two (PExpr v_minus_v0) AsList
  = _subs_all_vectorized set_iter_first (sympify_table []) gen_two_stale (PExpr v_minus_v0)
      AsList /\
  _subs_all_singleton set_iter_first (sympify_table []) gen_two (PExpr v_minus_v0) AsList
  = _subs_all_singleton set_iter_first (sympify_table []) gen_two_stale (PExpr v_minus_v0)
      AsList.
Proof.
  apply (subs_all_reads_free_symbols_only set_iter_first (sympify_table [])
           set_iter_first_perm gen_two gen_two_stale v_minus_v0 AsList).
  intros x Hx. rewrite free_symbols_v_minus_v0 in Hx.
  apply elem_of_cons in Hx as [->|Hx];
    [|apply elem_of_cons in Hx as [->|Hx]; [|inversion Hx]]; reflexivity.
Defined.

(** X9, witness: with [update], the stale entry of [q] gives way to the
    expansion of [v - v0]. *)
Lemma delayed_symbol_sub_update_recomputes_witness :
  exists self' outd',
    delayed_symbol_sub set_iter_first (sympify_table []) gen_two_stale
      "_gcall_int_symbolic_singleton" "_gcall_int_symbolic" "vectorized" (AsCall smp_Array)
      true = Ok self' /\
    attrs self' !! KStr "_gcall_int_symbolic" = Some (PDict outd') /\
    dict_lookup outd' (KStr "q")
    = Some (PList [PExpr (App "Add" [sym "Gen_v_0"; App "Mul" [Num (-1); sym "Gen_v0_0"]]);
                   PExpr (App "Add" [sym "Gen_v_1"; App "Mul" [Num (-1); sym "Gen_v0_1"]])]).
Proof.
  set (value := PList [PExpr (App "Add" [sym "Gen_v_0"; App "Mul" [Num (-1); sym "Gen_v0_0"]]);
                       PExpr (App "Add" [sym "Gen_v_1"; App "Mul" [Num (-1); sym "Gen_v0_1"]])]).
  set (self' := dict_setitem gen_two_stale (KStr "_gcall_int_symbolic")
                  (PDict [(KStr "q", value)])).
  assert (Hrun : delayed_symbol_sub set_iter_first (sympify_table []) gen_two_stale
                   "_gcall_int_symbolic_singleton" "_gcall_int_symbolic" "vectorized"
                   (AsCall smp_Array) true = Ok self') by reflexivity.
  destruct (delayed_symbol_sub_update_recomputes set_iter_first (sympify_table [])
              set_iter_first_perm gen_two_stale self'
              "_gcall_int_symbolic_singleton" "_gcall_int_symbolic" "vectorized"
              (AsCall smp_Array) [(KStr "q", PExpr v_minus_v0)] [(KStr "q", PStr "stale")])
    as (outd' & Hout & Hitems & _).
  - reflexivity.
  - repeat constructor. intros Hin. inversion Hin.
  - reflexivity.
  - intros p e x Hp He Hx. apply elem_of_cons in Hp as [->|Hp]; [|inversion Hp].
    injection He as <-. rewrite free_symbols_v_minus_v0 in Hx.
    apply elem_of_cons in Hx as [->|Hx];
      [|apply elem_of_cons in Hx as [->|Hx]; [|inversion Hx]]; discriminate.
  - exact Hrun.
  - exists self', outd'. split; [exact Hrun|]. split; [exact Hout|].
    destruct (Hitems (KStr "q", PExpr v_minus_v0)) as (v & Hv & Hlook).
    + apply elem_of_cons. left. reflexivity.
    + cbn [fst snd] in Hv, Hlook. rewrite Hlook. f_equal.
      assert (Hvalue : _subs_all_vectorized set_iter_first (sympify_table []) gen_two_stale
                         (PExpr v_minus_v0) (AsCall smp_Array) = Ok value) by reflexivity.
      change (_subs_all_vectorized set_iter_first (sympify_table []) gen_two_stale
                (PExpr v_minus_v0) (AsCall smp_Array) = Ok v) in Hv.
      rewrite Hvalue in Hv. injection Hv as <-. reflexivity.
Defined.

(** X10, witness: the declared equation of [q] is bound to its parse. *)
Lemma make_gcall_int_symbolic_binds_witness :
  exists self' out',
    make_gcall_int_symbolic (sympify_table gen_table) gen_declared = Ok self' /\
    attrs self' !! KStr "_gcall_int_symbolic_singleton" = Some (PDict out') /\
    dict_lookup out' (KStr "q") = Some (PExpr v_minus_v0).
Proof.
  destruct (make_gcall_int_symbolic_binds (sympify_table gen_table) gen_declared
              [(KStr "q", PStr "v - v0")] [] (fun _ => v_minus_v0))
    as (self' & out' & Hrun & Hout & Hbind & _).
  - reflexivity.
  - repeat constructor. intros Hin. inversion Hin.
  - reflexivity.
  - intros p Hp. apply elem_of_cons in Hp as [->|Hp]; [|inversion Hp]. reflexivity.
  - exists self', out'. split; [exact Hrun|]. split; [exact Hout|].
    rewrite Hbind. reflexivity.
Defined.

(** X11, witness: the generator through the three passes: both of its
    equations are expanded. *)
Lemma symbolic_passes_cover_equations_witness :
  exists s3 ext_out' int_out',
    (let* s1 := make_gcall_int_symbolic (sympify_table gen_table) gen_declared in
     let* s2 := make_gcall_ext_symbolic (sympify_table gen_table) s1 in
     delayed_symbol_sub_all set_iter_first (sympify_table gen_table) s2) = Ok s3 /\
    attrs s3 !! KStr "_gcall_ext_symbolic" = Some (PDict ext_out') /\
    attrs s3 !! KStr "_gcall_int_symbolic" = Some (PDict int_out') /\
    is_Some (dict_lookup ext_out' (KStr "v")) /\
    is_Some (dict_lookup int_out' (KStr "q")).
Proof.
  set (s1 := setattr gen_declared "_gcall_int_symbolic_singleton"
               (PDict [(KStr "q", PExpr v_minus_v0)])).
  set (s2 := setattr s1 "_gcall_ext_symbolic_singleton" (PDict [(KStr "v", PExpr minus_q)])).
  set (s3 := dict_setitem
               (dict_setitem s2 (KStr "_gcall_ext_symbolic")
                  (PDict [(KStr "v",
                           PList [PExpr (App "Mul" [Num (-1); sym "Gen_q_0"]);
                                  PExpr (App "Mul" [Num (-1); sym "Gen_q_1"])])]))
               (KStr "_gcall_int_symbolic")
               (PDict [(KStr "q",
                        PList [PExpr (App "Add" [sym "Gen_v_0";
                                                 App "Mul" [Num (-1); sym "Gen_v0_0"]]);
                               PExpr (App "Add" [sym "Gen_v_1";
                                                 App "Mul" [Num (-1); sym "Gen_v0_1"]])])])).
  assert (H1 : make_gcall_int_symbolic (sympify_table gen_table) gen_declared = Ok s1)
    by reflexivity.
  assert (H2 : make_gcall_ext_symbolic (sympify_table gen_table) s1 = Ok s2) by reflexivity.
  assert (H3 : delayed_symbol_sub_all set_iter_first (sympify_table gen_table) s2 = Ok s3)
    by reflexivity.
  destruct (symbolic_passes_cover_equations set_iter_first (sympify_table gen_table)
              gen_declared s1 s2 s3
              [(KStr "v", PStr "-q")] [(KStr "q", PStr "v - v0")] [] [] [] []
              eq_refl eq_refl eq_refl eq_refl eq_refl eq_refl H1 H2 H3)
    as (ext_out' & int_out' & Heo & Hio & Hext & Hint & _).
  exists s3, ext_out', int_out'.
  split; [rewrite H1; cbn [bind]; rewrite H2; cbn [bind]; exact H3|].
  split; [exact Heo|]. split; [exact Hio|]. split.
  - apply (Hext (KStr "v", PStr "-q")). apply elem_of_cons. left. reflexivity.
  - apply (Hint (KStr "q", PStr "v - v0")). apply elem_of_cons. left. reflexivity.
Defined.

(** X12, witness: a computed variable declared by a bare string. *)
Lemma compute_variable_unsupported_declaration_witness :
  _compute_variable set_iter_first (sympify_table []) (sympify_table []) not_callable
    line_bare_computed = Raise NotImplementedError.
Proof.
  apply (compute_variable_unsupported_declaration set_iter_first (sympify_table [])
           (sympify_table []) not_callable line_bare_computed line_bare_computed
           (KStr "w") (PStr "v") [] []).
  - reflexivity.
  - reflexivity.
  - left. intros items H. discriminate H.
Defined.

(** X13, witness: the storage of the equation of [q] for two
    generators. *)
Lemma init_equation_zero_slots_witness :
  exists self',
    _init_equation gen_declared = Ok self' /\
    attrs self' !! KStr "_q" = Some (PList [PInt 0; PInt 0]).
Proof.
  destruct (init_equation_zero_slots gen_declared ["q"%string] [] [] 2)
    as (self' & Hrun & _ & Hslots & _); try reflexivity.
  - lia.
  - exists self'. split; [exact Hrun|].
    apply (Hslots "q"%string). apply elem_of_cons. left. reflexivity.
Defined.

Lemma name_set_iter_first_perm (l : list key) : name_set_iter_first l ≡ₚ l.
Proof. reflexivity. Qed.

(** The names of the bare generator are none of the attributes
    [_init_data] reads. *)
Lemma gen_bare_names (x : string) :
  x ∈ init_data_names ["name"; "u"; "v0"] ["name"] [] [] ["v"] ["w"] [] ->
  x ∉ init_data_reads.
Proof.
  intros Hx Hin.
  change (x ∈ ["u"; "v0"; "v"; "w"]%string) in Hx.
  unfold init_data_reads in Hin.
  repeat (apply elem_of_cons in Hx as [->|Hx];
          [repeat (apply elem_of_cons in Hin as [Hin|Hin]; [discriminate Hin|]);
           inversion Hin|]).
  inversion Hx.
Qed.

(** X14, witness: the bare generator gets the element symbols of [v] and
    of [w], the singleton of the computed variable [w] being
    non-commutative. *)
Lemma init_data_element_symbols_witness :
  exists self',
    _init_data name_set_iter_first gen_bare = Ok (self', PNone) /\
    element_symbols self' "Gen" 2 "v" true /\
    element_symbols self' "Gen" 2 "w" false.
Proof.
  destruct (init_data_element_symbols name_set_iter_first name_set_iter_first_perm
              gen_bare 2 ["name"; "u"; "v0"]%string ["name"%string] [] ["v"%string] []
              [] [("w"%string, PList [PStr "v"])] [])
    as (self' & Hrun & _ & _ & Hsym & _); try reflexivity.
  - lia.
  - exact gen_bare_names.
  - exists self'. split; [exact Hrun|]. split.
    + apply (Hsym "v"%string). do 2 (apply elem_of_cons; right).
      apply elem_of_cons. left. reflexivity.
    + apply (Hsym "w"%string). do 3 (apply elem_of_cons; right).
      apply elem_of_cons. left. reflexivity.
Defined.

(** X15, witness: after [_init_data], the equation [v - v0] of the bare
    generator expands to one equation per generator over the element
    symbols. *)
Lemma init_data_then_vectorized_witness :
  exists self' eqs,
    _init_data name_set_iter_first gen_bare = Ok (self', PNone) /\
    _subs_all_vectorized set_iter_first (sympify_table []) self' (PExpr v_minus_v0) AsList
      = Ok (PList (map PExpr eqs)) /\
    length eqs = 2%nat /\
    eqs !! 1%nat = Some (App "Add" [sym "Gen_v_1"; App "Mul" [Num (-1); sym "Gen_v0_1"]]).
Proof.
  destruct (init_data_then_vectorized set_iter_first (sympify_table []) name_set_iter_first
              set_iter_first_perm name_set_iter_first_perm
              gen_bare 2 ["name"; "u"; "v0"]%string ["name"%string] [] ["v"%string] []
              [] [("w"%string, PList [PStr "v"])] [] v_minus_v0)
    as (self' & eqs & Hrun & Hexp & Hlen & Heqs); try reflexivity.
  - lia.
  - exact gen_bare_names.
  - rewrite free_symbols_v_minus_v0. discriminate.
  - intros s Hs. rewrite free_symbols_v_minus_v0 in Hs.
    apply elem_of_cons in Hs as [->|Hs];
      [|apply elem_of_cons in Hs as [->|Hs]; [|inversion Hs]].
    + do 2 (apply elem_of_cons; right). apply elem_of_cons. left. reflexivity.
    + apply elem_of_cons. right. apply elem_of_cons. left. reflexivity.
  - intros s t i Hs Ht Hi. rewrite free_symbols_v_minus_v0 in Hs, Ht.
    apply elem_of_cons in Hs as [->|Hs];
      [|apply elem_of_cons in Hs as [->|Hs]; [|inversion Hs]];
      (apply elem_of_cons in Ht as [->|Ht];
        [|apply elem_of_cons in Ht as [->|Ht]; [|inversion Ht]]);
      (destruct i as [|[|i]]; [| |lia]); intros H; vm_compute in H; discriminate H.
  - exists self', eqs. split; [exact Hrun|]. split; [exact Hexp|]. split; [exact Hlen|].
    rewrite (Heqs 1%nat) by lia. reflexivity.
Defined.
